(** * Zendesk toolkit: paginated reads, lookup search, record deletion,
      relationship discovery, and the migration / rollback engine

    The development has four parts.

    - [Dashboard] embeds the functions of
      [Custom Object Manager App/assets/main.js] that talk to the remote
      API: [fetchAllPages], [searchLookupData], [fetchSingleRecordName],
      [getLookupFieldsForCurrentCo], [loadTable], [deleteRecord] and the
      click handler installed by [renderObjectSelector].  JavaScript values
      are embedded as a small untyped universe ([JS.value]); the program's
      globals, the part of the DOM the functions write, the console and the
      network are fields of an explicit state that every function threads.
      [await] is sequential composition.

    - [Async] repeats the functions around the discovery cache with the
      other handlers of the page running at every awaited request.

    - [Views] embeds the rest of main.js on top of [Dashboard]: the column
      layout of [loadTable] and of the restore button, [startApp] with
      [renderObjectSelector], [handleFormSubmit], [loadRelatedRecords],
      [showForm] and [customFilter].  What these functions write into the
      page is returned as a value.

    - [Toolkit] models the migration scripts described by the README
      (request executor, dependency resolver, migration executor, rollback
      engine, plan serializer).  Their Python sources are not part of the
      tree, so those definitions follow the written design. *)

From Stdlib Require Import ZArith String Ascii List DecimalString Lia.
From stdpp Require Import base list gmap strings sorting.

Set Warnings "-register-all".
Set Default Proof Using "Type".

(* ===================================================================== *)
(** * JavaScript values *)
(* ===================================================================== *)

Module JS.

(** The values that travel through the code: JSON data returned by the API
    plus [undefined].  Numbers are integers (identifiers and counts);
    objects are association lists, looked up left to right. *)
Inductive value : Type :=
| VUndefined
| VNull
| VBool (b : bool)
| VNum (n : Z)
| VStr (s : string)
| VArr (items : list value)
| VObj (props : list (string * value)).

(** Exceptions a piece of code can raise: a [TypeError] of the language, or
    the rejection of a request promise with the reason the client gave. *)
Inductive exn : Type :=
| TypeError (msg : string)
| Rejected (reason : value).

(** Result of evaluating an expression that may throw. *)
Inductive result (A : Type) : Type :=
| Val (a : A)
| Exn (e : exn).
Arguments Val {A} a.
Arguments Exn {A} e.

Definition rbind {A B} (r : result A) (k : A -> result B) : result B :=
  match r with
  | Val a => k a
  | Exn e => Exn e
  end.

(** ToBoolean. *)
Definition truthy (v : value) : bool :=
  match v with
  | VUndefined | VNull => false
  | VBool b => b
  | VNum n => negb (n =? 0)%Z
  | VStr s => negb (String.eqb s "")
  | VArr _ | VObj _ => true
  end.

Fixpoint assoc (k : string) (props : list (string * value)) : option value :=
  match props with
  | [] => None
  | (k', v) :: rest => if String.eqb k k' then Some v else assoc k rest
  end.

(** Property read [v.k] / [v[k]].  Reading from [undefined] or [null]
    throws; a missing property is [undefined].  Primitive wrappers and
    arrays have none of the property names the program reads, so they
    answer [undefined]. *)
Definition get (v : value) (k : string) : result value :=
  match v with
  | VUndefined => Exn (TypeError ("Cannot read properties of undefined (reading '" +:+ k +:+ "')"))
  | VNull => Exn (TypeError ("Cannot read properties of null (reading '" +:+ k +:+ "')"))
  | VObj props => Val (default VUndefined (assoc k props))
  | _ => Val VUndefined
  end.

(** [v === true], [v === false], [v === s] for a string [s]. *)
Definition is_true (v : value) : bool :=
  match v with VBool true => true | _ => false end.

Definition is_false (v : value) : bool :=
  match v with VBool false => true | _ => false end.

Definition is_str (v : value) (s : string) : bool :=
  match v with VStr s' => String.eqb s' s | _ => false end.

(** [a || b] and [a && b] on already evaluated operands. *)
Definition js_or (a b : value) : value := if truthy a then a else b.
Definition js_and (a b : value) : value := if truthy a then b else a.

Definition string_of_Z (n : Z) : string := NilZero.string_of_int (Z.to_int n).

(** ToString, as used by template literals. *)
Fixpoint to_string (v : value) : string :=
  match v with
  | VUndefined => "undefined"
  | VNull => "null"
  | VBool true => "true"
  | VBool false => "false"
  | VNum n => string_of_Z n
  | VStr s => s
  | VArr items =>
      (fix join (l : list value) : string :=
         match l with
         | [] => ""
         | x :: rest =>
             let sx := match x with
                       | VUndefined | VNull => ""
                       | _ => to_string x
                       end in
             match rest with
             | [] => sx
             | _ => sx +:+ "," +:+ join rest
             end
         end) items
  | VObj _ => "[object Object]"
  end.

(** [arr.concat(v)]: an array argument is spliced in, anything else is
    appended as one element. *)
Definition concat (arr : list value) (v : value) : list value :=
  match v with
  | VArr items => arr ++ items
  | _ => arr ++ [v]
  end.

(** [s.replace(pat, rep)] with a string pattern: the first occurrence only. *)
Fixpoint replace (pat rep s : string) : string :=
  if String.prefix pat s then rep +:+ String.substring (String.length pat) (String.length s - String.length pat) s
  else match s with
       | EmptyString => EmptyString
       | String c rest => String c (replace pat rep rest)
       end.

Definition hex_digit (n : N) : ascii :=
  match n with
  | 0%N => "0" | 1%N => "1" | 2%N => "2" | 3%N => "3" | 4%N => "4"
  | 5%N => "5" | 6%N => "6" | 7%N => "7" | 8%N => "8" | 9%N => "9"
  | 10%N => "A" | 11%N => "B" | 12%N => "C" | 13%N => "D" | 14%N => "E"
  | _ => "F"
  end%char.

Definition uri_unreserved (c : ascii) : bool :=
  let n := N_of_ascii c in
  ((65 <=? n) && (n <=? 90) || (97 <=? n) && (n <=? 122) || (48 <=? n) && (n <=? 57))%N
  || existsb (Ascii.eqb c) ["-"; "_"; "."; "!"; "~"; "*"; "'"; "("; ")"]%char.

(** [encodeURIComponent] on a string given as its UTF-8 bytes: every byte
    outside the unreserved set becomes [%XX]. *)
Fixpoint encodeURIComponent (s : string) : string :=
  match s with
  | EmptyString => EmptyString
  | String c rest =>
      if uri_unreserved c then String c (encodeURIComponent rest)
      else let n := N_of_ascii c in
           String "%" (String (hex_digit (n / 16)) (String (hex_digit (n mod 16)) (encodeURIComponent rest)))
  end.

End JS.

(* ===================================================================== *)
(** * The dashboard application (main.js) *)
(* ===================================================================== *)

Module Dashboard.
Import JS.

(** ** Program state

    The globals declared at the top of main.js, the part of the page the
    modelled functions write, the console, the alerts shown, and the
    network: every exchange with [client.request] in order, and the state
    of the remote service. *)
Record State (Srv : Type) : Type := mkState {
  currentCoKey : value;
  currentCoTitle : value;
  currentSchema : value;
  cachedLookupFields : value;
  activeView : string;
  loaderText : string;
  tableData : list value;
  tableColumns : list value;
  console : list (string * string);
  alerts : list string;
  network : list (value * (value + value));
  remote : Srv
}.
Arguments mkState {Srv}.
Arguments currentCoKey {Srv}.
Arguments currentCoTitle {Srv}.
Arguments currentSchema {Srv}.
Arguments cachedLookupFields {Srv}.
Arguments activeView {Srv}.
Arguments loaderText {Srv}.
Arguments tableData {Srv}.
Arguments tableColumns {Srv}.
Arguments console {Srv}.
Arguments alerts {Srv}.
Arguments network {Srv}.
Arguments remote {Srv}.

(** How a computation ends: with a value, with an exception, or not within
    the number of loop iterations it was allowed. *)
Inductive outcome (A : Type) : Type :=
| Returns (a : A)
| Throws (e : exn)
| Diverges.
Arguments Returns {A} a.
Arguments Throws {A} e.
Arguments Diverges {A}.

Definition M (Srv A : Type) : Type := State Srv -> outcome A * State Srv.

Declare Scope js_scope.
Delimit Scope js_scope with js.
Notation "'let!' x ':=' e 'in' k" := (rbind e (fun x => k))
  (at level 10, x name, e at level 200, k at level 200) : js_scope.
Local Open Scope js_scope.

(** [a || b] where [b] is only evaluated when [a] is falsy. *)
Definition or_else (a : value) (b : result value) : result value :=
  if truthy a then Val a else b.

(** [a && b] where [b] is only evaluated when [a] is truthy. *)
Definition and_then (a : value) (b : result value) : result value :=
  if truthy a then b else Val a.

(** ** Pagination links

    The if / else-if / else chain of [fetchAllPages] that picks the endpoint
    of the following page; [VNull] is "no further page". *)
Definition next_link (response : value) : result value :=
  let! meta := get response "meta" in
  let! cond :=
    and_then meta
      (let! has_more := get meta "has_more" in
       and_then has_more
         (let! links := get response "links" in
          and_then links (get links "next"))) in
  if truthy cond then
    let! links := get response "links" in get links "next"
  else
    let! next_page := get response "next_page" in
    if truthy next_page then Val next_page else Val VNull.

(** ** Lookup search and record names: the pure parts *)

(** The endpoint, the data key and the label field [searchLookupData]
    chooses for a target type; [None] is the final [else] branch. *)
Definition lookup_search_route (targetType query : string) : option (string * string * string) :=
  if String.prefix "zen:custom_object:" targetType then
    let relatedCoKey := replace "zen:custom_object:" "" targetType in
    Some ("/api/v2/custom_objects/" +:+ relatedCoKey +:+ "/records/autocomplete?name=" +:+ encodeURIComponent query,
          "custom_object_records", "name")
  else if String.eqb targetType "zen:user" then
    Some ("/api/v2/users/autocomplete.json?name=" +:+ encodeURIComponent query, "users", "name")
  else if String.eqb targetType "zen:ticket" then
    Some ("/api/v2/search.json?query=type:ticket " +:+ encodeURIComponent query, "results", "subject")
  else if String.eqb targetType "zen:organization" then
    Some ("/api/v2/organizations/autocomplete.json?name=" +:+ encodeURIComponent query, "organizations", "name")
  else None.

(** The same choice in [fetchSingleRecordName]. *)
Definition single_record_route (targetType : string) (id : value) : option (string * string * string) :=
  if String.prefix "zen:custom_object:" targetType then
    let relatedCoKey := replace "zen:custom_object:" "" targetType in
    Some ("/api/v2/custom_objects/" +:+ relatedCoKey +:+ "/records/" +:+ to_string id,
          "custom_object_record", "name")
  else if String.eqb targetType "zen:user" then
    Some ("/api/v2/users/" +:+ to_string id +:+ ".json", "user", "name")
  else if String.eqb targetType "zen:ticket" then
    Some ("/api/v2/tickets/" +:+ to_string id +:+ ".json", "ticket", "subject")
  else if String.eqb targetType "zen:organization" then
    Some ("/api/v2/organizations/" +:+ to_string id +:+ ".json", "organization", "name")
  else None.

(** The callback given to [rawRecords.filter]. *)
Definition lookup_visible (record : value) : result bool :=
  let! suspended := get record "suspended" in
  if is_true suspended then Val false else
  let! active := get record "active" in
  if is_false active then Val false else
  let! custom_object_fields := get record "custom_object_fields" in
  let! hidden :=
    (if truthy custom_object_fields
     then let! cof_active := get custom_object_fields "active" in Val (is_false cof_active)
     else Val false) in
  if hidden then Val false else Val true.

(** [record[labelField] || record.title || `Record ${record.id}`]. *)
Definition record_label (labelField : string) (record : value) : result value :=
  let! label := get record labelField in
  or_else label
    (let! title := get record "title" in
     or_else title
       (let! id := get record "id" in Val (VStr ("Record " +:+ to_string id)))).

(** The callback given to [filteredRecords.map]. *)
Definition lookup_option (labelField : string) (record : value) : result value :=
  let! id := get record "id" in
  let! id' := or_else id (get record "external_id") in
  let! label := record_label labelField record in
  Val (VObj [("id", id'); ("label", label)]).

(** [Array.prototype.filter] and [Array.prototype.map] with callbacks that
    may throw: the first exception aborts the traversal. *)
Fixpoint filter_records (keep : value -> result bool) (l : list value) : result (list value) :=
  match l with
  | [] => Val []
  | r :: rest =>
      let! b := keep r in
      let! rest' := filter_records keep rest in
      Val (if b then r :: rest' else rest')
  end.

Fixpoint map_records (f : value -> result value) (l : list value) : result (list value) :=
  match l with
  | [] => Val []
  | r :: rest =>
      let! x := f r in
      let! rest' := map_records f rest in
      Val (x :: rest')
  end.

(** Calling [.filter] on something that is not an array is a [TypeError]. *)
Definition array_filter (keep : value -> result bool) (v : value) : result (list value) :=
  match v with
  | VArr l => filter_records keep l
  | _ => Exn (TypeError "rawRecords.filter is not a function")
  end.

(** What the [try] block of [searchLookupData] computes from the response. *)
Definition lookup_results (dataKey labelField : string) (response : value) : result (list value) :=
  let! raw := get response dataKey in
  let rawRecords := js_or raw (VArr []) in
  let! filteredRecords := array_filter lookup_visible rawRecords in
  map_records (lookup_option labelField) filteredRecords.

(** What the [try] block of [fetchSingleRecordName] computes from the
    response. *)
Definition record_name (dataKey labelField : string) (response : value) : result value :=
  let! record := get response dataKey in
  record_label labelField record.

(** ** Relationship discovery: the pure parts *)

(** [f.type === 'lookup' && f.relationship_target_type === target]. *)
Definition points_to (target : string) (f : value) : result bool :=
  let! type := get f "type" in
  if is_str type "lookup" then
    let! relationship_target_type := get f "relationship_target_type" in
    Val (is_str relationship_target_type target)
  else Val false.

(** The object pushed for a ticket, user or organization field. *)
Definition field_entry (type label : string) (f : value) : result value :=
  let! id := get f "id" in
  let! title := get f "title" in
  Val (VObj [("id", id); ("title", title); ("type", VStr type); ("label", VStr label)]).

(** The object pushed for a field of the custom object [obj]: the field's
    string [key] serves as its id. *)
Definition co_field_entry (obj : value) (f : value) : result value :=
  let! key := get f "key" in
  let! title := get f "title" in
  let! obj_key := get obj "key" in
  let! label := get obj "title_pluralized" in
  Val (VObj [("id", key); ("title", title);
             ("type", VStr ("zen:custom_object:" +:+ to_string obj_key)); ("label", label)]).

(** [list.forEach(f => { if (points to target) fields.push(entry(f)) })].
    [fields] is mutated in place, so what was pushed before an exception
    stays pushed: the function returns the array as it stands together with
    the exception, if any. *)
Fixpoint collect_lookups (target : string) (entry : value -> result value)
  (l : list value) (fields : list value) : list value * option exn :=
  match l with
  | [] => (fields, None)
  | f :: rest =>
      match points_to target f with
      | Exn e => (fields, Some e)
      | Val false => collect_lookups target entry rest fields
      | Val true =>
          match entry f with
          | Exn e => (fields, Some e)
          | Val x => collect_lookups target entry rest (fields ++ [x])
          end
      end
  end.

(** ** Table rendering: the pure parts *)

(** The items of an array or of a string as properties named by their
    index, from [i] on. *)
Fixpoint indexed (i : nat) (items : list value) : list (string * value) :=
  match items with
  | [] => []
  | item :: rest => (string_of_Z (Z.of_nat i), item) :: indexed (S i) rest
  end.

(** [...v] inside an object literal: the own enumerable properties of [v].
    An object gives its properties, an array its items and a string its
    characters under their indices; [null], [undefined], a boolean and a
    number give nothing. *)
Definition spread (v : value) : list (string * value) :=
  match v with
  | VObj props => props
  | VArr items => indexed 0 items
  | VStr s => indexed 0 (map (fun c => VStr (String c EmptyString)) (list_ascii_of_string s))
  | _ => []
  end.

(** [{ id: record.id, name: record.name, ...record.custom_object_fields }];
    the spread properties override [id] and [name], hence come first in the
    association list. *)
Definition table_row (record : value) : result value :=
  let! id := get record "id" in
  let! name := get record "name" in
  let! custom_object_fields := get record "custom_object_fields" in
  Val (VObj (spread custom_object_fields ++ [("id", id); ("name", name)])).

(** The column definition built for one schema field. *)
Definition column_def (field : value) : result value :=
  let! title := get field "title" in
  let! key := get field "key" in
  let! type := get field "type" in
  let base := [("title", title); ("field", key)] in
  Val (VObj
    (if is_str type "checkbox" then
       base ++ [("width", VNum 100); ("hozAlign", VStr "center"); ("formatter", VStr "tickCross")]
     else if is_str type "date" then
       base ++ [("width", VNum 120)]
     else if is_str type "integer" || is_str type "decimal" then
       base ++ [("width", VNum 110); ("hozAlign", VStr "right")]
     else
       base ++ [("minWidth", VNum 150)])).

(** [currentSchema.forEach(field => columns.push(colDef))]: calling
    [forEach] on something that is not an array is a [TypeError]. *)
Definition schema_columns (schema : value) : result (list value) :=
  match schema with
  | VArr fields => map_records column_def fields
  | _ => Exn (TypeError "currentSchema.forEach is not a function")
  end.

Section App.
Context {Srv : Type}.

(** The remote service: a request descriptor (a URL string, or an options
    object with [url] and [type]) is answered by a resolved value ([inl]) or
    a rejection ([inr]), and the service moves to a new state. *)
Variable serve : value -> Srv -> (value + value) * Srv.

(** The operator's answer to a [confirm] dialog showing a given message. *)
Variable operator : string -> bool.

Definition ret {A} (a : A) : M Srv A := fun st => (Returns a, st).

Definition bind {A B} (m : M Srv A) (k : A -> M Srv B) : M Srv B :=
  fun st =>
    match m st with
    | (Returns a, st') => k a st'
    | (Throws e, st') => (Throws e, st')
    | (Diverges, st') => (Diverges, st')
    end.

Definition lift {A} (r : result A) : M Srv A :=
  fun st => match r with
            | Val a => (Returns a, st)
            | Exn e => (Throws e, st)
            end.

Definition try_catch {A} (body : M Srv A) (handler : exn -> M Srv A) : M Srv A :=
  fun st =>
    match body st with
    | (Throws e, st') => handler e st'
    | other => other
    end.

Definition gets {A} (f : State Srv -> A) : M Srv A := fun st => (Returns (f st), st).
Definition modify (f : State Srv -> State Srv) : M Srv unit := fun st => (Returns tt, f st).

(** *** Field updates *)

Definition set_currentCoKey (v : value) (st : State Srv) : State Srv :=
  mkState v (currentCoTitle st) (currentSchema st) (cachedLookupFields st)
    (activeView st) (loaderText st) (tableData st) (tableColumns st)
    (console st) (alerts st) (network st) (remote st).

Definition set_currentCoTitle (v : value) (st : State Srv) : State Srv :=
  mkState (currentCoKey st) v (currentSchema st) (cachedLookupFields st)
    (activeView st) (loaderText st) (tableData st) (tableColumns st)
    (console st) (alerts st) (network st) (remote st).

Definition set_currentSchema (v : value) (st : State Srv) : State Srv :=
  mkState (currentCoKey st) (currentCoTitle st) v (cachedLookupFields st)
    (activeView st) (loaderText st) (tableData st) (tableColumns st)
    (console st) (alerts st) (network st) (remote st).

Definition set_cachedLookupFields (v : value) (st : State Srv) : State Srv :=
  mkState (currentCoKey st) (currentCoTitle st) (currentSchema st) v
    (activeView st) (loaderText st) (tableData st) (tableColumns st)
    (console st) (alerts st) (network st) (remote st).

(** [switchView(activeViewId)]: exactly one of the views is displayed. *)
Definition switchView (activeViewId : string) (st : State Srv) : State Srv :=
  mkState (currentCoKey st) (currentCoTitle st) (currentSchema st) (cachedLookupFields st)
    activeViewId (loaderText st) (tableData st) (tableColumns st)
    (console st) (alerts st) (network st) (remote st).

Definition updateLoaderText (text : string) (st : State Srv) : State Srv :=
  mkState (currentCoKey st) (currentCoTitle st) (currentSchema st) (cachedLookupFields st)
    (activeView st) text (tableData st) (tableColumns st)
    (console st) (alerts st) (network st) (remote st).

Definition set_table (rows columns : list value) (st : State Srv) : State Srv :=
  mkState (currentCoKey st) (currentCoTitle st) (currentSchema st) (cachedLookupFields st)
    (activeView st) (loaderText st) rows columns
    (console st) (alerts st) (network st) (remote st).

(** [console.error(msg, ...)] and [console.warn(msg, ...)]: the level and
    the message are kept. *)
Definition console_log (level msg : string) (st : State Srv) : State Srv :=
  mkState (currentCoKey st) (currentCoTitle st) (currentSchema st) (cachedLookupFields st)
    (activeView st) (loaderText st) (tableData st) (tableColumns st)
    (console st ++ [(level, msg)]) (alerts st) (network st) (remote st).

Definition alert (msg : string) (st : State Srv) : State Srv :=
  mkState (currentCoKey st) (currentCoTitle st) (currentSchema st) (cachedLookupFields st)
    (activeView st) (loaderText st) (tableData st) (tableColumns st)
    (console st) (alerts st ++ [msg]) (network st) (remote st).

(** [client.request(req)]: the service answers, the exchange is recorded. *)
Definition client_request (req : value) (st : State Srv) : (value + value) * State Srv :=
  let (reply, srv') := serve req (remote st) in
  (reply,
   mkState (currentCoKey st) (currentCoTitle st) (currentSchema st) (cachedLookupFields st)
     (activeView st) (loaderText st) (tableData st) (tableColumns st)
     (console st) (alerts st) (network st ++ [(req, reply)]) srv').

(** [await client.request(req)]. *)
Definition request (req : value) : M Srv value :=
  fun st => match client_request req st with
            | (inl response, st') => (Returns response, st')
            | (inr reason, st') => (Throws (Rejected reason), st')
            end.

Notation "'let*' x ':=' e 'in' k" := (bind e (fun x => k))
  (at level 10, x name, e at level 200, k at level 200).

(** ** [fetchAllPages] *)

(** [if (progressCallback) progressCallback(count)]: a callback is an update
    of the program state (the one the program passes rewrites the loader
    text); it does not throw. *)
Definition run_callback (progressCallback : option (nat -> State Srv -> State Srv))
  (count : nat) (st : State Srv) : State Srv :=
  match progressCallback with
  | Some callback => callback count st
  | None => st
  end.

(** One pass through the body of the [while] loop.  The locals [allRecords]
    and [currentEndpoint] are returned as they stand when the pass ends,
    whether the [try] block completed or the [catch] block ran. *)
Definition fetchAllPages_iteration (dataKey : string)
  (progressCallback : option (nat -> State Srv -> State Srv))
  (allRecords : list value) (currentEndpoint : value) (st : State Srv)
  : (list value * value) * State Srv :=
  let caught (allRecords : list value) (st : State Srv) :=
    ((allRecords, VNull),
     console_log "error" ("Error fetching paginated data from " +:+ to_string currentEndpoint +:+ ":") st) in
  match client_request currentEndpoint st with
  | (inl response, st1) =>
      match get response dataKey with
      | Val items =>
          let '(allRecords1, st2) :=
            if truthy items then
              let joined := concat allRecords items in
              (joined, run_callback progressCallback (length joined) st1)
            else (allRecords, st1) in
          match next_link response with
          | Val next => ((allRecords1, next), st2)
          | Exn _ => caught allRecords1 st2
          end
      | Exn _ => caught allRecords st1
      end
  | (inr _, st1) => caught allRecords st1
  end.

(** [while (currentEndpoint) { ... } return allRecords;] with a bound on the
    number of passes. *)
Fixpoint fetchAllPages_loop (fuel : nat) (dataKey : string)
  (progressCallback : option (nat -> State Srv -> State Srv))
  (allRecords : list value) (currentEndpoint : value) : M Srv (list value) :=
  fun st =>
    if truthy currentEndpoint then
      match fuel with
      | O => (Diverges, st)
      | S fuel' =>
          let '((allRecords', next), st') :=
            fetchAllPages_iteration dataKey progressCallback allRecords currentEndpoint st in
          fetchAllPages_loop fuel' dataKey progressCallback allRecords' next st'
      end
    else (Returns allRecords, st).

Definition fetchAllPages (fuel : nat) (initialEndpoint : value) (dataKey : string)
  (progressCallback : option (nat -> State Srv -> State Srv)) : M Srv (list value) :=
  fetchAllPages_loop fuel dataKey progressCallback [] initialEndpoint.

(** ** [searchLookupData] *)

Definition searchLookupData (targetType query : string) : M Srv (list value) :=
  match lookup_search_route targetType query with
  | None => ret []
  | Some (endpoint, dataKey, labelField) =>
      try_catch
        (let* response := request (VStr endpoint) in
         lift (lookup_results dataKey labelField response))
        (fun error =>
           let* _ := modify (console_log "error" "Lookup Search Error:") in
           ret [])
  end.

(** ** [fetchSingleRecordName] *)

Definition fetchSingleRecordName (targetType : string) (id : value) : M Srv value :=
  match single_record_route targetType id with
  | None => ret (VStr ("Record " +:+ to_string id))
  | Some (endpoint, dataKey, labelField) =>
      try_catch
        (let* response := request (VStr endpoint) in
         lift (record_name dataKey labelField response))
        (fun e => ret (VStr ("Record " +:+ to_string id)))
  end.

(** The call as its callers make it, with whatever value they pass for
    [targetType].  The first statement that uses it,
    [targetType.startsWith('zen:custom_object:')], stands before the [try]:
    on anything but a string it throws, no request is sent, and the promise
    the function returned rejects. *)
Definition fetchSingleRecordName_call (targetType id : value) : M Srv value :=
  match targetType with
  | VStr name => fetchSingleRecordName name id
  | VUndefined =>
      lift (Exn (TypeError "Cannot read properties of undefined (reading 'startsWith')"))
  | VNull => lift (Exn (TypeError "Cannot read properties of null (reading 'startsWith')"))
  | _ => lift (Exn (TypeError "targetType.startsWith is not a function"))
  end.

(** ** [getLookupFieldsForCurrentCo] *)

(** One of the first three [try { ... } catch (e) { console.warn(...) }]
    blocks: fetch a collection of field definitions and push the lookups
    that point to [target] onto [fields]. *)
Definition scan_block (fuel : nat) (endpoint dataKey target : string)
  (entry : value -> result value) (warning : string) (fields : list value)
  : M Srv (list value) :=
  fun st =>
    match fetchAllPages fuel (VStr endpoint) dataKey None st with
    | (Returns records, st1) =>
        match collect_lookups target entry records fields with
        | (fields', None) => (Returns fields', st1)
        | (fields', Some _) => (Returns fields', console_log "warn" warning st1)
        end
    | (Throws _, st1) => (Returns fields, console_log "warn" warning st1)
    | (Diverges, st1) => (Diverges, st1)
    end.

(** The body of [for (const obj of customObjects)]: an inner [try] whose
    handler evaluates [obj.key] again for its message, so the handler itself
    can throw; that exception is returned next to [fields]. *)
Definition scan_custom_object (fuel : nat) (target : string) (obj : value)
  (fields : list value) : M Srv (list value * option exn) :=
  fun st =>
    let handler (fields : list value) (st : State Srv) :=
      match get obj "key" with
      | Val key =>
          (Returns (fields, None),
           console_log "warn" ("Could not load fields for CO " +:+ to_string key) st)
      | Exn e => (Returns (fields, Some e), st)
      end in
    match get obj "key" with
    | Exn _ => handler fields st
    | Val key =>
        match fetchAllPages fuel
                (VStr ("/api/v2/custom_objects/" +:+ to_string key +:+ "/fields.json"))
                "custom_object_fields" None st with
        | (Returns coFields, st1) =>
            match collect_lookups target (co_field_entry obj) coFields fields with
            | (fields', None) => (Returns (fields', None), st1)
            | (fields', Some _) => handler fields' st1
            end
        | (Throws _, st1) => handler fields st1
        | (Diverges, st1) => (Diverges, st1)
        end
    end.

Fixpoint scan_custom_objects (fuel : nat) (target : string) (objs : list value)
  (fields : list value) : M Srv (list value * option exn) :=
  match objs with
  | [] => ret (fields, None)
  | obj :: rest =>
      fun st =>
        match scan_custom_object fuel target obj fields st with
        | (Returns (fields', None), st1) => scan_custom_objects fuel target rest fields' st1
        | other => other
        end
  end.

(** The fourth [try] block. *)
Definition scan_all_custom_objects (fuel : nat) (target : string) (fields : list value)
  : M Srv (list value) :=
  fun st =>
    match fetchAllPages fuel (VStr "/api/v2/custom_objects.json") "custom_objects" None st with
    | (Returns customObjects, st1) =>
        match scan_custom_objects fuel target customObjects fields st1 with
        | (Returns (fields', None), st2) => (Returns fields', st2)
        | (Returns (fields', Some _), st2) =>
            (Returns fields', console_log "warn" "Could not load COs" st2)
        | (Throws _, st2) => (Returns fields, console_log "warn" "Could not load COs" st2)
        | (Diverges, st2) => (Diverges, st2)
        end
    | (Throws _, st1) => (Returns fields, console_log "warn" "Could not load COs" st1)
    | (Diverges, st1) => (Diverges, st1)
    end.

Definition getLookupFieldsForCurrentCo (fuel : nat) : M Srv value :=
  let* cached := gets cachedLookupFields in
  if truthy cached then ret cached else
  let* key := gets currentCoKey in
  let target := "zen:custom_object:" +:+ to_string key in
  let* fields := scan_block fuel "/api/v2/ticket_fields.json" "ticket_fields" target
                   (field_entry "zen:ticket" "Tickets") "Could not load ticket fields" [] in
  let* fields := scan_block fuel "/api/v2/user_fields.json" "user_fields" target
                   (field_entry "zen:user" "Users") "Could not load user fields" fields in
  let* fields := scan_block fuel "/api/v2/organization_fields.json" "organization_fields" target
                   (field_entry "zen:organization" "Organizations") "Could not load org fields" fields in
  let* fields := scan_all_custom_objects fuel target fields in
  let* _ := modify (set_cachedLookupFields (VArr fields)) in
  ret (VArr fields).

(** ** [loadTable]

    The requests, the globals and the view switches are modelled, together
    with the rows and the column definitions handed to the table widget; the
    widget itself and the column selector are not. *)
Definition fixed_columns_before : list value :=
  [VObj [("title", VStr "#"); ("field", VStr "custom_rownum")];
   VObj [("title", VStr "ID"); ("field", VStr "id"); ("width", VNum 80)];
   VObj [("title", VStr "Record Name"); ("field", VStr "name"); ("minWidth", VNum 150)]].

Definition fixed_columns_after : list value :=
  [VObj [("title", VStr "Actions"); ("field", VStr "actions"); ("width", VNum 140)]].

Definition loadTable (fuel : nat) (coKey : value) : M Srv unit :=
  let* _ := modify (updateLoaderText "Loading schema...") in
  let* _ := modify (switchView "loader") in
  try_catch
    (let* schemaResponse :=
       request (VStr ("/api/v2/custom_objects/" +:+ to_string coKey +:+ "/fields")) in
     let* schema := lift (get schemaResponse "custom_object_fields") in
     let* _ := modify (set_currentSchema schema) in
     let* records :=
       fetchAllPages fuel
         (VStr ("/api/v2/custom_objects/" +:+ to_string coKey +:+ "/records?page[size]=100"))
         "custom_object_records"
         (Some (fun currentCount =>
                  updateLoaderText ("Fetching data... " +:+ string_of_Z (Z.of_nat currentCount)
                                    +:+ " records loaded"))) in
     let* _ := modify (updateLoaderText "Rendering table...") in
     let* rows := lift (map_records table_row records) in
     let* schema' := gets currentSchema in
     let* columns := lift (schema_columns schema') in
     let* _ := modify (switchView "table") in
     modify (set_table rows (fixed_columns_before ++ columns ++ fixed_columns_after)))
    (fun error =>
       let* _ := modify (console_log "error" "Error loading table data:") in
       modify (updateLoaderText "Error loading table data.")).

(** ** [deleteRecord] *)

Definition confirm_delete_message (recordId : value) : string :=
  "Are you sure you want to delete record " +:+ to_string recordId +:+ "? This cannot be undone.".

Definition delete_request (coKey recordId : value) : value :=
  VObj [("url", VStr ("/api/v2/custom_objects/" +:+ to_string coKey +:+ "/records/" +:+ to_string recordId));
        ("type", VStr "DELETE")].

Definition deleteRecord (fuel : nat) (recordId : value) : M Srv unit :=
  if operator (confirm_delete_message recordId) then
    let* _ := modify (updateLoaderText ("Deleting record " +:+ to_string recordId +:+ "...")) in
    let* _ := modify (switchView "loader") in
    try_catch
      (let* key := gets currentCoKey in
       let* _ := request (delete_request key recordId) in
       let* key' := gets currentCoKey in
       loadTable fuel key')
      (fun error =>
         let* _ := modify (console_log "error" "Error deleting record:") in
         let* _ := modify (alert "Failed to delete record.") in
         modify (switchView "table"))
  else ret tt.

(** ** The click handler of the [load-co-btn] button

    [selectedKey] is the value of the selector and [selectedText] the text
    of the selected option. *)
Definition load_co_btn_click (fuel : nat) (selectedKey selectedText : string) : M Srv unit :=
  if truthy (VStr selectedKey) then
    let* _ := modify (set_currentCoKey (VStr selectedKey)) in
    let* _ := modify (set_currentCoTitle (VStr selectedText)) in
    let* _ := modify (set_cachedLookupFields VNull) in
    let* key := gets currentCoKey in
    loadTable fuel key
  else ret tt.

(** A request descriptor that asks for a deletion. *)
Definition is_delete (req : value) : bool :=
  match get req "type" with
  | Val type => is_str type "DELETE"
  | Exn _ => false
  end.

(** ** Vocabulary for statements about lookups *)

(** A record the lookup search may show: not suspended, not inactive, and
    not deactivated through its custom fields. *)
Definition shown (record : value) : Prop :=
  get record "suspended" <> Val (VBool true) /\
  get record "active" <> Val (VBool false) /\
  forall custom_object_fields,
    get record "custom_object_fields" = Val custom_object_fields ->
    truthy custom_object_fields = true ->
    get custom_object_fields "active" <> Val (VBool false).

(** A value that is a string, or missing. *)
Definition text_or_absent (v : value) : bool :=
  match v with
  | VStr _ | VNull | VUndefined => true
  | _ => false
  end.

(** The label field and the title of a record are strings, or missing, as
    the API documents them. *)
Definition labels_are_text (labelField : string) (record : value) : bool :=
  match get record labelField, get record "title" with
  | Val label, Val title => text_or_absent label && text_or_absent title
  | _, _ => true
  end.

(** ** Vocabulary for statements about pagination *)

(** What one page contributes to the result: the value under the data key,
    spliced in when truthy. *)
Definition page_items (dataKey : string) (response : value) : list value :=
  match get response dataKey with
  | Val items => if truthy items then concat [] items else []
  | Exn _ => []
  end.

(** [page_chain ep srv exchanges ep' srv']: from endpoint [ep] and remote
    state [srv], the service resolves one request after the other, each
    response naming the endpoint of the next request; [exchanges] lists the
    endpoints asked with their responses, [ep'] is what the last response
    names ([VNull] when it names nothing) and [srv'] the remote state
    reached. *)
Inductive page_chain : value -> Srv -> list (value * value) -> value -> Srv -> Prop :=
| chain_done ep srv : page_chain ep srv [] ep srv
| chain_page ep srv response srv1 next exchanges ep' srv' :
    truthy ep = true ->
    serve ep srv = (inl response, srv1) ->
    next_link response = Val next ->
    page_chain next srv1 exchanges ep' srv' ->
    page_chain ep srv ((ep, response) :: exchanges) ep' srv'.

(** A progress callback that only writes to the page. *)
Definition display_only (progressCallback : option (nat -> State Srv -> State Srv)) : Prop :=
  forall callback n st,
    progressCallback = Some callback ->
    network (callback n st) = network st /\
    remote (callback n st) = remote st /\
    console (callback n st) = console st /\
    cachedLookupFields (callback n st) = cachedLookupFields st /\
    currentCoKey (callback n st) = currentCoKey st.

(** [advanced st exchanges srv' st']: from [st] to [st'] the network log
    gained [exchanges], the remote state became [srv'], and neither the
    console nor the discovery cache nor the selected key changed. *)
Definition advanced (st : State Srv) (exchanges : list (value * (value + value)))
  (srv' : Srv) (st' : State Srv) : Prop :=
  network st' = network st ++ exchanges /\
  remote st' = srv' /\
  console st' = console st /\
  cachedLookupFields st' = cachedLookupFields st /\
  currentCoKey st' = currentCoKey st.

(** [quiet st st']: the network log only grew, and neither the discovery
    cache nor the selected key changed. *)
Definition quiet (st st' : State Srv) : Prop :=
  (exists exchanges, network st' = network st ++ exchanges) /\
  cachedLookupFields st' = cachedLookupFields st /\
  currentCoKey st' = currentCoKey st.

(** A computation all of whose runs are quiet. *)
Definition quiet_computation {A} (m : M Srv A) : Prop :=
  forall st out st', m st = (out, st') -> quiet st st'.

(** The exchanges of a run: what the network log gained. *)
Definition new_exchanges (st st' : State Srv) : list (value * (value + value)) :=
  drop (length (network st)) (network st').

End App.

Notation "'let*' x ':=' e 'in' k" := (bind e (fun x => k))
  (at level 10, x name, e at level 200, k at level 200) : js_scope.

(** ** Concrete services used to run the functions *)

(** The state in which the script starts: every global is [null], the
    loader is on screen. *)
Definition initial_state {Srv} (srv : Srv) : State Srv :=
  mkState VNull VNull VNull VNull "loader" "" [] [] [] [] [] srv.

(** A stateless service that answers GET requests from a table of URLs and
    rejects everything else. *)
Definition table_server (table : list (string * (value + value)))
  (req : value) (srv : unit) : (value + value) * unit :=
  match req with
  | VStr url =>
      match List.find (fun entry => String.eqb (fst entry) url) table with
      | Some (_, reply) => (reply, tt)
      | None => (inr (VStr "404"), tt)
      end
  | _ => (inr (VStr "400"), tt)
  end.

(** A service whose state counts the deletions it performed; every request
    is resolved with an empty object. *)
Definition counting_server (req : value) (deleted : nat) : (value + value) * nat :=
  if is_delete req then (inl (VObj []), S deleted) else (inl (VObj []), deleted).

(** Two pages of ticket fields; the request for the second page fails. *)
Definition broken_second_page : list (string * (value + value)) :=
  [("/api/v2/ticket_fields.json",
    inl (VObj [("ticket_fields", VArr [VObj [("id", VNum 1)]; VObj [("id", VNum 2)]]);
               ("next_page", VStr "/api/v2/ticket_fields.json?page=2")]));
   ("/api/v2/ticket_fields.json?page=2", inr (VStr "503"))].

(** Three pages linked by cursors; the middle one carries no data key. *)
Definition three_pages : list (string * (value + value)) :=
  [("/records",
    inl (VObj [("custom_object_records", VArr [VNum 1; VNum 2]);
               ("meta", VObj [("has_more", VBool true)]);
               ("links", VObj [("next", VStr "/records?cursor=a")])]));
   ("/records?cursor=a",
    inl (VObj [("meta", VObj [("has_more", VBool true)]);
               ("links", VObj [("next", VStr "/records?cursor=b")])]));
   ("/records?cursor=b",
    inl (VObj [("custom_object_records", VArr [VNum 3]);
               ("meta", VObj [("has_more", VBool false)]);
               ("links", VObj [("next", VNull)])]))].

(** An account in which one ticket field and one field of the custom object
    [garage] are lookups to the custom object [car]; the organization fields
    cannot be read. *)
Definition relations : list (string * (value + value)) :=
  [("/api/v2/ticket_fields.json",
    inl (VObj [("ticket_fields",
                VArr [VObj [("id", VNum 11); ("title", VStr "Car"); ("type", VStr "lookup");
                            ("relationship_target_type", VStr "zen:custom_object:car")];
                      VObj [("id", VNum 12); ("title", VStr "Priority"); ("type", VStr "dropdown")]])]));
   ("/api/v2/user_fields.json", inl (VObj [("user_fields", VArr [])]));
   ("/api/v2/organization_fields.json", inr (VStr "500"));
   ("/api/v2/custom_objects.json",
    inl (VObj [("custom_objects",
                VArr [VObj [("key", VStr "car"); ("title_pluralized", VStr "Cars")];
                      VObj [("key", VStr "garage"); ("title_pluralized", VStr "Garages")]])]));
   ("/api/v2/custom_objects/car/fields.json", inl (VObj [("custom_object_fields", VArr [])]));
   ("/api/v2/custom_objects/garage/fields.json",
    inl (VObj [("custom_object_fields",
                VArr [VObj [("key", VStr "parked"); ("title", VStr "Parked car");
                            ("type", VStr "lookup");
                            ("relationship_target_type", VStr "zen:custom_object:car")]])]))].

(** The state after the object [car] was selected. *)
Definition car_selected {Srv} (srv : Srv) : State Srv :=
  mkState (VStr "car") (VStr "Cars") VNull VNull "table" "" [] [] [] [] [] srv.

(** Users found by the autocomplete endpoint, one of them suspended and one
    inactive; and the single user 7. *)
Definition directory : list (string * (value + value)) :=
  [("/api/v2/users/autocomplete.json?name=a",
    inl (VObj [("users",
                VArr [VObj [("id", VNum 7); ("name", VStr "Ada")];
                      VObj [("id", VNum 8); ("name", VStr "Alan"); ("suspended", VBool true)];
                      VObj [("id", VNum 9); ("name", VStr "Anna"); ("active", VBool false)];
                      VObj [("id", VNum 10); ("name", VStr "")]])]));
   ("/api/v2/users/7.json", inl (VObj [("user", VObj [("id", VNum 7); ("name", VStr "Ada")])]))].

(** A service that answers with a number where the name of user 7 should
    be. *)
Definition numbered_user : list (string * (value + value)) :=
  [("/api/v2/users/7.json", inl (VObj [("user", VObj [("id", VNum 7); ("name", VNum 5)])]))].

End Dashboard.

(* ===================================================================== *)
(** * The dashboard application: the remaining handlers of main.js *)
(* ===================================================================== *)

Module Views.
Import JS Dashboard.
Local Open Scope js_scope.

(** ** Vocabulary for statements about relationship discovery *)

(** [x] is an item that one of the responses among [exchanges] lists under
    [dataKey]. *)
Definition listed (dataKey : string) (exchanges : list (value * (value + value)))
  (x : value) : Prop :=
  exists req response,
    In (req, inl response) exchanges /\ In x (page_items dataKey response).

(** [x] is what the discovery pushes for a field definition [f] that a
    response among [exchanges] lists under [dataKey] and that passes the
    test of lines 533, 542, 551 and 563: its type is [lookup] and its
    [relationship_target_type] is [target]. *)
Definition built_from (target : string) (entry : value -> result value) (dataKey : string)
  (exchanges : list (value * (value + value))) (x : value) : Prop :=
  exists f,
    listed dataKey exchanges f
    /\ points_to target f = Val true
    /\ entry f = Val x.

(** The same for a field of a custom object: the object is one that a
    response among [exchanges] lists under [custom_objects]. *)
Definition built_from_object (target : string) (exchanges : list (value * (value + value)))
  (x : value) : Prop :=
  exists obj,
    listed "custom_objects" exchanges obj
    /\ built_from target (co_field_entry obj) "custom_object_fields" exchanges x.

(** The relation type of the selected object, as the discovery computes it. *)
Definition current_target {Srv} (st : State Srv) : string :=
  "zen:custom_object:" +:+ to_string (currentCoKey st).

(** ** Column layout

    The pass at the end of [loadTable] that decides which columns start
    visible, and the listener of the "restore columns" button, which
    computes the selection again from the column definitions of the table.
    Both read [col.field], [col.width] and [col.minWidth] of column
    definitions that [loadTable] built itself. *)

(** [document.getElementById('table-view').clientWidth || window.innerWidth]
    less the 40 pixels of padding. *)
Definition available_width (clientWidth innerWidth : Z) : Z :=
  (if (clientWidth =? 0)%Z then innerWidth else clientWidth) - 40.

(** [col.field === 'actions' || col.field === 'custom_rownum']. *)
Definition is_fixed_column (field : value) : bool :=
  is_str field "actions" || is_str field "custom_rownum".

(** [col.field] of a column definition; [None] when [col] is [null] or
    [undefined], which no column built by [loadTable] is. *)
Definition column_field (col : value) : option value :=
  match get col "field" with
  | Val field => Some field
  | Exn _ => None
  end.

(** [col.width || col.minWidth || 150].  The widths [loadTable] sets are
    numbers; [None] stands for any other value, which does not occur. *)
Definition column_width (col : value) : option Z :=
  match get col "width", get col "minWidth" with
  | Val width, Val minWidth =>
      match js_or (js_or width minWidth) (VNum 150) with
      | VNum colW => Some colW
      | _ => None
      end
  | _, _ => None
  end.

(** [columns.forEach(col => ...)] of [loadTable]: the value given to
    [col.visible] for each column in turn, and [defaultVisibleCols] at the
    end.  [usedWidth] starts at 190, the room of the two fixed columns. *)
Fixpoint assign_visibility (availableWidth usedWidth : Z) (defaultVisibleCols : list value)
  (columns : list value) : option (list bool * list value) :=
  match columns with
  | [] => Some ([], defaultVisibleCols)
  | col :: rest =>
      field ← column_field col;
      if is_fixed_column field then
        '(visible, defaults) ← assign_visibility availableWidth usedWidth defaultVisibleCols rest;
        Some (true :: visible, defaults)
      else
        colW ← column_width col;
        if (usedWidth + colW <=? availableWidth)%Z || (length defaultVisibleCols <? 2)%nat then
          '(visible, defaults) ←
            assign_visibility availableWidth (usedWidth + colW)%Z
              (defaultVisibleCols ++ [field]) rest;
          Some (true :: visible, defaults)
        else
          '(visible, defaults) ← assign_visibility availableWidth usedWidth defaultVisibleCols rest;
          Some (false :: visible, defaults)
  end.

Definition initial_layout (clientWidth innerWidth : Z) (columns : list value)
  : option (list bool * list value) :=
  assign_visibility (available_width clientWidth innerWidth) 190 [] columns.

(** The options written into the column selector: field, title and whether
    the option is selected, for every column that can be hidden. *)
Fixpoint column_options (columns : list value) (visible : list bool)
  : list (value * value * bool) :=
  match columns, visible with
  | col :: columns', shown :: visible' =>
      match get col "field", get col "title" with
      | Val field, Val title =>
          if is_fixed_column field then column_options columns' visible'
          else (field, title, shown) :: column_options columns' visible'
      | _, _ => column_options columns' visible'
      end
  | _, _ => []
  end.

(** [tableCols.forEach(col => ...)] in the listener of the restore button,
    reached once the guard on [currentSchema], the column selector and the
    table has passed: the list handed to [columnSelectorTS.setValue]. *)
Fixpoint restore_defaults (availableWidth usedWidth : Z) (defaultVisible : list value)
  (tableCols : list value) : option (list value) :=
  match tableCols with
  | [] => Some defaultVisible
  | col :: rest =>
      field ← column_field col;
      if is_fixed_column field then
        restore_defaults availableWidth usedWidth defaultVisible rest
      else
        colW ← column_width col;
        if (usedWidth + colW <=? availableWidth)%Z || (length defaultVisible <? 2)%nat then
          restore_defaults availableWidth (usedWidth + colW)%Z (defaultVisible ++ [field]) rest
        else
          restore_defaults availableWidth usedWidth defaultVisible rest
  end.

Definition restore_columns_click (clientWidth innerWidth : Z) (tableCols : list value)
  : option (list value) :=
  restore_defaults (available_width clientWidth innerWidth) 190 [] tableCols.

(** The columns [loadTable] gives to the table for a schema. *)
Definition table_columns (columns : list value) : list value :=
  fixed_columns_before ++ columns ++ fixed_columns_after.

(** Room taken by the columns marked visible, the two fixed ones apart: the
    sum of what the pass adds to [usedWidth]. *)
Fixpoint shown_width (columns : list value) (visible : list bool) : Z :=
  match columns, visible with
  | col :: columns', shown :: visible' =>
      match column_field col, column_width col with
      | Some field, Some colW =>
          if is_fixed_column field || negb shown then shown_width columns' visible'
          else (colW + shown_width columns' visible')%Z
      | _, _ => shown_width columns' visible'
      end
  | _, _ => 0%Z
  end.

(** Width of all the columns that can be hidden. *)
Definition full_width (columns : list value) : Z :=
  shown_width columns (repeat true (length columns)).

(** A column definition the passes can measure, with a positive width. *)
Definition layout_column (col : value) : Prop :=
  exists field colW,
    column_field col = Some field /\ column_width col = Some colW /\ (0 < colW)%Z.

(** ** Helpers shared by the handlers below *)

(** [arr.forEach(f)] / [arr.map(f)] collecting what [f] produces; the first
    exception ends the iteration. *)
Fixpoint each {A} (f : value -> result A) (l : list value) : result (list A) :=
  match l with
  | [] => Val []
  | x :: rest =>
      let! y := f x in
      let! rest' := each f rest in
      Val (y :: rest')
  end.

(** [obj[k] = v] on an object made by [{}].  An existing property keeps its
    place, a new one goes last.  The one name that is not a property of its
    own is [__proto__]: it is the accessor of [Object.prototype], whose
    setter changes the prototype when given an object or [null] and does
    nothing otherwise, so the assignment adds no property in either case. *)
Fixpoint own_set (k : string) (v : value) (props : list (string * value))
  : list (string * value) :=
  match props with
  | [] => [(k, v)]
  | (k', v') :: rest =>
      if String.eqb k k' then (k, v) :: rest else (k', v') :: own_set k v rest
  end.

Definition obj_set (k : string) (v : value) (props : list (string * value))
  : list (string * value) :=
  if String.eqb k "__proto__" then props else own_set k v props.

(** What a failed computation is reported as by [console.error(error)]. *)
Definition exn_text (e : exn) : string :=
  match e with
  | TypeError msg => msg
  | Rejected reason => to_string reason
  end.

(** ** [renderObjectSelector]

    The [option] elements written into the markup of the selector after the
    placeholder, as pairs of the [value] attribute and the text, in the
    order in which lines 110-112 append them.  The model ends with this
    markup.  The widget that lines 122-125 then build on it is configured
    with [sortField] on the text, ascending, so the order in which the
    options are displayed is the widget's and is not described here;
    replacing the widget and attaching the click handler to the button
    just rendered are taken not to fail. *)
Definition selector_option (obj : value) : result (string * string) :=
  let! key := get obj "key" in
  let! title_pluralized := get obj "title_pluralized" in
  Val (to_string key, to_string title_pluralized).

Definition renderObjectSelector (objects : value) : result (list (string * string)) :=
  match objects with
  | VArr objs => each selector_option objs
  | _ => Exn (TypeError "objects.forEach is not a function")
  end.

(** What the [try] block of [startApp] computes from the response. *)
Definition selector_of_response (response : value) : result (list (string * string)) :=
  let! customObjects := get response "custom_objects" in
  renderObjectSelector customObjects.

(** ** The submitted form

    What [handleFormSubmit] reads from the event: the entries of
    [new FormData(form)] in document order, and the [input] elements of the
    form with their name and whether they are checked. *)
Record FormInput : Type := mkFormInput {
  form_data : list (string * string);
  form_inputs : list (string * bool)
}.

(** [formData.get(name)]: the first entry of that name, or [null]. *)
Definition formData_get (name : string) (form : FormInput) : value :=
  match List.find (fun entry => String.eqb (fst entry) name) (form_data form) with
  | Some (_, v) => VStr v
  | None => VNull
  end.

(** [checkboxEl ? checkboxEl.checked : false] for the first [input] of that
    name; the key is taken to make a well-formed selector. *)
Definition checkbox_checked (name : string) (form : FormInput) : bool :=
  match List.find (fun input => String.eqb (fst input) name) (form_inputs form) with
  | Some (_, checked) => checked
  | None => false
  end.

(** The callback of [currentSchema.forEach] in [handleFormSubmit]. *)
Definition collect_field (form : FormInput) (customObjectFields : list (string * value))
  (field : value) : result (list (string * value)) :=
  let! type := get field "type" in
  let! key := get field "key" in
  if is_str type "checkbox" then
    Val (obj_set (to_string key) (VBool (checkbox_checked (to_string key) form))
           customObjectFields)
  else
    match formData_get (to_string key) form with
    | VNull => Val customObjectFields
    | val => Val (obj_set (to_string key) val customObjectFields)
    end.

Fixpoint collect_fields_from (form : FormInput) (customObjectFields : list (string * value))
  (fields : list value) : result (list (string * value)) :=
  match fields with
  | [] => Val customObjectFields
  | field :: rest =>
      let! customObjectFields' := collect_field form customObjectFields field in
      collect_fields_from form customObjectFields' rest
  end.

Definition collect_fields (form : FormInput) (schema : value)
  : result (list (string * value)) :=
  match schema with
  | VArr fields => collect_fields_from form [] fields
  | _ => Exn (TypeError "currentSchema.forEach is not a function")
  end.

Definition record_payload (recordName : value) (customObjectFields : list (string * value))
  : value :=
  VObj [("custom_object_record",
         VObj [("name", recordName); ("custom_object_fields", VObj customObjectFields)])].

(** The request that saves a record: an update when the hidden [record_id]
    is anything but the empty string, a creation otherwise.  [data] holds
    the payload itself, which stands for its JSON text. *)
Definition save_request (coKey recordId payload : value) : value :=
  let isEdit := negb (is_str recordId "") in
  VObj [("url",
         VStr (if isEdit
               then "/api/v2/custom_objects/" +:+ to_string coKey +:+ "/records/"
                    +:+ to_string recordId
               else "/api/v2/custom_objects/" +:+ to_string coKey +:+ "/records"));
        ("type", VStr (if isEdit then "PATCH" else "POST"));
        ("contentType", VStr "application/json");
        ("data", payload)].

(** The message line of the form and the state of its submit button. *)
Record FormStatus : Type := mkFormStatus {
  formMsg : string;
  submitDisabled : bool
}.

Definition saving : FormStatus :=
  mkFormStatus "<span style='color: #1f73b7; font-weight: bold;'>Saving...</span>" true.

Definition save_failed : FormStatus :=
  mkFormStatus "<span style='color: red;'>Failed to save record. Check console.</span>" false.

Section Handlers.
Context {Srv : Type}.
Variable serve : value -> Srv -> (value + value) * Srv.

(** ** [startApp]

    The result is the list of options when the selector was rendered, and
    [None] when it was left as it was. *)
Definition startApp : M Srv (option (list (string * string))) :=
  let* _ := modify (updateLoaderText "Loading Custom Objects...") in
  let* _ := modify (switchView "loader") in
  try_catch
    (let* response := request serve (VStr "/api/v2/custom_objects") in
     let* options := lift (selector_of_response response) in
     let* _ := modify (switchView "selector") in
     ret (Some options))
    (fun error =>
       let* _ := modify (updateLoaderText
                           "Error loading Custom Objects. Check your permissions.") in
       let* _ := modify (console_log "error" (exn_text error)) in
       ret None).

(** ** [handleFormSubmit]

    The result is what the form shows when the handler ends. *)
Definition handleFormSubmit (fuel : nat) (form : FormInput) : M Srv FormStatus :=
  let recordName := js_or (formData_get "name" form) (VStr "New Record") in
  let recordId := formData_get "record_id" form in
  let* schema := gets currentSchema in
  let* customObjectFields := lift (collect_fields form schema) in
  let payload := record_payload recordName customObjectFields in
  try_catch
    (let* key := gets currentCoKey in
     let* _ := request serve (save_request key recordId payload) in
     let* key' := gets currentCoKey in
     let* _ := loadTable serve fuel key' in
     ret saving)
    (fun error =>
       let* _ := modify (console_log "error" "Save Error:") in
       ret save_failed).

End Handlers.

(** ** Vocabulary for statements about the payload *)

(** The name under which a schema field travels: its key as text. *)
Definition field_name (field : value) : string :=
  match get field "key" with
  | Val key => to_string key
  | Exn _ => ""
  end.

Definition is_checkbox (field : value) : bool :=
  match get field "type" with
  | Val type => is_str type "checkbox"
  | Exn _ => false
  end.

(** ** More of the language *)

(** [v.length]: arrays and strings have one of their own (for a string,
    the number of bytes stands for the number of code units); any other
    value is read like an object. *)
Definition js_length (v : value) : result value :=
  match v with
  | VArr items => Val (VNum (Z.of_nat (length items)))
  | VStr s => Val (VNum (Z.of_nat (String.length s)))
  | _ => get v "length"
  end.

(** [v === 0] and [v > 0] for what stands where a length is expected: a
    number, or [undefined], which compares false. *)
Definition is_zero (v : value) : bool :=
  match v with VNum n => (n =? 0)%Z | _ => false end.

Definition positive (v : value) : bool :=
  match v with VNum n => (0 <? n)%Z | _ => false end.

(** The values [for (const x of v)] goes through: the elements of an array,
    the characters of a string; nothing else that the program holds can be
    iterated. *)
Definition iterate (v : value) : result (list value) :=
  match v with
  | VArr items => Val items
  | VStr s => Val (map (fun c => VStr (String c EmptyString)) (list_ascii_of_string s))
  | _ => Exn (TypeError (to_string v +:+ " is not iterable"))
  end.

(** ** [loadRelatedRecords]: the pure parts

    The markup written into the tab is kept as the sequence of the pieces
    the function appends to [html]. *)
Inductive Fragment : Type :=
| SectionOpen (label title : string)
| Item (nameText id : string)
| MoreNote
| SectionClose.

(** What the tab shows when the function ends. *)
Inductive RelatedTab : Type :=
| NoLookupFields
| NothingLinked
| Sections (html : list Fragment).

(** The endpoint asked for one lookup field. *)
Definition related_endpoint (coKey recordId field : value) : result string :=
  let! id := get field "id" in
  let! type := get field "type" in
  Val ("/api/v2/zen:custom_object:" +:+ to_string coKey +:+ "/" +:+ to_string recordId
       +:+ "/relationship_fields/" +:+ to_string id +:+ "/" +:+ to_string type).

(** The if / else-if chain that picks [dataKey] and [displayField]; the
    last test calls [startsWith] on the type. *)
Definition related_route (type : value) : result (string * string) :=
  if is_str type "zen:ticket" then Val ("tickets", "subject")
  else if is_str type "zen:user" then Val ("users", "name")
  else if is_str type "zen:organization" then Val ("organizations", "name")
  else match type with
       | VStr s =>
           if String.prefix "zen:custom_object:" s
           then Val ("custom_object_records", "name")
           else Val ("", "name")
       | VUndefined =>
           Exn (TypeError "Cannot read properties of undefined (reading 'startsWith')")
       | VNull => Exn (TypeError "Cannot read properties of null (reading 'startsWith')")
       | _ => Exn (TypeError "field.type.startsWith is not a function")
       end.

Section Related.
Context {Srv : Type}.
Variable serve : value -> Srv -> (value + value) * Srv.

(** [String.prototype.trim], left to the environment. *)
Variable trim : string -> string.

(** The callback of [records.forEach]: the list item appended for [r]. *)
Definition related_item (displayField : string) (r : value) : result Fragment :=
  let! shown := get r displayField in
  let! nameText :=
    or_else shown
      (let! title := get r "title" in
       or_else title
         (let! id := get r "id" in Val (VStr ("Record #" +:+ to_string id)))) in
  match nameText with
  | VStr s =>
      let! id := get r "id" in
      Val (Item (if String.eqb (trim s) "" then "[No Name] Record #" +:+ to_string id else s)
                (to_string id))
  | _ => Exn (TypeError "nameText.trim is not a function")
  end.

(** [records.forEach(r => { ... html += ... })]: [html] keeps what was
    appended before an exception. *)
Fixpoint related_items (displayField : string) (records : list value) (html : list Fragment)
  : list Fragment * option exn :=
  match records with
  | [] => (html, None)
  | r :: rest =>
      match related_item displayField r with
      | Val item => related_items displayField rest (html ++ [item])
      | Exn e => (html, Some e)
      end
  end.

(** The [try] block of the loop once the response is there: [html] and
    [foundAny] as it leaves them, and the exception that ended it, if any. *)
Definition related_section (field response : value) (html : list Fragment) (foundAny : bool)
  : (list Fragment * bool) * option exn :=
  match (let! type := get field "type" in related_route type) with
  | Exn e => ((html, foundAny), Some e)
  | Val (dataKey, displayField) =>
      match (let! raw := get response dataKey in
             let records := js_or raw (VArr []) in
             let! len := js_length records in
             Val (records, len)) with
      | Exn e => ((html, foundAny), Some e)
      | Val (records, len) =>
          if positive len then
            match (let! label := get field "label" in
                   let! title := get field "title" in
                   Val (SectionOpen (to_string label) (to_string title))) with
            | Exn e => ((html, true), Some e)
            | Val opening =>
                match records with
                | VArr items =>
                    match related_items displayField items (html ++ [opening]) with
                    | (html', Some e) => ((html', true), Some e)
                    | (html', None) =>
                        match (let! meta := get response "meta" in
                               and_then meta (get meta "has_more")) with
                        | Exn e => ((html', true), Some e)
                        | Val more =>
                            (((if truthy more then html' ++ [MoreNote] else html')
                              ++ [SectionClose], true), None)
                        end
                    end
                | _ =>
                    ((html ++ [opening], true),
                     Some (TypeError "records.forEach is not a function"))
                end
            end
          else ((html, foundAny), None)
      end
  end.

(** One pass through [for (const field of fields)]: the endpoint is built
    outside the [try], the request and the rendering run inside it. *)
Definition related_step (recordId field : value) (html : list Fragment) (foundAny : bool)
  : M Srv (list Fragment * bool) :=
  let* key := gets currentCoKey in
  let* endpoint := lift (related_endpoint key recordId field) in
  fun st =>
    let warned (st : State Srv) :=
      match get field "id" with
      | Val id =>
          console_log "warn" ("Failed to fetch related records for field " +:+ to_string id) st
      | Exn _ => st
      end in
    match client_request serve (VStr endpoint) st with
    | (inl response, st1) =>
        match related_section field response html foundAny with
        | (acc, None) => (Returns acc, st1)
        | (acc, Some _) => (Returns acc, warned st1)
        end
    | (inr _, st1) => (Returns (html, foundAny), warned st1)
    end.

Fixpoint related_loop (recordId : value) (fields : list value) (html : list Fragment)
  (foundAny : bool) : M Srv (list Fragment * bool) :=
  match fields with
  | [] => ret (html, foundAny)
  | field :: rest =>
      let* acc := related_step recordId field html foundAny in
      related_loop recordId rest (fst acc) (snd acc)
  end.

Definition loadRelatedRecords (fuel : nat) (recordId : value) : M Srv RelatedTab :=
  let* fields := getLookupFieldsForCurrentCo serve fuel in
  let* len := lift (js_length fields) in
  if is_zero len then ret NoLookupFields
  else
    let* items := lift (iterate fields) in
    let* acc := related_loop recordId items [] false in
    ret (if snd acc then Sections (fst acc) else NothingLinked).

End Related.

(** ** [showForm]: the pure parts

    The markup of the form is kept as a structure: one widget per schema
    field, with the texts the template literals put into it. *)

(** [a === b].  Two objects or two arrays met here never are the same
    object: one comes from the row, the other from the schema. *)
Definition strict_eq (a b : value) : bool :=
  match a, b with
  | VUndefined, VUndefined | VNull, VNull => true
  | VBool x, VBool y => Bool.eqb x y
  | VNum x, VNum y => (x =? y)%Z
  | VStr x, VStr y => String.eqb x y
  | _, _ => false
  end.

(** [v !== null && v !== undefined]. *)
Definition present (v : value) : bool :=
  match v with
  | VNull | VUndefined => false
  | _ => true
  end.

Inductive Widget : Type :=
| TextInput (title name value required : string)
| TextArea (title name required value : string)
| NumberInput (title step name value required : string)
| DateInput (title name value required : string)
| Checkbox (title name : string) (checked : bool)
| Dropdown (title name required : string) (options : list (string * string * bool))
| LookupSelect (title selectId name required : string) (selected : option (string * string))
| OtherInput (title name value type : string).

Record Form : Type := mkForm {
  form_title : string;
  form_tabs : bool;
  form_record_id : string;
  form_submit : string;
  form_record_name : string;
  form_widgets : list Widget;
  form_lookups : list (string * value)
}.

(** What [views.form] holds when [showForm] ends. *)
Inductive FormView : Type :=
| FormBuilt (form : Form)
| FormError.

(** [fieldValue] for one field of the schema. *)
Definition form_field_value (isEdit : bool) (existingRecord field : value) : result value :=
  if isEdit then
    let! key := get field "key" in
    let! stored := get existingRecord (to_string key) in
    if present stored then Val stored else Val (VStr "")
  else Val (VStr "").

(** The callback of [field.custom_field_options.forEach]: the option
    appended for [opt], if any, as value, text and whether it is selected. *)
Definition dropdown_option (fieldValue opt : value) : result (option (string * string * bool)) :=
  let! active := get opt "active" in
  let! value := get opt "value" in
  if negb (is_false active) || strict_eq fieldValue value then
    let! name := get opt "name" in
    Val (Some (to_string value, to_string name, strict_eq fieldValue value))
  else Val None.

Fixpoint dropdown_options_from (fieldValue : value) (opts : list value)
  : result (list (string * string * bool)) :=
  match opts with
  | [] => Val []
  | opt :: rest =>
      let! offered := dropdown_option fieldValue opt in
      let! rest' := dropdown_options_from fieldValue rest in
      Val (match offered with Some o => o :: rest' | None => rest' end)
  end.

(** [if (field.custom_field_options) field.custom_field_options.forEach(...)]. *)
Definition dropdown_options (fieldValue custom_field_options : value)
  : result (list (string * string * bool)) :=
  if truthy custom_field_options then
    match custom_field_options with
    | VArr opts => dropdown_options_from fieldValue opts
    | _ => Exn (TypeError "field.custom_field_options.forEach is not a function")
    end
  else Val [].

Section Form.
Context {Srv : Type}.
Variable serve : value -> Srv -> (value + value) * Srv.

(** The body of [for (const field of currentSchema)]: the widget appended
    to the form, and the entry pushed onto [lookupFieldIds], if any. *)
Definition form_widget (isEdit : bool) (existingRecord field : value)
  : M Srv (Widget * option (string * value)) :=
  let* fieldValue := lift (form_field_value isEdit existingRecord field) in
  let* type := lift (get field "type") in
  let* title := lift (get field "title") in
  let* key := lift (get field "key") in
  let* required := lift (get field "required") in
  let title := to_string title in
  let name := to_string key in
  let required := to_string required in
  if is_str type "text" then
    ret (TextInput title name (to_string fieldValue) required, None)
  else if is_str type "textarea" then
    ret (TextArea title name required (to_string fieldValue), None)
  else if is_str type "integer" then
    ret (NumberInput title "1" name (to_string fieldValue) required, None)
  else if is_str type "decimal" then
    ret (NumberInput title "any" name (to_string fieldValue) required, None)
  else if is_str type "date" then
    let dateVal :=
      if truthy fieldValue then String.substring 0 10 (to_string fieldValue) else "" in
    ret (DateInput title name dateVal required, None)
  else if is_str type "checkbox" then
    ret (Checkbox title name (is_true fieldValue || is_str fieldValue "true"), None)
  else if is_str type "dropdown" then
    let* custom_field_options := lift (get field "custom_field_options") in
    let* options := lift (dropdown_options fieldValue custom_field_options) in
    ret (Dropdown title name required options, None)
  else if is_str type "lookup" then
    let selectId := "lookup-" +:+ name in
    let* target := lift (get field "relationship_target_type") in
    let* initialLabel :=
      if truthy fieldValue then fetchSingleRecordName_call serve target fieldValue
      else ret (VStr ("Record " +:+ to_string fieldValue)) in
    ret (LookupSelect title selectId name required
           (if truthy fieldValue
            then Some (to_string fieldValue, to_string initialLabel)
            else None),
         Some (selectId, target))
  else
    ret (OtherInput title name (to_string fieldValue) (to_string type), None).

Fixpoint form_widgets_from (isEdit : bool) (existingRecord : value) (fields : list value)
  : M Srv (list Widget * list (string * value)) :=
  match fields with
  | [] => ret ([], [])
  | field :: rest =>
      let* built := form_widget isEdit existingRecord field in
      let* built' := form_widgets_from isEdit existingRecord rest in
      ret (fst built :: fst built',
           match snd built with
           | Some lookup => lookup :: snd built'
           | None => snd built'
           end)
  end.

(** [showForm(existingRecord = null)]: a call without a record, or with
    [undefined], is a call with [null].  Once the markup is written and the
    form view is on screen, attaching the widgets and the listeners to the
    elements just rendered is taken not to fail. *)
Definition showForm (existingRecord : value) : M Srv FormView :=
  let existingRecord :=
    match existingRecord with
    | VUndefined => VNull
    | record => record
    end in
  let* _ := modify (updateLoaderText "Building form...") in
  let* _ := modify (switchView "loader") in
  let isEdit := match existingRecord with VNull => false | _ => true end in
  let* key := gets currentCoKey in
  let* formTitle :=
    lift (if isEdit
          then let! id := get existingRecord "id" in Val ("Edit Record " +:+ to_string id)
          else Val ("Create new " +:+ to_string key +:+ " record")) in
  try_catch
    (let* existingName :=
       lift (if isEdit
             then let! name := get existingRecord "name" in
                  Val (if present name then name else VStr "")
             else Val (VStr "")) in
     let* record_id :=
       lift (if isEdit
             then let! id := get existingRecord "id" in Val (to_string id)
             else Val "") in
     let* schema := gets currentSchema in
     let* fields := lift (iterate schema) in
     let* built := form_widgets_from isEdit existingRecord fields in
     let* _ := modify (switchView "form") in
     ret (FormBuilt
            (mkForm formTitle isEdit record_id
               (if isEdit then "Update Record" else "Save Record")
               (to_string existingName) (fst built) (snd built))))
    (fun error =>
       let* _ := modify (console_log "error" (exn_text error)) in
       ret FormError).

(** ** Vocabulary for statements about the form *)

(** A schema field of type [lookup]. *)
Definition is_lookup_field (field : value) : bool :=
  match get field "type" with
  | Val type => is_str type "lookup"
  | Exn _ => false
  end.

(** [calm n st st']: from [st] to [st'] at most [n] requests were sent,
    and neither the view, nor the loader text, nor the console, nor the
    schema changed. *)
Definition calm (n : nat) (st st' : State Srv) : Prop :=
  (exists exchanges, network st' = network st ++ exchanges /\ length exchanges <= n)
  /\ activeView st' = activeView st
  /\ loaderText st' = loaderText st
  /\ console st' = console st
  /\ currentSchema st' = currentSchema st.

End Form.

(** ** [customFilter]

    The filter the search box gives to the table: called with the data of
    a row and the search term. *)

(** [haystack.includes(needle)]. *)
Fixpoint includes (needle haystack : string) : bool :=
  String.prefix needle haystack
  || match haystack with
     | EmptyString => false
     | String _ rest => includes needle rest
     end.

Section Search.

(** [String.prototype.toLowerCase], left to the environment. *)
Variable toLowerCase : string -> string.

(** The test in the body of [for (let key in data)] for one value. *)
Definition cell_matches (filterParams : string) (v : value) : bool :=
  includes (toLowerCase filterParams) (toLowerCase (to_string v)).

(** [for (let key in data)] visits the properties of an object and the
    elements of an array; [data[key]] is read again for each key; there is
    nothing to visit in any other value a row can be. *)
Definition customFilter (data : value) (filterParams : string) : bool :=
  match data with
  | VObj props =>
      existsb (fun prop => cell_matches filterParams (default VUndefined (assoc (fst prop) props)))
        props
  | VArr items => existsb (cell_matches filterParams) items
  | _ => false
  end.

End Search.

(** ** Example services, accounts and states *)

(** A service whose every response names a further page. *)
Definition endless_server (req : value) (srv : unit) : (value + value) * unit :=
  (inl (VObj [("custom_object_records", VArr [VNum 1]); ("next_page", VStr "/again")]), tt).

(** A service that is down: every request is rejected. *)
Definition outage_server (req : value) (srv : unit) : (value + value) * unit :=
  (inr (VStr "503"), tt).

(** The object [car] with a two-field schema and one page of records whose
    link to the following page leads nowhere. *)
Definition car_records_url : string := "/api/v2/custom_objects/car/records?page[size]=100".

Definition car_first_page : value :=
  VObj [("custom_object_records",
         VArr [VObj [("id", VStr "r1"); ("name", VStr "Beetle");
                     ("custom_object_fields", VObj [("plate", VStr "AB-1")])]]);
        ("meta", VObj [("has_more", VBool true)]);
        ("links", VObj [("next", VStr "/api/v2/custom_objects/car/records?cursor=x")])].

Definition car_schema : value :=
  VArr [VObj [("key", VStr "plate"); ("title", VStr "Plate"); ("type", VStr "text")];
        VObj [("key", VStr "sold"); ("title", VStr "Sold"); ("type", VStr "checkbox")]].

Definition car_account : list (string * (value + value)) :=
  [("/api/v2/custom_objects/car/fields", inl (VObj [("custom_object_fields", car_schema)]));
   (car_records_url, inl car_first_page)].

(** A search result in which the service left a hole. *)
Definition holed_directory : list (string * (value + value)) :=
  [("/api/v2/users/autocomplete.json?name=a",
    inl (VObj [("users", VArr [VObj [("id", VNum 7); ("name", VStr "Ada")]; VNull])]))].

(** The column definitions [loadTable] derives from [car_schema]. *)
Definition car_columns : list value :=
  [VObj [("title", VStr "Plate"); ("field", VStr "plate"); ("minWidth", VNum 150)];
   VObj [("title", VStr "Sold"); ("field", VStr "sold"); ("width", VNum 100);
         ("hozAlign", VStr "center"); ("formatter", VStr "tickCross")]].

(** The same account with the second page of records in place. *)
Definition car_second_page : value :=
  VObj [("custom_object_records", VArr [VObj [("id", VStr "r2"); ("name", VStr "Mini")]]);
        ("meta", VObj [("has_more", VBool false)]);
        ("links", VObj [("next", VNull)])].

Definition car_pages : list (string * (value + value)) :=
  car_account
  ++ [("/api/v2/custom_objects/car/records?cursor=x", inl car_second_page)].

(** A form for a new car, and the same form for the record [r1]. *)
Definition new_car_form : FormInput :=
  mkFormInput [("record_id", ""); ("name", "Mini"); ("plate", "XY-9")]
              [("record_id", false); ("name", false); ("plate", false); ("sold", false)].

Definition edit_car_form : FormInput :=
  mkFormInput [("record_id", "r1"); ("name", "Beetle"); ("plate", "AB-1"); ("sold", "true")]
              [("record_id", false); ("name", false); ("plate", false); ("sold", true)].

(** The state in which a form for [car] is on screen. *)
Definition car_form_open {Srv} (srv : Srv) : State Srv :=
  mkState (VStr "car") (VStr "Cars") car_schema VNull "form" "" [] [] [] [] [] srv.


(** The schema of [car] in an account where a checkbox field was given the
    key [__proto__]. *)
Definition inherited_schema : list value :=
  [VObj [("key", VStr "__proto__"); ("title", VStr "Inherited"); ("type", VStr "checkbox")];
   VObj [("key", VStr "plate"); ("title", VStr "Plate"); ("type", VStr "text")];
   VObj [("key", VStr "sold"); ("title", VStr "Sold"); ("type", VStr "checkbox")]].

Definition empty_answer_account : list (string * (value + value)) :=
  [("/api/v2/custom_objects", inl (VObj []))].

(** A [trim] for the plain strings of the examples, which have no blanks
    at either end. *)
Definition no_blanks (s : string) : string := s.

(** The state after the discovery found the two lookups of [relations]. *)
Definition car_related : list value :=
  [VObj [("id", VNum 11); ("title", VStr "Car"); ("type", VStr "zen:ticket");
         ("label", VStr "Tickets")];
   VObj [("id", VStr "parked"); ("title", VStr "Parked car");
         ("type", VStr "zen:custom_object:garage"); ("label", VStr "Garages")]].

Definition car_discovered {Srv} (srv : Srv) : State Srv :=
  mkState (VStr "car") (VStr "Cars") VNull (VArr car_related) "form" "" [] [] [] [] [] srv.

(** Two tickets point to the car [r1]; the garages cannot be asked. *)
Definition car_links : list (string * (value + value)) :=
  [("/api/v2/zen:custom_object:car/r1/relationship_fields/11/zen:ticket",
    inl (VObj [("tickets",
                VArr [VObj [("id", VNum 501); ("subject", VStr "Flat tyre")];
                      VObj [("id", VNum 502)]]);
               ("meta", VObj [("has_more", VBool false)])]))].

(** A schema with a dropdown that has a retired option, and one with a
    lookup to the users. *)
Definition colour_options : list value :=
  [VObj [("value", VStr "red"); ("name", VStr "Red")];
   VObj [("value", VStr "teal"); ("name", VStr "Teal"); ("active", VBool false)];
   VObj [("value", VStr "blue"); ("name", VStr "Blue"); ("active", VBool true)]].

Definition owner_schema : value :=
  VArr [VObj [("key", VStr "colour"); ("title", VStr "Colour"); ("type", VStr "dropdown");
              ("custom_field_options", VArr colour_options)];
        VObj [("key", VStr "owner"); ("title", VStr "Owner"); ("type", VStr "lookup");
              ("relationship_target_type", VStr "zen:user")]].

Definition owner_schema_loaded {Srv} (srv : Srv) : State Srv :=
  mkState (VStr "car") (VStr "Cars") owner_schema VNull "table" "" [] [] [] [] [] srv.

Definition teal_car : value :=
  VObj [("colour", VStr "teal"); ("owner", VNum 7); ("id", VStr "r1"); ("name", VStr "Beetle")].

(** Lower case for the letters of ASCII, which is all the examples use. *)
Definition ascii_lower (c : ascii) : ascii :=
  let n := nat_of_ascii c in
  if (65 <=? n)%nat && (n <=? 90)%nat then ascii_of_nat (n + 32) else c.

Fixpoint ascii_toLowerCase (s : string) : string :=
  match s with
  | EmptyString => EmptyString
  | String c rest => String (ascii_lower c) (ascii_toLowerCase rest)
  end.

Definition beetle_row : value :=
  VObj [("plate", VStr "AB-1"); ("garage", VNull); ("id", VStr "r1"); ("name", VStr "Beetle")].

End Views.

(* ===================================================================== *)
(** * The dashboard application while other handlers run

    An [async] function of main.js gives up control at every
    [await client.request(...)]: until the answer arrives the page goes on
    handling events, and the handlers it runs share the globals with the
    function that waits.  [Dashboard] takes each function from its first
    statement to its last in one piece.  This module repeats the functions
    around the discovery cache with the rest of the page as a parameter,
    [others], which runs at every awaited request, after the request was
    sent and before the function resumes with the answer. *)
(* ===================================================================== *)

Module Async.
Import JS Dashboard.
Local Open Scope js_scope.

Section Handlers.
Context {Srv : Type}.
Variable serve : value -> Srv -> (value + value) * Srv.

(** What the rest of the page does to the program while a request of the
    function at hand is pending: the handlers of the clicks made meanwhile
    and the resumptions of other pending functions, as one update.  It sees
    the network log, which tells it how far the waiting function got. *)
Variable others : State Srv -> State Srv.

(** [await client.request(req)]: the request is sent and answered, the rest
    of the page runs, the function resumes. *)
Definition client_request (req : value) (st : State Srv) : (value + value) * State Srv :=
  let (reply, st') := Dashboard.client_request serve req st in
  (reply, others st').

Definition request (req : value) : M Srv value :=
  fun st => match client_request req st with
            | (inl response, st') => (Returns response, st')
            | (inr reason, st') => (Throws (Rejected reason), st')
            end.

(** ** [fetchAllPages] *)

Definition fetchAllPages_iteration (dataKey : string)
  (progressCallback : option (nat -> State Srv -> State Srv))
  (allRecords : list value) (currentEndpoint : value) (st : State Srv)
  : (list value * value) * State Srv :=
  let caught (allRecords : list value) (st : State Srv) :=
    ((allRecords, VNull),
     console_log "error" ("Error fetching paginated data from " +:+ to_string currentEndpoint +:+ ":") st) in
  match client_request currentEndpoint st with
  | (inl response, st1) =>
      match get response dataKey with
      | Val items =>
          let '(allRecords1, st2) :=
            if truthy items then
              let joined := concat allRecords items in
              (joined, run_callback progressCallback (length joined) st1)
            else (allRecords, st1) in
          match next_link response with
          | Val next => ((allRecords1, next), st2)
          | Exn _ => caught allRecords1 st2
          end
      | Exn _ => caught allRecords st1
      end
  | (inr _, st1) => caught allRecords st1
  end.

Fixpoint fetchAllPages_loop (fuel : nat) (dataKey : string)
  (progressCallback : option (nat -> State Srv -> State Srv))
  (allRecords : list value) (currentEndpoint : value) : M Srv (list value) :=
  fun st =>
    if truthy currentEndpoint then
      match fuel with
      | O => (Diverges, st)
      | S fuel' =>
          let '((allRecords', next), st') :=
            fetchAllPages_iteration dataKey progressCallback allRecords currentEndpoint st in
          fetchAllPages_loop fuel' dataKey progressCallback allRecords' next st'
      end
    else (Returns allRecords, st).

Definition fetchAllPages (fuel : nat) (initialEndpoint : value) (dataKey : string)
  (progressCallback : option (nat -> State Srv -> State Srv)) : M Srv (list value) :=
  fetchAllPages_loop fuel dataKey progressCallback [] initialEndpoint.

(** ** [getLookupFieldsForCurrentCo]

    [target] is computed from [currentCoKey] before the first request and
    the cache is written after the last one (lines 527 and 572); whatever
    [others] did to either in between is not looked at. *)
Definition scan_block (fuel : nat) (endpoint dataKey target : string)
  (entry : value -> result value) (warning : string) (fields : list value)
  : M Srv (list value) :=
  fun st =>
    match fetchAllPages fuel (VStr endpoint) dataKey None st with
    | (Returns records, st1) =>
        match collect_lookups target entry records fields with
        | (fields', None) => (Returns fields', st1)
        | (fields', Some _) => (Returns fields', console_log "warn" warning st1)
        end
    | (Throws _, st1) => (Returns fields, console_log "warn" warning st1)
    | (Diverges, st1) => (Diverges, st1)
    end.

Definition scan_custom_object (fuel : nat) (target : string) (obj : value)
  (fields : list value) : M Srv (list value * option exn) :=
  fun st =>
    let handler (fields : list value) (st : State Srv) :=
      match get obj "key" with
      | Val key =>
          (Returns (fields, None),
           console_log "warn" ("Could not load fields for CO " +:+ to_string key) st)
      | Exn e => (Returns (fields, Some e), st)
      end in
    match get obj "key" with
    | Exn _ => handler fields st
    | Val key =>
        match fetchAllPages fuel
                (VStr ("/api/v2/custom_objects/" +:+ to_string key +:+ "/fields.json"))
                "custom_object_fields" None st with
        | (Returns coFields, st1) =>
            match collect_lookups target (co_field_entry obj) coFields fields with
            | (fields', None) => (Returns (fields', None), st1)
            | (fields', Some _) => handler fields' st1
            end
        | (Throws _, st1) => handler fields st1
        | (Diverges, st1) => (Diverges, st1)
        end
    end.

Fixpoint scan_custom_objects (fuel : nat) (target : string) (objs : list value)
  (fields : list value) : M Srv (list value * option exn) :=
  match objs with
  | [] => ret (fields, None)
  | obj :: rest =>
      fun st =>
        match scan_custom_object fuel target obj fields st with
        | (Returns (fields', None), st1) => scan_custom_objects fuel target rest fields' st1
        | other => other
        end
  end.

Definition scan_all_custom_objects (fuel : nat) (target : string) (fields : list value)
  : M Srv (list value) :=
  fun st =>
    match fetchAllPages fuel (VStr "/api/v2/custom_objects.json") "custom_objects" None st with
    | (Returns customObjects, st1) =>
        match scan_custom_objects fuel target customObjects fields st1 with
        | (Returns (fields', None), st2) => (Returns fields', st2)
        | (Returns (fields', Some _), st2) =>
            (Returns fields', console_log "warn" "Could not load COs" st2)
        | (Throws _, st2) => (Returns fields, console_log "warn" "Could not load COs" st2)
        | (Diverges, st2) => (Diverges, st2)
        end
    | (Throws _, st1) => (Returns fields, console_log "warn" "Could not load COs" st1)
    | (Diverges, st1) => (Diverges, st1)
    end.

Definition getLookupFieldsForCurrentCo (fuel : nat) : M Srv value :=
  let* cached := gets cachedLookupFields in
  if truthy cached then ret cached else
  let* key := gets currentCoKey in
  let target := "zen:custom_object:" +:+ to_string key in
  let* fields := scan_block fuel "/api/v2/ticket_fields.json" "ticket_fields" target
                   (field_entry "zen:ticket" "Tickets") "Could not load ticket fields" [] in
  let* fields := scan_block fuel "/api/v2/user_fields.json" "user_fields" target
                   (field_entry "zen:user" "Users") "Could not load user fields" fields in
  let* fields := scan_block fuel "/api/v2/organization_fields.json" "organization_fields" target
                   (field_entry "zen:organization" "Organizations") "Could not load org fields" fields in
  let* fields := scan_all_custom_objects fuel target fields in
  let* _ := modify (set_cachedLookupFields (VArr fields)) in
  ret (VArr fields).

(** ** [loadTable] and the click handler of the [load-co-btn] button *)

Definition loadTable (fuel : nat) (coKey : value) : M Srv unit :=
  let* _ := modify (updateLoaderText "Loading schema...") in
  let* _ := modify (switchView "loader") in
  try_catch
    (let* schemaResponse :=
       request (VStr ("/api/v2/custom_objects/" +:+ to_string coKey +:+ "/fields")) in
     let* schema := lift (get schemaResponse "custom_object_fields") in
     let* _ := modify (set_currentSchema schema) in
     let* records :=
       fetchAllPages fuel
         (VStr ("/api/v2/custom_objects/" +:+ to_string coKey +:+ "/records?page[size]=100"))
         "custom_object_records"
         (Some (fun currentCount =>
                  updateLoaderText ("Fetching data... " +:+ string_of_Z (Z.of_nat currentCount)
                                    +:+ " records loaded"))) in
     let* _ := modify (updateLoaderText "Rendering table...") in
     let* rows := lift (map_records table_row records) in
     let* schema' := gets currentSchema in
     let* columns := lift (schema_columns schema') in
     let* _ := modify (switchView "table") in
     modify (set_table rows (fixed_columns_before ++ columns ++ fixed_columns_after)))
    (fun error =>
       let* _ := modify (console_log "error" "Error loading table data:") in
       modify (updateLoaderText "Error loading table data.")).

(** The three assignments of lines 131-133 are made before the handler
    first waits. *)
Definition load_co_btn_click (fuel : nat) (selectedKey selectedText : string) : M Srv unit :=
  if truthy (VStr selectedKey) then
    let* _ := modify (set_currentCoKey (VStr selectedKey)) in
    let* _ := modify (set_currentCoTitle (VStr selectedText)) in
    let* _ := modify (set_cachedLookupFields VNull) in
    let* key := gets currentCoKey in
    loadTable fuel key
  else ret tt.

(** ** Vocabulary for statements about pending requests *)


End Handlers.



(** The rest of the page when nothing else happens. *)
Definition idle {Srv} (st : State Srv) : State Srv := st.


End Async.

(* ===================================================================== *)
(** * The migration toolkit (migration.py, import_from_csv.py,
      undo_migration.py)

    Only the README of the scripts is in the tree.  Every definition of
    this module is therefore written from the design document; the README
    supplies the confirmation word ("Type DELETE to confirm"). *)
(* ===================================================================== *)

Module Toolkit.

(** ** Data model *)

(** Modelled from the spec: the field categories of section 3 (ticket, user,
    organization field); the scripts that define them are missing. *)
Inductive Category : Type := TicketField | UserField | OrganizationField.

(** Modelled from the spec: categories can be compared, as the matching key
    [(category, key)] of section 4.3 requires; the scripts are missing. *)
#[global] Instance Category_eq_dec : EqDecision Category.
Proof. solve_decision. Defined.

(** Modelled from the spec: the enumerated field [type] of section 3, closed
    over the known types with the fallback variant of section 9 for unknown
    ones; the scripts are missing. *)
Inductive FieldType : Type :=
| Text | Textarea | Integer | Decimal | Date | Checkbox | Dropdown | Lookup
| Unknown (name : string).

(** Modelled from the spec: FieldOption of section 3, [{value, name,
    position, active}]; the scripts are missing. *)
Record FieldOption : Type := mkOption {
  option_value : string;
  option_name : string;
  option_position : Z;
  option_active : bool
}.

(** Modelled from the spec: FieldDefinition of section 3; the scripts are
    missing. *)
Record FieldDefinition : Type := mkField {
  field_category : Category;
  field_source_id : Z;
  field_target_id : option Z;
  field_key : string;
  field_title : string;
  field_type : FieldType;
  field_required : bool;
  field_options : list FieldOption
}.

(** Modelled from the spec: a conditional-visibility rule of a form, which
    "itself references field ids" (section 3); the scripts are missing. *)
Record Condition : Type := mkCondition {
  condition_parent : Z;
  condition_value : string;
  condition_children : list Z
}.

(** Modelled from the spec: TicketForm of section 3; the scripts are
    missing. *)
Record TicketForm : Type := mkForm {
  form_source_id : Z;
  form_target_id : option Z;
  form_name : string;
  form_field_ids : list Z;
  form_conditions : list Condition
}.

(** Modelled from the spec: the [entity_kind] column of the rollback log
    (section 3); the scripts are missing. *)
Inductive EntityKind : Type := FieldKind (category : Category) | FormKind.

(** Modelled from the spec: RollbackLogEntry of section 3; [created_at] is a
    logical time, the number of requests the run had submitted before the
    one that created the object.  The scripts are missing. *)
Record RollbackLogEntry : Type := mkEntry {
  sequence_no : nat;
  entity_kind : EntityKind;
  target_id : Z;
  created_at : nat
}.

(** ** Remote API *)

(** Modelled from the spec: the create and delete calls of the Remote API
    (section 6); a form is created from its name and its field references.
    The scripts are missing. *)
Inductive Request : Type :=
| CreateField (field : FieldDefinition)
| CreateForm (name : string) (field_ids : list Z) (conditions : list Condition)
| DeleteEntity (kind : EntityKind) (id : Z).

(** Modelled from the spec: what the remote instance can answer (section 6):
    success with the identifier it assigned, the rate-limit status with an
    optional retry-after signal, no answer in time, or another non-2xx
    status.  The scripts are missing. *)
Inductive Reply : Type :=
| Success (id : Z)
| RateLimited (retry_after : option nat)
| TimedOut
| Refused (status : nat).

(** Modelled from the spec: the errors of the Request Executor's contract
    (section 4.1, section 7); the scripts are missing. *)
Inductive Error : Type := TransientError | PermanentError (status : nat).

(** Modelled from the spec: what the Request Executor does that can be
    observed, a submission or a pause of a given length (section 4.1); the
    scripts are missing. *)
Inductive Event : Type := Sent (request : Request) | Slept (seconds : nat).

(** ** Rate-limited request executor (section 4.1) *)

Section RequestExecutor.
Context {Remote : Type}.

(** The remote instance: a request is answered and the instance moves on. *)
Variable respond : Request -> Remote -> Reply * Remote.

(** The fixed wait used when the server advises none. *)
Variable default_wait : nat.

(** Modelled from the spec: [execute(request) -> response] of section 4.1,
    missing with the scripts.  A rate-limit reply makes the executor sleep
    for the advised duration (the default when none is advised) and submit
    the same request again, leaving [budget] untouched; a request that
    times out is retried while the retry budget lasts and fails with
    [TransientError] afterwards; any other refusal is a [PermanentError].
    [attempts] bounds the submissions; [None] is a loop that did not end. *)
Fixpoint execute (attempts budget : nat) (request : Request) (remote : Remote)
  (trace : list Event) : option ((Error + Z) * Remote * list Event) :=
  match attempts with
  | O => None
  | S attempts' =>
      let (reply, remote') := respond request remote in
      let trace' := trace ++ [Sent request] in
      match reply with
      | Success id => Some (inr id, remote', trace')
      | RateLimited retry_after =>
          execute attempts' budget request remote'
            (trace' ++ [Slept (default default_wait retry_after)])
      | TimedOut =>
          match budget with
          | O => Some (inl TransientError, remote', trace')
          | S budget' => execute attempts' budget' request remote' trace'
          end
      | Refused status => Some (inl (PermanentError status), remote', trace')
      end
  end.

(** Modelled from the spec: a stretch of consecutive rate-limit replies to
    one request, with the waits the server advised and the state the
    instance is left in (section 4.1); the scripts are missing. *)
Inductive rate_limited (request : Request) : Remote -> list (option nat) -> Remote -> Prop :=
| limited_none remote : rate_limited request remote [] remote
| limited_again remote retry_after remote1 waits remote' :
    respond request remote = (RateLimited retry_after, remote1) ->
    rate_limited request remote1 waits remote' ->
    rate_limited request remote (retry_after :: waits) remote'.

(** Modelled from the spec: what the executor does during a stretch of
    rate-limit replies: for each, the submission that was answered by it and
    the pause that follows, for the advised duration or the default
    (section 4.1); the scripts are missing. *)
Definition backoff (request : Request) (waits : list (option nat)) : list Event :=
  flat_map (fun retry_after => [Sent request; Slept (default default_wait retry_after)]) waits.

End RequestExecutor.

(** ** Dependency resolver, migration executor, rollback engine *)

(** Modelled from the spec: an entry of the ordered creation plan of section
    4.4; the scripts are missing. *)
Inductive PlanEntry : Type :=
| FieldEntry (field : FieldDefinition)
| FormEntry (form : TicketForm).

(** Modelled from the spec: [order(missingFields, missingForms)] of section
    4.4, "all missing fields precede all missing forms", source read order
    kept; the scripts are missing. *)
Definition order (missingFields : list FieldDefinition) (missingForms : list TicketForm)
  : list PlanEntry :=
  map FieldEntry missingFields ++ map FormEntry missingForms.

(** Modelled from the spec: every field id a form refers to, in its layout
    and in its conditions (section 3); the scripts are missing. *)
Definition condition_refs (c : Condition) : list Z :=
  condition_parent c :: condition_children c.

(** Modelled from the spec: see [condition_refs]; the scripts are missing. *)
Definition form_refs (form : TicketForm) : list Z :=
  form_field_ids form ++ flat_map condition_refs (form_conditions form).

(** Modelled from the spec: substitution of a list of field ids through the
    IdentifierMap (section 4.4), [None] when one has no mapping; the scripts
    are missing. *)
Definition resolve (ids : gmap Z Z) (refs : list Z) : option (list Z) :=
  mapM (fun id => ids !! id) refs.

(** Modelled from the spec: see [resolve]; the scripts are missing. *)
Definition resolve_condition (ids : gmap Z Z) (c : Condition) : option Condition :=
  match ids !! condition_parent c, resolve ids (condition_children c) with
  | Some parent, Some children => Some (mkCondition parent (condition_value c) children)
  | _, _ => None
  end.

(** Modelled from the spec: the creation payload of a form, "substitutes
    every referenced field id through this map and fails with
    UnresolvedDependencyError if a referenced field id has no mapping"
    (section 4.4); [None] is that error.  The scripts are missing. *)
Definition form_payload (ids : gmap Z Z) (form : TicketForm) : option Request :=
  match resolve ids (form_field_ids form), mapM (resolve_condition ids) (form_conditions form) with
  | Some field_ids, Some conditions => Some (CreateForm (form_name form) field_ids conditions)
  | _, _ => None
  end.

(** Modelled from the spec: why an entry was skipped (sections 4.6 and 7);
    the scripts are missing. *)
Inductive Skip : Type := RequestFailed (e : Error) | UnresolvedDependencyError.

(** Modelled from the spec: the state of a migration run: the IdentifierMap,
    the rollback log, the skipped entries, every request handed to the
    Request Executor with its result, and the target instance (sections 3
    and 4.6); the scripts are missing. *)
Record Run (Remote : Type) : Type := mkRun {
  id_map : gmap Z Z;
  rollback_log : list RollbackLogEntry;
  skipped : list (PlanEntry * Skip);
  submitted : list (Request * (Error + Z));
  target : Remote
}.
Arguments mkRun {Remote}.
Arguments id_map {Remote}.
Arguments rollback_log {Remote}.
Arguments skipped {Remote}.
Arguments submitted {Remote}.
Arguments target {Remote}.

(** Modelled from the spec: the states of the Rollback Engine (section 4.7);
    [Failed] reports the entries that could not be removed.  The scripts are
    missing. *)
Inductive RollbackState : Type :=
| Idle | Confirming | RollingBack | Done
| Failed (not_removed : list RollbackLogEntry).

(** Modelled from the spec: the exact-match token of section 6; the README
    gives the word. *)
Definition confirmation_token : string := "DELETE".

(** Modelled from the spec: "sorts by sequence_no descending" (section 4.7):
    [a] may come before [b].  The scripts are missing. *)
Definition newest_first (a b : RollbackLogEntry) : Prop := sequence_no b <= sequence_no a.

(** Modelled from the spec: the comparison used by the sort of section 4.7;
    the scripts are missing. *)
#[global] Instance newest_first_dec : RelDecision newest_first.
Proof. intros a b. unfold newest_first. apply _. Defined.

(** Modelled from the spec: the request that undoes a log entry (section
    4.7); the scripts are missing. *)
Definition delete_request (entry : RollbackLogEntry) : Request :=
  DeleteEntity (entity_kind entry) (target_id entry).

(** Modelled from the spec: the not-found answer to a delete of an absent
    object (section 6); the scripts are missing. *)
Definition not_found (e : Error) : bool :=
  match e with
  | PermanentError 404 => true
  | _ => false
  end.

(** Modelled from the spec: the outcome of a rollback: the states the engine
    went through, the delete requests it submitted with their results, what
    is left of the log, and the target instance (section 4.7); the scripts
    are missing. *)
Record Rollback (Remote : Type) : Type := mkRollback {
  states : list RollbackState;
  deletions : list (Request * (Error + Z));
  remaining_log : list RollbackLogEntry;
  target_after : Remote
}.
Arguments mkRollback {Remote}.
Arguments states {Remote}.
Arguments deletions {Remote}.
Arguments remaining_log {Remote}.
Arguments target_after {Remote}.

Section Engine.
Context {Remote : Type}.

(** The Request Executor as its callers see it: a request ends with the
    identifier the instance returned or with an error. *)
Variable executor : Request -> Remote -> (Error + Z) * Remote.

(** Modelled from the spec: submission of one creation payload (section
    4.6): on success a log entry with the next sequence number is appended
    and the IdentifierMap becomes [learn id]; on an error the entry is
    recorded as skipped.  The scripts are missing. *)
Definition submit (st : Run Remote) (entry : PlanEntry) (request : Request)
  (kind : EntityKind) (learn : Z -> gmap Z Z) : Run Remote :=
  let (result, remote') := executor request (target st) in
  let submitted' := submitted st ++ [(request, result)] in
  match result with
  | inr id =>
      mkRun (learn id)
        (rollback_log st
           ++ [mkEntry (S (length (rollback_log st))) kind id (length (submitted st))])
        (skipped st) submitted' remote'
  | inl e =>
      mkRun (id_map st) (rollback_log st) (skipped st ++ [(entry, RequestFailed e)])
        submitted' remote'
  end.

(** Modelled from the spec: one step of the Migration Executor (section
    4.6): build the payload, submit it, and for a created field record
    source id to target id in the IdentifierMap; a form with an unresolved
    dependency is skipped without a request.  The scripts are missing. *)
Definition run_entry (st : Run Remote) (entry : PlanEntry) : Run Remote :=
  match entry with
  | FieldEntry field =>
      submit st entry (CreateField field) (FieldKind (field_category field))
        (fun id => <[field_source_id field := id]> (id_map st))
  | FormEntry form =>
      match form_payload (id_map st) form with
      | Some request => submit st entry request FormKind (fun _ => id_map st)
      | None =>
          mkRun (id_map st) (rollback_log st)
            (skipped st ++ [(entry, UnresolvedDependencyError)]) (submitted st) (target st)
      end
  end.

(** Modelled from the spec: [run(plan) -> rollback log] of section 4.6, the
    entries taken in plan order from an empty IdentifierMap and an empty
    log; the scripts are missing. *)
Definition run (plan : list PlanEntry) (remote : Remote) : Run Remote :=
  foldl run_entry (mkRun ∅ [] [] [] remote) plan.

(** Modelled from the spec: the per-entry policy of section 4.7: delete the
    entry's object; a not-found failure counts as success, any other
    failure is recorded and the rollback goes on.  The scripts are
    missing. *)
Definition delete_entry (acc : list RollbackLogEntry * list (Request * (Error + Z)) * Remote)
  (entry : RollbackLogEntry) : list RollbackLogEntry * list (Request * (Error + Z)) * Remote :=
  let '(failed, sent, remote) := acc in
  let (result, remote') := executor (delete_request entry) remote in
  let sent' := sent ++ [(delete_request entry, result)] in
  match result with
  | inr _ => (failed, sent', remote')
  | inl e => if not_found e then (failed, sent', remote') else (failed ++ [entry], sent', remote')
  end.

(** Modelled from the spec: the Rollback Engine of section 4.7.  Without
    the confirmation token the engine stays [Idle]; with it, the engine
    reads the full log, sorts it by [sequence_no] descending and deletes
    every entry, ending in [Done] (the log is emptied) or in [Failed] (the
    log is kept).  The scripts are missing. *)
Definition rollback (typed : string) (log : list RollbackLogEntry) (remote : Remote)
  : Rollback Remote :=
  if decide (typed = confirmation_token) then
    let '(failed, sent, remote') :=
      foldl delete_entry ([], [], remote) (merge_sort newest_first log) in
    match failed with
    | [] => mkRollback [Idle; Confirming; RollingBack; Done] sent [] remote'
    | _ => mkRollback [Idle; Confirming; RollingBack; Failed failed] sent log remote'
    end
  else mkRollback [Idle] [] log remote.

(** Modelled from the spec: a sequence of exchanges carried out "via the
    Request Executor" (section 4.7): every request was handed to the
    executor, on the instance as the exchange before it left it, and is
    listed with the result the executor gave.  The scripts are missing. *)
Inductive executed : Remote -> list (Request * (Error + Z)) -> Remote -> Prop :=
| executed_none remote : executed remote [] remote
| executed_next remote request result remote1 rest remote' :
    executor request remote = (result, remote1) ->
    executed remote1 rest remote' ->
    executed remote ((request, result) :: rest) remote'.

End Engine.

(** Modelled from the spec: the object of a delete request is gone when the
    request succeeded or was answered not-found (section 4.7); the scripts
    are missing. *)
Definition removed (result : Error + Z) : bool :=
  match result with
  | inr _ => true
  | inl e => not_found e
  end.

(** Modelled from the spec: of the entries whose deletes had these results,
    in order, the ones whose object is still there (section 4.7); the
    scripts are missing. *)
Fixpoint not_removed (entries : list RollbackLogEntry) (results : list (Error + Z))
  : list RollbackLogEntry :=
  match entries, results with
  | entry :: entries', result :: results' =>
      if removed result then not_removed entries' results'
      else entry :: not_removed entries' results'
  | _, _ => []
  end.

(** Modelled from the spec: the state in which a rollback ends and the log
    it leaves, given the entries that could not be removed (section 4.7):
    [Done] and an empty log when there is none, [Failed] and the log as it
    was otherwise.  The scripts are missing. *)
Definition final_state (failed : list RollbackLogEntry) : RollbackState :=
  match failed with
  | [] => Done
  | _ => Failed failed
  end.

(** Modelled from the spec: see [final_state]; the scripts are missing. *)
Definition log_after (failed log : list RollbackLogEntry) : list RollbackLogEntry :=
  match failed with
  | [] => []
  | _ => log
  end.

(** ** Plan serializer (section 4.5) *)

(** Modelled from the spec: what a migration plan holds of an option.  The
    plan is made of what its rows say, and a row is "a flattened,
    human-editable projection of either a FieldDefinition or a FieldOption"
    (section 3); for an option the row says "(value, name, position)"
    (section 6).  The scripts are missing. *)
Record PlanOption : Type := mkPlanOption {
  plan_option_value : string;
  plan_option_name : string;
  plan_option_position : Z
}.

(** Modelled from the spec: what a migration plan holds of a field: what
    its field row says, "(category, key, title, type, required, source id,
    target id)" (section 6), and its options in order, the option rows
    being "logically children of the preceding field row" (section 3).
    The scripts are missing. *)
Record PlanField : Type := mkPlanField {
  plan_category : Category;
  plan_field_key : string;
  plan_title : string;
  plan_type : FieldType;
  plan_required : bool;
  plan_source_id : Z;
  plan_target_id : option Z;
  plan_options : list PlanOption
}.



(** Modelled from the spec: a row of the plan file (section 6): a field row
    "(category, key, title, type, required, source id, target id)" or an
    option row "(belongs to the immediately preceding field row; value,
    name, position)".  The scripts are missing. *)
Inductive PlanRow : Type :=
| FieldRow (category : Category) (key title : string) (type : FieldType)
    (required : bool) (source_id : Z) (target_id : option Z)
| OptionRow (value name : string) (position : Z).

(** Modelled from the spec: the plan-file integrity errors of section 7; the
    scripts are missing. *)
Inductive PlanError : Type := DanglingOptionError | DuplicateKeyError.

(** Modelled from the spec: the rows of one field, the field row followed by
    one option row per option (sections 3 and 6); the scripts are missing. *)
Definition write_field (field : PlanField) : list PlanRow :=
  FieldRow (plan_category field) (plan_field_key field) (plan_title field) (plan_type field)
    (plan_required field) (plan_source_id field) (plan_target_id field)
  :: map (fun o => OptionRow (plan_option_value o) (plan_option_name o)
                     (plan_option_position o))
       (plan_options field).

(** Modelled from the spec: [write(plan) -> tabular rows] of section 4.5,
    the fields in plan order; the scripts are missing. *)
Definition write (plan : list PlanField) : list PlanRow :=
  flat_map write_field plan.

(** Modelled from the spec: the matching key [(category, key)] of section
    4.3, used by the duplicate check of section 4.5; the scripts are
    missing. *)
Definition plan_key (field : PlanField) : Category * string :=
  (plan_category field, plan_field_key field).

(** Modelled from the spec: an option row read under its field row: the
    option goes last among the options of the field (section 6); the
    scripts are missing. *)
Definition add_option (field : PlanField) (value name : string) (position : Z) : PlanField :=
  mkPlanField (plan_category field) (plan_field_key field) (plan_title field) (plan_type field)
    (plan_required field) (plan_source_id field) (plan_target_id field)
    (plan_options field ++ [mkPlanOption value name position]).

(** Modelled from the spec: the fields read so far, the one whose option
    rows are being read last (section 4.5); the scripts are missing. *)
Definition close_field (done : list PlanField) (current : option PlanField)
  : list PlanField :=
  done ++ option_list current.

(** Modelled from the spec: [read(rows) -> plan] of section 4.5, row by row:
    a field row whose [(category, key)] was already read is a
    [DuplicateKeyError]; an option row belongs to the field row before it,
    whose category is then its own, and with no field row before it, it is
    a [DanglingOptionError] ("an option row whose parent field row is
    absent", section 3).  The scripts are missing. *)
Fixpoint read_rows (rows : list PlanRow) (done : list PlanField)
  (current : option PlanField) : PlanError + list PlanField :=
  match rows with
  | [] => inr (close_field done current)
  | FieldRow category key title type required source_id target_id :: rest =>
      if decide ((category, key) ∈ map plan_key (close_field done current))
      then inl DuplicateKeyError
      else read_rows rest (close_field done current)
             (Some (mkPlanField category key title type required source_id target_id []))
  | OptionRow value name position :: rest =>
      match current with
      | Some field => read_rows rest done (Some (add_option field value name position))
      | None => inl DanglingOptionError
      end
  end.

(** Modelled from the spec: see [read_rows]; the scripts are missing. *)
Definition read (rows : list PlanRow) : PlanError + list PlanField :=
  read_rows rows [] None.

(** Modelled from the spec: the keys of the field rows of a document, in
    order (section 4.5); the scripts are missing. *)
Definition row_keys (rows : list PlanRow) : list (Category * string) :=
  flat_map (fun row => match row with
                       | FieldRow category key _ _ _ _ _ => [(category, key)]
                       | OptionRow _ _ _ => []
                       end) rows.

(** Modelled from the spec: a document has a dangling option row when an
    option row comes with no field row before it, which is when the
    document starts with an option row (section 3); the scripts are
    missing. *)
Definition dangling (rows : list PlanRow) : bool :=
  match rows with
  | OptionRow _ _ _ :: _ => true
  | _ => false
  end.

(** ** Vocabulary for statements about a run *)

(** Modelled from the spec: the identifier the target assigned when a
    submission created a field (sections 4.4 and 4.6); the scripts are
    missing. *)
Definition created_field_id (exchange : Request * (Error + Z)) : list Z :=
  match exchange with
  | (CreateField _, inr id) => [id]
  | _ => []
  end.

(** Modelled from the spec: the target identifiers of the fields created by
    a sequence of submissions; the scripts are missing. *)
Definition created_field_ids (exchanges : list (Request * (Error + Z))) : list Z :=
  flat_map created_field_id exchanges.

(** Modelled from the spec: the field identifiers a submitted payload refers
    to (section 3); the scripts are missing. *)
Definition request_refs (request : Request) : list Z :=
  match request with
  | CreateForm _ field_ids conditions => field_ids ++ flat_map condition_refs conditions
  | _ => []
  end.

(** Modelled from the spec: the guarantee of section 4.4 as a property of a
    run in progress: every identifier in the IdentifierMap was assigned by
    the target to a field this run created, and every payload submitted so
    far refers only to fields created before it.  The scripts are
    missing. *)
Definition dependencies_resolved {Remote} (st : Run Remote) : Prop :=
  (forall source id, id_map st !! source = Some id ->
     In id (created_field_ids (submitted st)))
  /\ (forall i request result, submitted st !! i = Some (request, result) ->
        Forall (fun id => In id (created_field_ids (take i (submitted st))))
          (request_refs request)).

(** ** Instances used to run the engine *)

(** Modelled from the spec: a target instance that assigns identifiers from
    its counter and remembers what exists; deleting what is absent is
    answered not-found (section 6).  The scripts are missing. *)
Definition instance_executor (request : Request) (remote : Z * list Z)
  : (Error + Z) * (Z * list Z) :=
  match request with
  | CreateField _ | CreateForm _ _ _ =>
      (inr (fst remote), ((fst remote + 1)%Z, fst remote :: snd remote))
  | DeleteEntity _ id =>
      if decide (id ∈ snd remote)
      then (inr id, (fst remote, List.filter (fun x => negb (x =? id)%Z) (snd remote)))
      else (inl (PermanentError 404), remote)
  end.

(** Modelled from the spec: the empty target of the scenario of section 8,
    whose first identifier is 501. *)
Definition empty_instance : Z * list Z := (501%Z, []).

(** Modelled from the spec: the source of the scenario of section 8, a
    dropdown field [priority_lvl] and the form "Main Form" that shows it. *)
Definition priority_lvl : FieldDefinition :=
  mkField TicketField 77 None "priority_lvl" "Priority level" Dropdown false
    [mkOption "low" "Low" 0 true; mkOption "high" "High" 1 true].

(** Modelled from the spec: see [priority_lvl]. *)
Definition main_form : TicketForm := mkForm 900 None "Main Form" [77%Z] [].



(** Modelled from the spec: an instance that answers the first two
    submissions with the rate-limit status, advising three seconds the
    first time and nothing the second, and then succeeds (section 4.1). *)
Definition busy_instance (request : Request) (seen : nat) : Reply * nat :=
  match seen with
  | 0 => (RateLimited (Some 3), 1)
  | 1 => (RateLimited None, 2)
  | _ => (Success 501, S seen)
  end.

End Toolkit.

(* ===================================================================== *)
(** * Properties of the dashboard *)
(* ===================================================================== *)

Import JS Dashboard.
Local Open Scope js_scope.

Section DashboardProofs.
Context {Srv : Type}.
Variable serve : value -> Srv -> (value + value) * Srv.
Variable operator : string -> bool.

Lemma concat_app (acc : list value) (v : value) : concat acc v = acc ++ concat [] v.
Proof. destruct v; reflexivity. Qed.

(** A response whose links can be read is not [null] or [undefined], so its
    data key can be read too. *)
Lemma next_link_get (response next : value) (k : string) :
  next_link response = Val next -> exists v, get response k = Val v.
Proof. destruct response; simpl; intros H; try discriminate; eauto. Qed.

Lemma advanced_refl (st : State Srv) : advanced st [] (remote st) st.
Proof. unfold advanced. rewrite app_nil_r. auto. Qed.

Lemma advanced_trans (st st1 st2 : State Srv) l1 l2 srv1 srv2 :
  advanced st l1 srv1 st1 -> advanced st1 l2 srv2 st2 -> advanced st (l1 ++ l2) srv2 st2.
Proof.
  unfold advanced. intros (Hn & _ & Hc & Hk & Hq) (Hn' & Hr' & Hc' & Hk' & Hq').
  rewrite Hn', Hn, Hc', Hc, Hk', Hk, Hq', Hq, app_assoc. auto.
Qed.

Lemma client_request_advanced (req : value) (st : State Srv) reply srv' :
  serve req (remote st) = (reply, srv') ->
  exists st', client_request serve req st = (reply, st') /\ advanced st [(req, reply)] srv' st'.
Proof.
  intros H. unfold client_request. rewrite H. eexists. split; [reflexivity|].
  unfold advanced. simpl. auto.
Qed.

Lemma run_callback_advanced cb n (st : State Srv) :
  display_only cb -> advanced st [] (remote st) (run_callback cb n st).
Proof.
  intros Hcb. destruct cb as [callback|]; simpl; [|apply advanced_refl].
  destruct (Hcb callback n st eq_refl) as (? & ? & ? & ? & ?).
  unfold advanced. rewrite app_nil_r. auto.
Qed.

(** A pass whose request is resolved by a readable page appends that page's
    items and moves on to the endpoint the page names. *)
Lemma iteration_page dataKey cb acc ep (st : State Srv) response srv1 next :
  display_only cb ->
  serve ep (remote st) = (inl response, srv1) ->
  next_link response = Val next ->
  exists st1,
    fetchAllPages_iteration serve dataKey cb acc ep st
    = ((acc ++ page_items dataKey response, next), st1)
    /\ advanced st [(ep, inl response)] srv1 st1.
Proof.
  intros Hcb Hserve Hnext.
  destruct (client_request_advanced ep st _ _ Hserve) as (st1 & Hreq & Hadv).
  destruct (next_link_get _ _ dataKey Hnext) as (items & Hitems).
  unfold fetchAllPages_iteration, page_items. rewrite Hreq, Hitems, Hnext.
  destruct (truthy items).
  - eexists. split; [rewrite concat_app; reflexivity|].
    replace [(ep, inl response)] with ([(ep, @inl value value response)] ++ []) by reflexivity.
    eapply advanced_trans; [exact Hadv|].
    destruct Hadv as (_ & Hr & _). rewrite <- Hr. by apply run_callback_advanced.
  - eexists. split; [rewrite app_nil_r; reflexivity|exact Hadv].
Qed.

(** A pass whose request is rejected logs the error, keeps the records and
    clears the endpoint. *)
Lemma iteration_rejected dataKey cb acc ep (st : State Srv) reason srv1 :
  serve ep (remote st) = (inr reason, srv1) ->
  exists st1,
    fetchAllPages_iteration serve dataKey cb acc ep st = ((acc, VNull), st1)
    /\ network st1 = network st ++ [(ep, inr reason)]
    /\ remote st1 = srv1
    /\ console st1
       = console st ++ [("error", "Error fetching paginated data from " +:+ to_string ep +:+ ":")].
Proof.
  intros Hserve.
  destruct (client_request_advanced ep st _ _ Hserve) as (st1 & Hreq & Hn & Hr & Hc & _).
  unfold fetchAllPages_iteration. rewrite Hreq.
  eexists. split; [reflexivity|]. simpl. rewrite Hn, Hr, Hc. auto.
Qed.

(** Unrolling the loop along a chain of pages. *)
Lemma loop_follows_chain dataKey cb ep srv exchanges ep' srv' :
  display_only cb ->
  page_chain serve ep srv exchanges ep' srv' ->
  forall fuel acc (st : State Srv),
    remote st = srv ->
    exists st',
      fetchAllPages_loop serve (length exchanges + fuel) dataKey cb acc ep st
      = fetchAllPages_loop serve fuel dataKey cb
          (acc ++ flat_map (fun x => page_items dataKey (snd x)) exchanges) ep' st'
      /\ advanced st (map (fun x => (fst x, inl (snd x))) exchanges) srv' st'.
Proof.
  intros Hcb Hchain.
  induction Hchain as [ep srv|ep srv response srv1 next exchanges ep' srv' Hep Hserve Hnext Hchain IH];
    intros fuel acc st Hsrv.
  - exists st. simpl. rewrite app_nil_r. split; [reflexivity|].
    subst srv. apply advanced_refl.
  - subst srv.
    destruct (iteration_page dataKey cb acc ep st _ _ _ Hcb Hserve Hnext) as (st1 & Hit & Hadv).
    destruct (IH fuel (acc ++ page_items dataKey response) st1) as (st' & Hloop & Hadv').
    { by destruct Hadv as (_ & ? & _). }
    exists st'. split.
    + simpl. rewrite Hep, Hit, Hloop. by rewrite <- app_assoc.
    + change (map (fun x : value * value => (fst x, inl (snd x))) ((ep, response) :: exchanges))
        with ([(ep, @inl value value response)] ++ map (fun x : value * value => (fst x, @inl value value (snd x))) exchanges).
      eapply advanced_trans; eassumption.
Qed.

(** Once the endpoint is falsy the loop is over, whatever the bound. *)
Lemma loop_finished fuel dataKey cb acc ep (st : State Srv) :
  truthy ep = false ->
  fetchAllPages_loop serve fuel dataKey cb acc ep st = (Returns acc, st).
Proof. intros H. destruct fuel; simpl; by rewrite H. Qed.

(** [fetchAllPages] has no way to fail: every exception raised inside the
    loop is caught there. *)
Lemma fetchAllPages_loop_never_throws fuel dataKey cb acc ep (st : State Srv) e :
  fst (fetchAllPages_loop serve fuel dataKey cb acc ep st) <> Throws e.
Proof.
  revert acc ep st. induction fuel as [|fuel IH]; intros acc ep st; simpl.
  - destruct (truthy ep); simpl; discriminate.
  - destruct (truthy ep); simpl; [|discriminate].
    destruct (fetchAllPages_iteration serve dataKey cb acc ep st) as [[acc' next] st']. apply IH.
Qed.

Lemma fetchAllPages_never_throws fuel ep dataKey cb (st : State Srv) e :
  fst (fetchAllPages serve fuel ep dataKey cb st) <> Throws e.
Proof. apply fetchAllPages_loop_never_throws. Qed.

(** C2.  Along any chain of pages that the service resolves, each naming
    the next, until one names no further page, [fetchAllPages] (given at
    least as many passes as there are pages) asks exactly those endpoints in
    order and returns the concatenation of the pages' items in arrival
    order, logging no error.  A page whose data key is absent or holds an
    empty array contributes nothing and the chain goes on after it. *)
Theorem fetchAllPages_concatenates_pages dataKey cb ep exchanges next srv' fuel (st : State Srv) :
  display_only cb ->
  page_chain serve ep (remote st) exchanges next srv' ->
  truthy next = false ->
  length exchanges <= fuel ->
  (exists st',
     fetchAllPages serve fuel ep dataKey cb st
     = (Returns (flat_map (fun x => page_items dataKey (snd x)) exchanges), st')
     /\ advanced st (map (fun x => (fst x, inl (snd x))) exchanges) srv' st')
  /\ (forall response,
        get response dataKey = Val VUndefined \/ get response dataKey = Val (VArr []) ->
        page_items dataKey response = []).
Proof.
  intros Hcb Hchain Hnext Hfuel. split.
  - replace fuel with (length exchanges + (fuel - length exchanges)) by lia.
    destruct (loop_follows_chain dataKey cb _ _ _ _ _ Hcb Hchain
                (fuel - length exchanges) [] st eq_refl) as (st' & Hloop & Hadv).
    exists st'. split; [|exact Hadv].
    unfold fetchAllPages. rewrite Hloop. by apply loop_finished.
  - intros response [H|H]; unfold page_items; by rewrite H.
Qed.

(** C1 (as the code has it).  When the service resolves a chain of pages and
    then rejects the request for the next one, [fetchAllPages] (given more
    passes than there are pages) does not fail: it logs the error, stops,
    and returns the records of the pages read before the failure. *)
Theorem fetchAllPages_page_error_returns_partial dataKey cb ep exchanges failing reason srv1 srv'
  fuel (st : State Srv) :
  display_only cb ->
  page_chain serve ep (remote st) exchanges failing srv1 ->
  truthy failing = true ->
  serve failing srv1 = (inr reason, srv') ->
  length exchanges < fuel ->
  exists st',
    fetchAllPages serve fuel ep dataKey cb st
    = (Returns (flat_map (fun x => page_items dataKey (snd x)) exchanges), st')
    /\ network st'
       = network st ++ map (fun x => (fst x, inl (snd x))) exchanges ++ [(failing, inr reason)]
    /\ remote st' = srv'
    /\ console st'
       = console st
         ++ [("error", "Error fetching paginated data from " +:+ to_string failing +:+ ":")].
Proof.
  intros Hcb Hchain Hfailing Hserve Hfuel.
  replace fuel with (length exchanges + S (fuel - S (length exchanges))) by lia.
  destruct (loop_follows_chain dataKey cb _ _ _ _ _ Hcb Hchain
              (S (fuel - S (length exchanges))) [] st eq_refl)
    as (st1 & Hloop & Hn & Hr & Hc & _).
  rewrite <- Hr in Hserve.
  destruct (iteration_rejected dataKey cb
              (flat_map (fun x => page_items dataKey (snd x)) exchanges) failing st1 _ _ Hserve)
    as (st2 & Hit & Hn2 & Hr2 & Hc2).
  exists st2. split; [|split; [|split]].
  - unfold fetchAllPages. rewrite Hloop. simpl. rewrite Hfailing, Hit.
    by apply loop_finished.
  - rewrite Hn2, Hn. by rewrite <- app_assoc.
  - exact Hr2.
  - by rewrite Hc2, Hc.
Qed.

(** ** Lookup search *)

Lemma new_exchanges_refl (st : State Srv) : new_exchanges st st = [].
Proof. unfold new_exchanges. apply drop_all. Qed.

Lemma new_exchanges_app (st st' : State Srv) l :
  network st' = network st ++ l -> new_exchanges st st' = l.
Proof. unfold new_exchanges. intros ->. apply drop_app_length. Qed.

Lemma request_exchange req (st : State Srv) out st' :
  request serve req st = (out, st') ->
  exists reply,
    network st' = network st ++ [(req, reply)] /\
    cachedLookupFields st' = cachedLookupFields st /\
    currentCoKey st' = currentCoKey st /\
    match reply with
    | inl response => out = Returns response
    | inr reason => out = Throws (Rejected reason)
    end.
Proof.
  unfold request, client_request. destruct (serve req (remote st)) as [reply srv'].
  destruct reply; intros [= <- <-]; eexists; simpl; eauto.
Qed.

Lemma is_true_spec v : is_true v = true <-> v = VBool true.
Proof. destruct v as [| |[]| | | |]; simpl; split; congruence. Qed.

Lemma is_false_spec v : is_false v = true <-> v = VBool false.
Proof. destruct v as [| |[]| | | |]; simpl; split; congruence. Qed.

Lemma lookup_visible_shown record : lookup_visible record = Val true -> shown record.
Proof.
  unfold lookup_visible, shown, rbind.
  destruct (get record "suspended") as [suspended|]; [|discriminate].
  destruct (is_true suspended) eqn:Hs; [discriminate|].
  destruct (get record "active") as [active|]; [|discriminate].
  destruct (is_false active) eqn:Ha; [discriminate|].
  destruct (get record "custom_object_fields") as [cof|]; [|discriminate].
  intros H. split; [|split].
  - intros [= ->]. discriminate Hs.
  - intros [= ->]. discriminate Ha.
  - intros cof' [= <-] Ht. rewrite Ht in H.
    destruct (get cof "active") as [cof_active|]; [|discriminate].
    destruct (is_false cof_active) eqn:Hc; [discriminate|].
    intros [= ->]. discriminate Hc.
Qed.

Lemma filter_records_spec keep l kept :
  filter_records keep l = Val kept ->
  Forall (fun record => In record l /\ keep record = Val true) kept.
Proof.
  revert kept. induction l as [|r l IH]; simpl; intros kept H.
  - injection H as <-. constructor.
  - unfold rbind in H. destruct (keep r) as [b|] eqn:Hb; [|discriminate].
    destruct (filter_records keep l) as [rest|]; [|discriminate].
    specialize (IH rest eq_refl).
    assert (Hrest : Forall (fun record => In record (r :: l) /\ keep record = Val true) rest).
    { eapply Forall_impl; [exact IH|]. simpl. intros x [? ?]. auto. }
    destruct b; injection H as <-; [constructor; auto|exact Hrest].
Qed.

Lemma map_records_Forall2 f l out :
  map_records f l = Val out -> Forall2 (fun record x => f record = Val x) l out.
Proof.
  revert out. induction l as [|r l IH]; simpl; intros out H.
  - injection H as <-. constructor.
  - unfold rbind in H. destruct (f r) as [x|] eqn:Hx; [|discriminate].
    destruct (map_records f l) as [rest|]; [|discriminate].
    injection H as <-. constructor; auto.
Qed.

(** Every entry computed from a response comes from a record of the
    response that passed the filter. *)
Lemma lookup_results_shown dataKey labelField response entries :
  lookup_results dataKey labelField response = Val entries ->
  exists kept,
    Forall2 (fun record entry => lookup_option labelField record = Val entry) kept entries
    /\ Forall shown kept
    /\ forall record, In record kept ->
         exists raw, get response dataKey = Val (VArr raw) /\ In record raw.
Proof.
  unfold lookup_results, rbind.
  destruct (get response dataKey) as [raw|]; [|discriminate].
  destruct (array_filter lookup_visible (js_or raw (VArr []))) as [kept|] eqn:Hf; [|discriminate].
  intros Hmap. exists kept. split; [by apply map_records_Forall2|].
  unfold array_filter in Hf.
  destruct (js_or raw (VArr [])) as [| | | | |l|] eqn:Hor; try discriminate.
  apply filter_records_spec in Hf.
  split.
  - eapply Forall_impl; [exact Hf|]. intros r [_ Hr]. by apply lookup_visible_shown.
  - intros record Hin.
    rewrite Forall_forall in Hf. destruct (Hf record) as [Hl _]; [by apply list_elem_of_In|].
    unfold js_or in Hor. destruct (truthy raw).
    + subst raw. eauto.
    + injection Hor as <-. destruct Hl.
Qed.

(** C9.  [searchLookupData] always returns a list and never throws.  Every
    entry of the list is the option built from a record of the response
    that is not suspended ([suspended !== true]), not inactive
    ([active !== false]) and whose [custom_object_fields.active], when
    there are custom fields, is not [false].  When the request is
    rejected the list is empty. *)
Theorem searchLookupData_shows_only_active targetType query (st : State Srv) :
  exists entries kept st',
    searchLookupData serve targetType query st = (Returns entries, st')
    /\ Forall2 (fun record entry =>
                  exists labelField, lookup_option labelField record = Val entry) kept entries
    /\ Forall shown kept
    /\ (forall record, In record kept ->
          exists req response dataKey raw,
            In (req, inl response) (new_exchanges st st')
            /\ get response dataKey = Val (VArr raw) /\ In record raw)
    /\ (forall req reason, In (req, inr reason) (new_exchanges st st') -> entries = []).
Proof.
  unfold searchLookupData.
  destruct (lookup_search_route targetType query) as [[[endpoint dataKey] labelField]|].
  2:{ exists [], [], st. rewrite new_exchanges_refl. repeat split; try constructor; by intros. }
  unfold try_catch, bind.
  destruct (request serve (VStr endpoint) st) as [out st1] eqn:Hreq.
  destruct (request_exchange _ _ _ _ Hreq) as (reply & Hn & _ & _ & Hout).
  assert (Hnothing : exists st',
             (let* _ := modify (console_log "error" "Lookup Search Error:") in ret [])%js st1
             = (Returns ([] : list value), st')
             /\ new_exchanges st st' = [(VStr endpoint, reply)]).
  { eexists. split; [reflexivity|]. apply new_exchanges_app. simpl. exact Hn. }
  destruct Hnothing as (st2 & Hcatch & Hnew2).
  destruct reply as [response|reason]; subst out.
  - unfold lift. destruct (lookup_results dataKey labelField response) as [entries|e] eqn:Hres.
    + destruct (lookup_results_shown _ _ _ _ Hres) as (kept & Hmap & Hshown & Hfrom).
      exists entries, kept, st1. rewrite (new_exchanges_app _ _ _ Hn).
      split; [reflexivity|]. split; [|split; [exact Hshown|split]].
      * eapply Forall2_impl; [exact Hmap|]. simpl. eauto.
      * intros record Hin. destruct (Hfrom record Hin) as (raw & Hraw & Hin').
        exists (VStr endpoint), response, dataKey, raw. simpl. auto.
      * intros req reason [[=]|[]].
    + exists [], [], st2. unfold bind in Hcatch. rewrite Hnew2.
      split; [exact Hcatch|]. repeat split; try constructor; by intros.
  - exists [], [], st2. unfold bind in Hcatch. rewrite Hnew2.
    split; [exact Hcatch|]. repeat split; try constructor; by intros.
Qed.

(** ** Record names *)

Lemma fallback_name_truthy id : truthy (VStr ("Record " +:+ to_string id)) = true.
Proof. reflexivity. Qed.

Lemma fallback_name_nonempty id : "Record " +:+ to_string id <> "".
Proof. discriminate. Qed.

Lemma truthy_text v :
  truthy v = true -> text_or_absent v = true -> exists name, v = VStr name /\ name <> "".
Proof.
  destruct v as [| | | |name| |]; simpl; try discriminate.
  intros H _. exists name. split; [reflexivity|]. intros ->. discriminate H.
Qed.

Lemma record_label_truthy labelField record v :
  record_label labelField record = Val v -> truthy v = true.
Proof.
  unfold record_label, rbind, or_else.
  destruct (get record labelField) as [label|]; [|discriminate].
  destruct (truthy label) eqn:Hl; [by intros [= <-]|].
  destruct (get record "title") as [title|]; [|discriminate].
  destruct (truthy title) eqn:Ht; [by intros [= <-]|].
  destruct (get record "id") as [id|]; [|discriminate].
  intros [= <-]. apply fallback_name_truthy.
Qed.

Lemma record_label_text labelField record v :
  record_label labelField record = Val v ->
  labels_are_text labelField record = true ->
  exists name, v = VStr name /\ name <> "".
Proof.
  unfold record_label, labels_are_text, rbind, or_else.
  destruct (get record labelField) as [label|] eqn:Hget; [|discriminate].
  destruct (get record "title") as [title|] eqn:Hgett.
  - intros H Htext. apply andb_prop in Htext as [Hl Ht].
    destruct (truthy label) eqn:Hlabel.
    { injection H as <-. by apply truthy_text. }
    destruct (truthy title) eqn:Htitle.
    { injection H as <-. by apply truthy_text. }
    destruct (get record "id") as [id|]; [|discriminate H].
    injection H as <-. eexists. split; [reflexivity|apply fallback_name_nonempty].
  - destruct record; simpl in Hget, Hgett; discriminate.
Qed.

Lemma fetchSingleRecordName_string targetType id (st : State Srv) :
  exists v st',
    fetchSingleRecordName serve targetType id st = (Returns v, st')
    /\ truthy v = true
    /\ (single_record_route targetType id = None ->
        v = VStr ("Record " +:+ to_string id) /\ st' = st)
    /\ (forall req reason, In (req, inr reason) (new_exchanges st st') ->
        v = VStr ("Record " +:+ to_string id))
    /\ ((forall endpoint dataKey labelField response record,
           single_record_route targetType id = Some (endpoint, dataKey, labelField) ->
           In (VStr endpoint, inl response) (new_exchanges st st') ->
           get response dataKey = Val record ->
           labels_are_text labelField record = true) ->
        exists name, v = VStr name /\ name <> "").
Proof.
  unfold fetchSingleRecordName.
  destruct (single_record_route targetType id) as [[[endpoint dataKey] labelField]|] eqn:Hroute.
  2:{ exists (VStr ("Record " +:+ to_string id)), st. rewrite new_exchanges_refl.
      repeat split; try done. eexists. split; [reflexivity|apply fallback_name_nonempty]. }
  unfold try_catch, bind.
  destruct (request serve (VStr endpoint) st) as [out st1] eqn:Hreq.
  destruct (request_exchange _ _ _ _ Hreq) as (reply & Hn & _ & _ & Hout).
  apply new_exchanges_app in Hn.
  assert (Hfallback :
            truthy (VStr ("Record " +:+ to_string id)) = true
            /\ (@None (string * string * string) = None ->
                VStr ("Record " +:+ to_string id) = VStr ("Record " +:+ to_string id) /\ st1 = st1)
            /\ exists name, VStr ("Record " +:+ to_string id) = VStr name /\ name <> "").
  { split; [reflexivity|]. split; [done|].
    eexists. split; [reflexivity|apply fallback_name_nonempty]. }
  destruct Hfallback as (Hft & _ & Hfn).
  destruct reply as [response|reason]; subst out.
  - unfold lift. destruct (record_name dataKey labelField response) as [v|e] eqn:Hname.
    + exists v, st1. rewrite Hn. split; [reflexivity|].
      unfold record_name, rbind in Hname.
      destruct (get response dataKey) as [record|] eqn:Hrecord; [|discriminate].
      split; [by eapply record_label_truthy|]. split; [discriminate|].
      split; [by intros req reason [[=]|[]]|].
      intros Htext. eapply record_label_text; [exact Hname|].
      eapply Htext; [reflexivity| |exact Hrecord]. by left.
    + exists (VStr ("Record " +:+ to_string id)), st1. rewrite Hn.
      repeat split; try done.
  - exists (VStr ("Record " +:+ to_string id)), st1. rewrite Hn.
    repeat split; try done.
Qed.

(** C10.  Called with a string for [targetType], [fetchSingleRecordName]
    always returns, with a truthy value, and never throws.  For an
    unrecognized target type no request is made and the value is the string
    "Record <id>"; when the request is rejected the value is that same
    string.  When the label field and the title of the record are strings
    or missing, the value is a non-empty string. *)
Theorem fetchSingleRecordName_total targetType id (st : State Srv) :
  exists v st',
    fetchSingleRecordName_call serve (VStr targetType) id st = (Returns v, st')
    /\ truthy v = true
    /\ (single_record_route targetType id = None ->
        v = VStr ("Record " +:+ to_string id) /\ st' = st)
    /\ (forall req reason, In (req, inr reason) (new_exchanges st st') ->
        v = VStr ("Record " +:+ to_string id))
    /\ ((forall endpoint dataKey labelField response record,
           single_record_route targetType id = Some (endpoint, dataKey, labelField) ->
           In (VStr endpoint, inl response) (new_exchanges st st') ->
           get response dataKey = Val record ->
           labels_are_text labelField record = true) ->
        exists name, v = VStr name /\ name <> "").
Proof. apply fetchSingleRecordName_string. Qed.

(** Called with anything but a string, the function throws before its
    [try] block, having sent nothing. *)
Lemma fetchSingleRecordName_call_throws targetType id (st : State Srv) :
  (forall name, targetType <> VStr name) ->
  exists e, fetchSingleRecordName_call serve targetType id st = (Throws e, st).
Proof.
  intros Hnot. destruct targetType as [| | | |name| |]; simpl; eauto.
  by destruct (Hnot name).
Qed.

(** ** Quiet computations *)

Lemma quiet_refl (st : State Srv) : quiet st st.
Proof. split; [exists []; by rewrite app_nil_r|auto]. Qed.

Lemma quiet_trans (st1 st2 st3 : State Srv) : quiet st1 st2 -> quiet st2 st3 -> quiet st1 st3.
Proof.
  intros ((l1 & Hn1) & Hc1 & Hk1) ((l2 & Hn2) & Hc2 & Hk2).
  split; [exists (l1 ++ l2); by rewrite Hn2, Hn1, app_assoc|].
  split; congruence.
Qed.

Lemma quiet_ret {A} (a : A) : quiet_computation (ret (Srv:=Srv) a).
Proof. intros st out st' [= <- <-]. apply quiet_refl. Qed.

Lemma quiet_gets {A} (f : State Srv -> A) : quiet_computation (gets f).
Proof. intros st out st' [= <- <-]. apply quiet_refl. Qed.

Lemma quiet_lift {A} (r : result A) : quiet_computation (lift (Srv:=Srv) r).
Proof. intros st out st'. unfold lift. destruct r; intros [= <- <-]; apply quiet_refl. Qed.

Lemma quiet_modify (f : State Srv -> State Srv) :
  (forall st, quiet st (f st)) -> quiet_computation (modify f).
Proof. intros Hf st out st' [= <- <-]. apply Hf. Qed.

Lemma quiet_bind {A B} (m : M Srv A) (k : A -> M Srv B) :
  quiet_computation m -> (forall a, quiet_computation (k a)) -> quiet_computation (bind m k).
Proof.
  intros Hm Hk st out st'. unfold bind.
  destruct (m st) as [o st1] eqn:Hrun. specialize (Hm _ _ _ Hrun).
  destruct o as [a|e|].
  - intros H. eapply quiet_trans; [exact Hm|]. eapply Hk, H.
  - by intros [= <- <-].
  - by intros [= <- <-].
Qed.

Lemma quiet_try_catch {A} (body : M Srv A) (handler : exn -> M Srv A) :
  quiet_computation body -> (forall e, quiet_computation (handler e)) ->
  quiet_computation (try_catch body handler).
Proof.
  intros Hm Hh st out st'. unfold try_catch.
  destruct (body st) as [o st1] eqn:Hrun. specialize (Hm _ _ _ Hrun).
  destruct o as [a|e|].
  - by intros [= <- <-].
  - intros H. eapply quiet_trans; [exact Hm|]. eapply Hh, H.
  - by intros [= <- <-].
Qed.

Lemma quiet_display (f : State Srv -> State Srv) :
  (forall st, network (f st) = network st) ->
  (forall st, cachedLookupFields (f st) = cachedLookupFields st) ->
  (forall st, currentCoKey (f st) = currentCoKey st) ->
  forall st, quiet st (f st).
Proof.
  intros Hn Hc Hk st. split; [exists []; by rewrite Hn, app_nil_r|]. auto.
Qed.

Lemma quiet_request req : quiet_computation (request serve req).
Proof.
  intros st out st' H. destruct (request_exchange _ _ _ _ H) as (reply & Hn & Hc & Hk & _).
  split; eauto.
Qed.

(** Whatever the service answers, a pass of the loop records exactly one
    exchange, for the endpoint it was given. *)
Lemma iteration_exchange dataKey cb acc ep (st : State Srv) r st1 :
  display_only cb ->
  fetchAllPages_iteration serve dataKey cb acc ep st = (r, st1) ->
  exists reply,
    network st1 = network st ++ [(ep, reply)]
    /\ cachedLookupFields st1 = cachedLookupFields st
    /\ currentCoKey st1 = currentCoKey st.
Proof.
  intros Hcb. unfold fetchAllPages_iteration, client_request.
  destruct (serve ep (remote st)) as [reply srv']. intros H. exists reply.
  destruct reply as [response|reason]; [|by injection H as <- <-].
  destruct (get response dataKey) as [items|]; [|by injection H as <- <-].
  set (st0 := mkState _ _ _ _ _ _ _ _ _ _ _ _) in *.
  assert (Hq : network (run_callback cb (length (concat acc items)) st0) = network st0
               /\ cachedLookupFields (run_callback cb (length (concat acc items)) st0)
                  = cachedLookupFields st0
               /\ currentCoKey (run_callback cb (length (concat acc items)) st0) = currentCoKey st0).
  { destruct (run_callback_advanced cb (length (concat acc items)) st0 Hcb)
      as (Hn & _ & _ & Hc & Hk). rewrite app_nil_r in Hn. auto. }
  destruct Hq as (Hn & Hc & Hk).
  destruct (truthy items); destruct (next_link response); injection H as <- <-; simpl;
    rewrite ?Hn, ?Hc, ?Hk; auto.
Qed.

Lemma quiet_loop fuel dataKey cb acc ep :
  display_only cb -> quiet_computation (fetchAllPages_loop serve fuel dataKey cb acc ep).
Proof.
  intros Hcb. revert acc ep. induction fuel as [|fuel IH]; intros acc ep st out st'; simpl.
  - destruct (truthy ep); intros [= <- <-]; apply quiet_refl.
  - destruct (truthy ep); [|intros [= <- <-]; apply quiet_refl].
    destruct (fetchAllPages_iteration serve dataKey cb acc ep st) as [[acc' next] st1] eqn:Hit.
    destruct (iteration_exchange _ _ _ _ _ _ _ Hcb Hit) as (reply & Hn & Hc & Hk).
    intros H. eapply quiet_trans; [|eapply IH, H]. split; eauto.
Qed.

Lemma quiet_fetchAllPages fuel ep dataKey cb :
  display_only cb -> quiet_computation (fetchAllPages serve fuel ep dataKey cb).
Proof. apply quiet_loop. Qed.

(** A read that is given a truthy endpoint and allowed at least one pass
    asks that endpoint first, however it ends. *)
Lemma fetchAllPages_first_pass fuel ep dataKey cb (st : State Srv) out st' :
  display_only cb ->
  truthy ep = true ->
  fetchAllPages serve (S fuel) ep dataKey cb st = (out, st') ->
  exists reply rest, network st' = network st ++ (ep, reply) :: rest.
Proof.
  intros Hcb Hep. unfold fetchAllPages. simpl. rewrite Hep.
  destruct (fetchAllPages_iteration serve dataKey cb [] ep st) as [[acc' next] st1] eqn:Hit.
  destruct (iteration_exchange _ _ _ _ _ _ _ Hcb Hit) as (reply & Hn & _).
  intros Hloop. destruct (quiet_loop _ _ _ _ _ Hcb _ _ _ Hloop) as ((rest & Hn') & _).
  exists reply, rest. by rewrite Hn', Hn, <- app_assoc.
Qed.

(** A read of a truthy endpoint that is allowed no pass does not return. *)
Lemma fetchAllPages_no_pass ep dataKey cb (st : State Srv) :
  truthy ep = true -> fetchAllPages serve 0 ep dataKey cb st = (Diverges, st).
Proof. intros Hep. unfold fetchAllPages. simpl. by rewrite Hep. Qed.

Lemma display_only_none : display_only (Srv:=Srv) None.
Proof. intros callback n st H. discriminate H. Qed.

Lemma display_only_loader (text : nat -> string) :
  display_only (Srv:=Srv) (Some (fun n => updateLoaderText (text n))).
Proof. intros callback n st [= <-]. simpl. auto. Qed.

(** One step of a proof that a computation is quiet, chosen by the shape of
    the computation. *)
Ltac quiet_step :=
  lazymatch goal with
  | |- quiet_computation (bind _ _) => apply quiet_bind; [|intros ?]
  | |- quiet_computation (try_catch _ _) => apply quiet_try_catch; [|intros ?]
  | |- quiet_computation (request _ _) => apply quiet_request
  | |- quiet_computation (lift _) => apply quiet_lift
  | |- quiet_computation (gets _) => apply quiet_gets
  | |- quiet_computation (ret _) => apply quiet_ret
  | |- quiet_computation (modify _) => apply quiet_modify, quiet_display; reflexivity
  | |- quiet_computation (fetchAllPages _ _ _ _ (Some _)) =>
      apply quiet_fetchAllPages, display_only_loader
  | |- quiet_computation (fetchAllPages _ _ _ _ None) =>
      apply quiet_fetchAllPages, display_only_none
  end.

Lemma quiet_loadTable fuel coKey : quiet_computation (loadTable serve fuel coKey).
Proof. unfold loadTable. repeat quiet_step. Qed.

(** ** Deleting a record *)

(** When the operator accepts the dialog, the first thing sent is the DELETE
    request for that record of the selected object. *)
Lemma deleteRecord_confirmed_sends_delete fuel recordId (st : State Srv) out st' :
  operator (confirm_delete_message recordId) = true ->
  deleteRecord serve operator fuel recordId st = (out, st') ->
  exists reply rest,
    network st' = network st ++ (delete_request (currentCoKey st) recordId, reply) :: rest.
Proof.
  intros Hyes. unfold deleteRecord. rewrite Hyes.
  unfold bind at 1 2, modify at 1 2, try_catch, bind at 1 2, gets at 1.
  set (st0 := switchView "loader" _).
  change (currentCoKey st0) with (currentCoKey st).
  destruct (request serve (delete_request (currentCoKey st) recordId) st0) as [o st1] eqn:Hreq.
  destruct (request_exchange _ _ _ _ Hreq) as (reply & Hn & _ & _ & Hout).
  change (network st0) with (network st) in Hn.
  destruct reply as [response|reason]; subst o.
  - unfold bind, gets.
    destruct (loadTable serve fuel (currentCoKey st1) st1) as [o2 st2] eqn:Hload.
    destruct (quiet_loadTable _ _ _ _ _ Hload) as ((rest & Hn2) & _).
    assert (Hnet : network st2
                   = network st ++ (delete_request (currentCoKey st) recordId, inl response) :: rest).
    { by rewrite Hn2, Hn, <- app_assoc. }
    destruct o2 as [[]|e|].
    + intros [= <- <-]. eauto.
    + unfold modify. intros [= <- <-]. simpl. eauto.
    + intros [= <- <-]. eauto.
  - unfold bind, modify. intros [= <- <-]. simpl. exists (inr reason), []. exact Hn.
Qed.

(** C5.  In every execution of [deleteRecord] in which the operator does not
    accept the confirmation dialog, nothing happens: the function returns,
    no request (in particular no DELETE) is sent, and the remote state and
    the whole program state are as before. *)
Theorem deleteRecord_requires_confirmation fuel recordId (st : State Srv) out st' :
  operator (confirm_delete_message recordId) = false ->
  deleteRecord serve operator fuel recordId st = (out, st') ->
  out = Returns tt
  /\ st' = st
  /\ new_exchanges st st' = []
  /\ remote st' = remote st
  /\ forall req reply, In (req, reply) (network st') -> is_delete req = true ->
       In (req, reply) (network st).
Proof.
  intros Hno. unfold deleteRecord. rewrite Hno. intros [= <- <-].
  rewrite new_exchanges_refl. auto.
Qed.

(** ** The discovery cache *)

Lemma quiet_scan_block fuel endpoint dataKey target entry warning fields :
  quiet_computation (scan_block serve fuel endpoint dataKey target entry warning fields).
Proof.
  intros st out st'. unfold scan_block.
  destruct (fetchAllPages serve fuel (VStr endpoint) dataKey None st) as [o st1] eqn:Hrun.
  pose proof (quiet_fetchAllPages _ _ _ _ display_only_none _ _ _ Hrun) as Hq.
  destruct o as [records|e|].
  - destruct (collect_lookups target entry records fields) as [fields' [e|]];
      intros [= <- <-]; [|exact Hq].
    eapply quiet_trans; [exact Hq|]. by apply quiet_display.
  - intros [= <- <-]. eapply quiet_trans; [exact Hq|]. by apply quiet_display.
  - by intros [= <- <-].
Qed.

Lemma scan_block_first_pass fuel endpoint dataKey target entry warning fields
  (st : State Srv) out st' :
  truthy (VStr endpoint) = true ->
  scan_block serve (S fuel) endpoint dataKey target entry warning fields st = (out, st') ->
  exists reply rest, network st' = network st ++ (VStr endpoint, reply) :: rest.
Proof.
  intros Hep. unfold scan_block.
  destruct (fetchAllPages serve (S fuel) (VStr endpoint) dataKey None st) as [o st1] eqn:Hrun.
  destruct (fetchAllPages_first_pass _ _ _ _ _ _ _ display_only_none Hep Hrun)
    as (reply & rest & Hn).
  destruct o as [records|e|].
  - destruct (collect_lookups target entry records fields) as [fields'' [e|]];
      intros [= <- <-]; simpl; eauto.
  - intros [= <- <-]. simpl. eauto.
  - intros [= <- <-]. eauto.
Qed.

Lemma quiet_scan_custom_object fuel target obj fields :
  quiet_computation (scan_custom_object serve fuel target obj fields).
Proof.
  intros st out st'. unfold scan_custom_object.
  destruct (get obj "key") as [key|e] eqn:Hkey.
  2:{ intros [= <- <-]. apply quiet_refl. }
  destruct (fetchAllPages serve fuel _ "custom_object_fields" None st) as [o st1] eqn:Hrun.
  pose proof (quiet_fetchAllPages _ _ _ _ display_only_none _ _ _ Hrun) as Hq.
  destruct o as [coFields|e|].
  - destruct (collect_lookups target (co_field_entry obj) coFields fields) as [fields' [e|]];
      intros [= <- <-]; [|exact Hq].
    eapply quiet_trans; [exact Hq|]. by apply quiet_display.
  - intros [= <- <-]. eapply quiet_trans; [exact Hq|]. by apply quiet_display.
  - by intros [= <- <-].
Qed.

Lemma quiet_scan_custom_objects fuel target objs fields :
  quiet_computation (scan_custom_objects serve fuel target objs fields).
Proof.
  revert fields. induction objs as [|obj objs IH]; intros fields st out st'; simpl.
  - intros [= <- <-]. apply quiet_refl.
  - destruct (scan_custom_object serve fuel target obj fields st) as [o st1] eqn:Hrun.
    pose proof (quiet_scan_custom_object _ _ _ _ _ _ _ Hrun) as Hq.
    destruct o as [[fields' [e|]]|e|]; try (by intros [= <- <-]).
    intros H. eapply quiet_trans; [exact Hq|]. eapply IH, H.
Qed.

Lemma quiet_scan_all_custom_objects fuel target fields :
  quiet_computation (scan_all_custom_objects serve fuel target fields).
Proof.
  intros st out st'. unfold scan_all_custom_objects.
  destruct (fetchAllPages serve fuel _ "custom_objects" None st) as [o st1] eqn:Hrun.
  pose proof (quiet_fetchAllPages _ _ _ _ display_only_none _ _ _ Hrun) as Hq.
  destruct o as [customObjects|e|].
  - destruct (scan_custom_objects serve fuel target customObjects fields st1) as [o2 st2] eqn:Hrun2.
    pose proof (quiet_scan_custom_objects _ _ _ _ _ _ _ Hrun2) as Hq2.
    pose proof (quiet_trans _ _ _ Hq Hq2) as Hq3.
    destruct o2 as [[fields' [e|]]|e|]; intros [= <- <-]; try exact Hq3;
      (eapply quiet_trans; [exact Hq3|]; by apply quiet_display).
  - intros [= <- <-]. eapply quiet_trans; [exact Hq|]. by apply quiet_display.
  - by intros [= <- <-].
Qed.

(** A call that finds the cache filled returns it and does nothing else. *)
Lemma getLookupFields_cached fuel (st : State Srv) :
  truthy (cachedLookupFields st) = true ->
  getLookupFieldsForCurrentCo serve fuel st = (Returns (cachedLookupFields st), st).
Proof.
  intros H. unfold getLookupFieldsForCurrentCo, bind, gets. by rewrite H.
Qed.

(** A call that finds the cache empty and is allowed at least one pass per
    read scans: the first thing it does is to ask for the ticket fields,
    however the call ends. *)
Lemma getLookupFields_scans fuel (st : State Srv) out st' :
  truthy (cachedLookupFields st) = false ->
  getLookupFieldsForCurrentCo serve (S fuel) st = (out, st') ->
  exists reply rest,
    new_exchanges st st' = (VStr "/api/v2/ticket_fields.json", reply) :: rest.
Proof.
  intros Hcache. unfold getLookupFieldsForCurrentCo.
  unfold bind at 1, gets at 1. rewrite Hcache.
  unfold bind at 1, gets at 1.
  unfold bind at 1.
  destruct (scan_block serve (S fuel) "/api/v2/ticket_fields.json" _ _ _ _ _ st)
    as [o1 st1] eqn:H1.
  destruct (scan_block_first_pass fuel "/api/v2/ticket_fields.json" _ _ _ _ _ _ _ _ eq_refl H1)
    as (reply & rest1 & Hn1).
  destruct o1 as [f1|e|];
    [|intros [= <- <-]; exists reply, rest1; by apply new_exchanges_app..].
  unfold bind at 1.
  destruct (scan_block serve (S fuel) "/api/v2/user_fields.json" _ _ _ _ _ st1)
    as [o2 st2] eqn:H2.
  pose proof (quiet_scan_block _ _ _ _ _ _ _ _ _ _ H2) as ((l2 & Hn2) & _).
  destruct o2 as [f2|e|];
    [|intros [= <- <-]; exists reply, (rest1 ++ l2); apply new_exchanges_app;
      by rewrite Hn2, Hn1, <- app_assoc..].
  unfold bind at 1.
  destruct (scan_block serve (S fuel) "/api/v2/organization_fields.json" _ _ _ _ _ st2)
    as [o3 st3] eqn:H3.
  pose proof (quiet_scan_block _ _ _ _ _ _ _ _ _ _ H3) as ((l3 & Hn3) & _).
  destruct o3 as [f3|e|];
    [|intros [= <- <-]; exists reply, (rest1 ++ l2 ++ l3); apply new_exchanges_app;
      by rewrite Hn3, Hn2, Hn1, <- !app_assoc..].
  unfold bind at 1.
  destruct (scan_all_custom_objects serve (S fuel) _ f3 st3) as [o4 st4] eqn:H4.
  pose proof (quiet_scan_all_custom_objects _ _ _ _ _ _ H4) as ((l4 & Hn4) & _).
  destruct o4 as [f4|e|]; intros [= <- <-];
    exists reply, (rest1 ++ l2 ++ l3 ++ l4); apply new_exchanges_app; simpl;
    by rewrite Hn4, Hn3, Hn2, Hn1, <- !app_assoc.
Qed.

(** A call that finds the cache empty and returns has stored what it
    returns, an array, and has left the selected key alone. *)
Lemma getLookupFields_stores fuel (st : State Srv) fields st' :
  truthy (cachedLookupFields st) = false ->
  getLookupFieldsForCurrentCo serve fuel st = (Returns fields, st') ->
  cachedLookupFields st' = fields
  /\ truthy fields = true
  /\ currentCoKey st' = currentCoKey st.
Proof.
  intros Hcache. unfold getLookupFieldsForCurrentCo.
  unfold bind at 1, gets at 1. rewrite Hcache.
  unfold bind at 1, gets at 1.
  unfold bind at 1.
  destruct (scan_block serve fuel "/api/v2/ticket_fields.json" _ _ _ _ _ st) as [o1 st1] eqn:H1.
  destruct o1 as [f1|e|]; [|discriminate|discriminate].
  unfold bind at 1.
  destruct (scan_block serve fuel "/api/v2/user_fields.json" _ _ _ _ _ st1) as [o2 st2] eqn:H2.
  destruct o2 as [f2|e|]; [|discriminate|discriminate].
  unfold bind at 1.
  destruct (scan_block serve fuel "/api/v2/organization_fields.json" _ _ _ _ _ st2)
    as [o3 st3] eqn:H3.
  destruct o3 as [f3|e|]; [|discriminate|discriminate].
  unfold bind at 1.
  destruct (scan_all_custom_objects serve fuel _ f3 st3) as [o4 st4] eqn:H4.
  destruct o4 as [f4|e|]; [|discriminate|discriminate].
  unfold bind, modify, ret. intros [= <- <-]. simpl.
  pose proof (quiet_scan_block _ _ _ _ _ _ _ _ _ _ H1) as (_ & _ & Hk1).
  pose proof (quiet_scan_block _ _ _ _ _ _ _ _ _ _ H2) as (_ & _ & Hk2).
  pose proof (quiet_scan_block _ _ _ _ _ _ _ _ _ _ H3) as (_ & _ & Hk3).
  pose proof (quiet_scan_all_custom_objects _ _ _ _ _ _ H4) as (_ & _ & Hk4).
  split; [reflexivity|]. split; [reflexivity|]. congruence.
Qed.

(** The click handler empties the cache, whatever happens afterwards. *)
Lemma load_co_btn_click_resets fuel selectedKey selectedText (st : State Srv) out st' :
  selectedKey <> "" ->
  load_co_btn_click serve fuel selectedKey selectedText st = (out, st') ->
  cachedLookupFields st' = VNull /\ currentCoKey st' = VStr selectedKey.
Proof.
  intros Hkey. unfold load_co_btn_click.
  assert (Ht : truthy (VStr selectedKey) = true).
  { simpl. destruct (String.eqb_spec selectedKey ""); [contradiction|reflexivity]. }
  rewrite Ht. unfold bind at 1 2 3 4, modify, gets.
  set (st0 := set_cachedLookupFields VNull _).
  change (currentCoKey st0) with (VStr selectedKey).
  intros Hload. destruct (quiet_loadTable _ _ _ _ _ Hload) as (_ & Hc & Hk).
  rewrite Hc, Hk. auto.
Qed.

Lemma quiet_deleteRecord fuel recordId : quiet_computation (deleteRecord serve operator fuel recordId).
Proof.
  unfold deleteRecord. destruct (operator (confirm_delete_message recordId)); [|apply quiet_ret].
  repeat lazymatch goal with
         | |- quiet_computation (loadTable _ _ _) => apply quiet_loadTable
         | |- _ => quiet_step
         end.
Qed.

End DashboardProofs.

(** Witness for C2: three pages linked by cursors, the middle one without a
    data key. *)
Lemma fetchAllPages_concatenates_pages_witness :
  exists st',
    fetchAllPages (table_server three_pages) 3 (VStr "/records") "custom_object_records" None
      (initial_state tt)
    = (Returns [VNum 1; VNum 2; VNum 3], st')
    /\ console st' = [].
Proof.
  destruct (fetchAllPages_concatenates_pages (table_server three_pages)
              "custom_object_records" None (VStr "/records")
              [(VStr "/records",
                VObj [("custom_object_records", VArr [VNum 1; VNum 2]);
                      ("meta", VObj [("has_more", VBool true)]);
                      ("links", VObj [("next", VStr "/records?cursor=a")])]);
               (VStr "/records?cursor=a",
                VObj [("meta", VObj [("has_more", VBool true)]);
                      ("links", VObj [("next", VStr "/records?cursor=b")])]);
               (VStr "/records?cursor=b",
                VObj [("custom_object_records", VArr [VNum 3]);
                      ("meta", VObj [("has_more", VBool false)]);
                      ("links", VObj [("next", VNull)])])]
              VNull tt 3 (initial_state tt)) as [(st' & Hrun & Hadv) _].
  - intros callback n st Hcb. discriminate Hcb.
  - repeat (eapply chain_page; [reflexivity | reflexivity | reflexivity | ]).
    apply chain_done.
  - reflexivity.
  - simpl. lia.
  - exists st'. split; [exact Hrun|].
    destruct Hadv as (_ & _ & Hc & _). exact Hc.
Defined.

(** Counterexample to C1 as stated: the request for the second page of
    ticket fields is rejected, yet the read does not fail; the caller gets
    the two records of the first page as if the list were complete. *)
Lemma fetchAllPages_page_error_cex :
  let run := fetchAllPages (table_server broken_second_page) 10
               (VStr "/api/v2/ticket_fields.json") "ticket_fields" None (initial_state tt) in
  In (VStr "/api/v2/ticket_fields.json?page=2", inr (VStr "503")) (network (snd run))
  /\ fst run = Returns [VObj [("id", VNum 1)]; VObj [("id", VNum 2)]]
  /\ ~ (exists e, fst run = Throws e).
Proof.
  vm_compute. split; [right; left; reflexivity|].
  split; [reflexivity|]. intros [e He]. discriminate He.
Qed.

(** Witness for C1 (as the code has it), on the same service. *)
Lemma fetchAllPages_page_error_returns_partial_witness :
  exists st',
    fetchAllPages (table_server broken_second_page) 2
      (VStr "/api/v2/ticket_fields.json") "ticket_fields" None (initial_state tt)
    = (Returns [VObj [("id", VNum 1)]; VObj [("id", VNum 2)]], st')
    /\ console st'
       = [("error", "Error fetching paginated data from /api/v2/ticket_fields.json?page=2:")].
Proof.
  destruct (fetchAllPages_page_error_returns_partial (table_server broken_second_page)
              "ticket_fields" None (VStr "/api/v2/ticket_fields.json")
              [(VStr "/api/v2/ticket_fields.json",
                VObj [("ticket_fields", VArr [VObj [("id", VNum 1)]; VObj [("id", VNum 2)]]);
                      ("next_page", VStr "/api/v2/ticket_fields.json?page=2")])]
              (VStr "/api/v2/ticket_fields.json?page=2") (VStr "503") tt tt 2 (initial_state tt))
    as (st' & Hrun & _ & _ & Hc).
  - intros callback n st Hcb. discriminate Hcb.
  - eapply chain_page; [reflexivity | reflexivity | reflexivity | apply chain_done].
  - reflexivity.
  - reflexivity.
  - simpl. lia.
  - exists st'. split; [exact Hrun | exact Hc].
Defined.


(** Witness for C10: the name of user 7. *)
Lemma fetchSingleRecordName_total_witness :
  exists name,
    fst (fetchSingleRecordName_call (table_server directory) (VStr "zen:user") (VNum 7)
           (initial_state tt))
    = Returns (VStr name)
    /\ name <> "".
Proof.
  destruct (fetchSingleRecordName_total (table_server directory) "zen:user" (VNum 7)
              (initial_state tt)) as (v & st' & Hrun & _ & _ & _ & Htext).
  vm_compute in Hrun. injection Hrun as <- <-.
  destruct Htext as (name & Hname & Hne).
  - intros endpoint dataKey labelField response record Hroute Hin Hget.
    vm_compute in Hroute. injection Hroute as <- <- <-.
    destruct Hin as [Hin|[]]. injection Hin as <-.
    vm_compute in Hget. injection Hget as <-. reflexivity.
  - exists name. split; [by rewrite <- Hname|exact Hne].
Defined.

(** The claim as stated fails at both ends.  With [undefined] for the
    target type, which [showForm] passes for a lookup field that has no
    [relationship_target_type], the call throws instead of answering
    "Record 7", and nothing is sent.  And for a record whose name is the
    number 5 the value returned is that number, not a string. *)
Lemma fetchSingleRecordName_total_cex :
  fetchSingleRecordName_call (table_server directory) VUndefined (VNum 7) (initial_state tt)
  = (Throws (TypeError "Cannot read properties of undefined (reading 'startsWith')"),
     initial_state tt)
  /\ fst (fetchSingleRecordName_call (table_server numbered_user) (VStr "zen:user") (VNum 7)
            (initial_state tt))
     = Returns (VNum 5).
Proof. split; vm_compute; reflexivity. Qed.

(** Witness for C9: of the four users found, the suspended one and the
    inactive one are left out. *)
Lemma searchLookupData_shows_only_active_witness :
  exists kept,
    fst (searchLookupData (table_server directory) "zen:user" "a" (initial_state tt))
    = Returns [VObj [("id", VNum 7); ("label", VStr "Ada")];
               VObj [("id", VNum 10); ("label", VStr "Record 10")]]
    /\ length kept = 2
    /\ Forall shown kept.
Proof.
  destruct (searchLookupData_shows_only_active (table_server directory) "zen:user" "a"
              (initial_state tt)) as (entries & kept & st' & Hrun & Hmap & Hshown & _).
  vm_compute in Hrun. injection Hrun as <- <-.
  exists kept. split; [reflexivity|]. split; [|exact Hshown].
  apply Forall2_length in Hmap. exact Hmap.
Defined.

(** Witness for C5: the operator declines, and the service, which counts
    the deletions it performs, has performed none. *)
Lemma deleteRecord_requires_confirmation_witness :
  let run := deleteRecord counting_server (fun _ => false) 5 (VNum 42) (car_selected 0) in
  fst run = Returns tt
  /\ snd run = car_selected 0
  /\ new_exchanges (car_selected 0) (snd run) = []
  /\ remote (snd run) = 0.
Proof.
  intros run.
  destruct (deleteRecord_requires_confirmation counting_server (fun _ => false) 5 (VNum 42)
              (car_selected 0) (fst run) (snd run) eq_refl (surjective_pairing run))
    as (Hout & Hst & Hnew & Hremote & _).
  split; [exact Hout|]. split; [exact Hst|]. split; [exact Hnew|]. exact Hremote.
Defined.

(** ** The discovery cache while other handlers run *)

Section AsyncProofs.
Context {Srv : Type}.
Variable serve : value -> Srv -> (value + value) * Srv.
Variable others : State Srv -> State Srv.

(** The handlers that run while a request is pending select no object and
    do not touch the cache; what they send is added to the log. *)
Hypothesis others_quiet : forall st, quiet st (others st).
























End AsyncProofs.

(** ** When nothing else happens

    With an idle page the functions of [Async] are those of [Dashboard]. *)

Section AsyncIdle.
Context {Srv : Type}.
Variable serve : value -> Srv -> (value + value) * Srv.

Lemma client_request_idle req (st : State Srv) :
  Async.client_request serve Async.idle req st = client_request serve req st.
Proof. unfold Async.client_request. by destruct (client_request serve req st). Qed.

Lemma fetchAllPages_iteration_idle dataKey cb acc ep (st : State Srv) :
  Async.fetchAllPages_iteration serve Async.idle dataKey cb acc ep st
  = fetchAllPages_iteration serve dataKey cb acc ep st.
Proof.
  unfold Async.fetchAllPages_iteration, fetchAllPages_iteration.
  by rewrite client_request_idle.
Qed.

Lemma fetchAllPages_idle fuel ep dataKey cb (st : State Srv) :
  Async.fetchAllPages serve Async.idle fuel ep dataKey cb st
  = fetchAllPages serve fuel ep dataKey cb st.
Proof.
  unfold Async.fetchAllPages, fetchAllPages. generalize (@nil value) as acc.
  revert ep st. induction fuel as [|fuel IH]; intros ep st acc; simpl; [reflexivity|].
  destruct (truthy ep); [|reflexivity]. rewrite fetchAllPages_iteration_idle.
  destruct (fetchAllPages_iteration serve dataKey cb acc ep st) as [[acc' next] st1].
  apply IH.
Qed.

Lemma scan_block_idle fuel endpoint dataKey target entry warning fields (st : State Srv) :
  Async.scan_block serve Async.idle fuel endpoint dataKey target entry warning fields st
  = scan_block serve fuel endpoint dataKey target entry warning fields st.
Proof. unfold Async.scan_block, scan_block. by rewrite fetchAllPages_idle. Qed.

Lemma scan_custom_object_idle fuel target obj fields (st : State Srv) :
  Async.scan_custom_object serve Async.idle fuel target obj fields st
  = scan_custom_object serve fuel target obj fields st.
Proof.
  unfold Async.scan_custom_object, scan_custom_object.
  destruct (get obj "key"); [|reflexivity]. by rewrite fetchAllPages_idle.
Qed.

Lemma scan_custom_objects_idle fuel target objs :
  forall fields (st : State Srv),
  Async.scan_custom_objects serve Async.idle fuel target objs fields st
  = scan_custom_objects serve fuel target objs fields st.
Proof.
  induction objs as [|obj objs IH]; intros fields st; simpl; [reflexivity|].
  rewrite scan_custom_object_idle.
  destruct (scan_custom_object serve fuel target obj fields st) as [[[fields' [e|]]|e|] st1];
    try reflexivity.
  apply IH.
Qed.

Lemma scan_all_custom_objects_idle fuel target fields (st : State Srv) :
  Async.scan_all_custom_objects serve Async.idle fuel target fields st
  = scan_all_custom_objects serve fuel target fields st.
Proof.
  unfold Async.scan_all_custom_objects, scan_all_custom_objects.
  rewrite fetchAllPages_idle.
  destruct (fetchAllPages serve fuel _ "custom_objects" None st) as [[objs|e|] st1];
    try reflexivity.
  by rewrite scan_custom_objects_idle.
Qed.

Lemma getLookupFields_idle fuel (st : State Srv) :
  Async.getLookupFieldsForCurrentCo serve Async.idle fuel st
  = getLookupFieldsForCurrentCo serve fuel st.
Proof.
  unfold Async.getLookupFieldsForCurrentCo, getLookupFieldsForCurrentCo.
  cbv beta iota zeta delta [bind gets modify ret].
  destruct (truthy (cachedLookupFields st)); [reflexivity|].
  rewrite scan_block_idle.
  destruct (scan_block serve fuel "/api/v2/ticket_fields.json" _ _ _ _ _ st)
    as [[f1|e|] st1]; try reflexivity.
  rewrite scan_block_idle.
  destruct (scan_block serve fuel "/api/v2/user_fields.json" _ _ _ _ _ st1)
    as [[f2|e|] st2]; try reflexivity.
  rewrite scan_block_idle.
  destruct (scan_block serve fuel "/api/v2/organization_fields.json" _ _ _ _ _ st2)
    as [[f3|e|] st3]; try reflexivity.
  by rewrite scan_all_custom_objects_idle.
Qed.

End AsyncIdle.





(* ===================================================================== *)
(** * Properties of the migration toolkit *)
(* ===================================================================== *)

Import Toolkit.

(** ** Request executor *)

Section ExecutorProofs.
Context {Remote : Type}.
Variable respond : Request -> Remote -> Reply * Remote.
Variable default_wait : nat.

(** C6.  For every request that meets a stretch of rate-limit replies, the
    executor pauses after each for the advised duration (the default when
    none is advised) and submits the same request again; what follows is
    exactly the execution that would have started after the stretch, with
    the retry budget it had at the start.  In particular a request that
    succeeds after the stretch succeeds for the caller even with no retry
    budget at all. *)
Theorem rate_limit_retry_invisible request remote waits remote' attempts budget trace :
  rate_limited respond request remote waits remote' ->
  execute respond default_wait (length waits + attempts) budget request remote trace
  = execute respond default_wait attempts budget request remote'
      (trace ++ backoff default_wait request waits)
  /\ forall id remote'',
       respond request remote' = (Success id, remote'') ->
       execute respond default_wait (length waits + S attempts) 0 request remote trace
       = Some (inr id, remote'', trace ++ backoff default_wait request waits ++ [Sent request]).
Proof.
  intros Hlimited.
  assert (Hsame : forall attempts budget trace,
             execute respond default_wait (length waits + attempts) budget request remote trace
             = execute respond default_wait attempts budget request remote'
                 (trace ++ backoff default_wait request waits)).
  { clear attempts budget trace.
    induction Hlimited as [remote|remote retry_after remote1 waits remote' Hreply _ IH];
      intros attempts budget trace.
    - simpl. by rewrite app_nil_r.
    - simpl. rewrite Hreply, IH. by rewrite <- !app_assoc. }
  split; [apply Hsame|].
  intros id remote'' Hreply. rewrite Hsame. simpl. rewrite Hreply.
  by rewrite <- app_assoc.
Qed.

End ExecutorProofs.

(** Witness for C6: two rate-limit replies, the first advising three
    seconds, then success; the default wait is sixty seconds and the retry
    budget is empty. *)
Lemma rate_limit_retry_invisible_witness :
  execute busy_instance 60 3 0 (CreateField priority_lvl) 0 []
  = Some (inr 501%Z, 3,
          [Sent (CreateField priority_lvl); Slept 3;
           Sent (CreateField priority_lvl); Slept 60;
           Sent (CreateField priority_lvl)]).
Proof.
  apply (proj2 (rate_limit_retry_invisible busy_instance 60 (CreateField priority_lvl)
                  0 [Some 3; None] 2 0 0 []
                  (limited_again busy_instance _ 0 (Some 3) 1 [None] 2 eq_refl
                     (limited_again busy_instance _ 1 None 2 [] 2 eq_refl
                        (limited_none busy_instance _ 2))))
               501%Z 3 eq_refl).
Defined.

(** ** Dependency resolver and migration executor *)

Section EngineProofs.
Context {Remote : Type}.
Variable executor : Request -> Remote -> (Error + Z) * Remote.

Lemma order_fields_first missingFields missingForms i j field form :
  order missingFields missingForms !! i = Some (FieldEntry field) ->
  order missingFields missingForms !! j = Some (FormEntry form) ->
  i < j.
Proof.
  unfold order. intros Hi Hj.
  apply lookup_app_Some in Hi as [Hi|[_ Hi]].
  2:{ apply list_lookup_fmap_Some in Hi as (? & ? & ?). discriminate. }
  apply lookup_app_Some in Hj as [Hj|[Hj _]].
  { apply list_lookup_fmap_Some in Hj as (? & ? & ?). discriminate. }
  apply lookup_lt_Some in Hi. lia.
Qed.

Lemma resolve_in_range (ids : gmap Z Z) refs resolved :
  resolve ids refs = Some resolved ->
  Forall (fun id => exists source, ids !! source = Some id) resolved.
Proof.
  unfold resolve. intros H. apply mapM_Some in H.
  induction H as [|source id refs resolved Hid _ IH]; constructor; eauto.
Qed.

Lemma resolve_condition_in_range (ids : gmap Z Z) c c' :
  resolve_condition ids c = Some c' ->
  Forall (fun id => exists source, ids !! source = Some id) (condition_refs c').
Proof.
  unfold resolve_condition.
  destruct (ids !! condition_parent c) as [parent|] eqn:Hparent; [|discriminate].
  destruct (resolve ids (condition_children c)) as [children|] eqn:Hchildren; [|discriminate].
  intros [= <-]. unfold condition_refs. simpl.
  constructor; [eauto|]. by eapply resolve_in_range.
Qed.

(** Every identifier in a form payload is a value of the IdentifierMap. *)
Lemma form_payload_in_range (ids : gmap Z Z) form request :
  form_payload ids form = Some request ->
  Forall (fun id => exists source, ids !! source = Some id) (request_refs request).
Proof.
  unfold form_payload.
  destruct (resolve ids (form_field_ids form)) as [field_ids|] eqn:Hfields; [|discriminate].
  destruct (mapM (resolve_condition ids) (form_conditions form)) as [conditions|] eqn:Hconds;
    [|discriminate].
  intros [= <-]. simpl. apply Forall_app. split; [by eapply resolve_in_range|].
  apply mapM_Some in Hconds.
  induction Hconds as [|c c' cs cs' Hc _ IH]; cbn [flat_map]; [constructor|].
  apply Forall_app. split; [by eapply resolve_condition_in_range|exact IH].
Qed.

(** A form that refers to a field without a mapping has no payload. *)
Lemma form_payload_unresolved (ids : gmap Z Z) form ref :
  In ref (form_refs form) -> ids !! ref = None -> form_payload ids form = None.
Proof.
  unfold form_refs, form_payload. intros Hin Hnone.
  apply in_app_or in Hin as [Hin|Hin].
  - assert (Hres : resolve ids (form_field_ids form) = None).
    { apply mapM_None, Exists_exists. exists ref. split; [by apply list_elem_of_In|exact Hnone]. }
    by rewrite Hres.
  - apply in_flat_map in Hin as (c & Hc & Href).
    assert (Hres : mapM (resolve_condition ids) (form_conditions form) = None).
    { apply mapM_None, Exists_exists. exists c. split; [by apply list_elem_of_In|].
      unfold resolve_condition. destruct Href as [<-|Href]; [by rewrite Hnone|].
      destruct (ids !! condition_parent c); [|reflexivity].
      assert (Hch : resolve ids (condition_children c) = None).
      { apply mapM_None, Exists_exists. exists ref.
        split; [by apply list_elem_of_In|exact Hnone]. }
      by rewrite Hch. }
    rewrite Hres. by destruct (resolve ids (form_field_ids form)).
Qed.

Lemma created_field_ids_app l1 l2 :
  created_field_ids (l1 ++ l2) = created_field_ids l1 ++ created_field_ids l2.
Proof. unfold created_field_ids. apply flat_map_app. Qed.

Lemma submit_resolved (st : Run Remote) entry request kind learn :
  dependencies_resolved st ->
  Forall (fun id => In id (created_field_ids (submitted st))) (request_refs request) ->
  (forall id source id',
      learn id !! source = Some id' ->
      In id' (created_field_ids (submitted st ++ [(request, inr id)]))) ->
  dependencies_resolved (submit executor st entry request kind learn).
Proof.
  intros [Hmap Hsent] Hrefs Hlearn. unfold submit.
  destruct (executor request (target st)) as [result remote'].
  assert (Hsent' : forall i request' result',
             (submitted st ++ [(request, result)]) !! i = Some (request', result') ->
             Forall (fun id => In id (created_field_ids
                                        (take i (submitted st ++ [(request, result)]))))
               (request_refs request')).
  { intros i request' result' Hi. apply lookup_app_Some in Hi as [Hi|[Hlen Hi]].
    - rewrite take_app_le; [by eapply Hsent|].
      apply lookup_lt_Some in Hi. lia.
    - destruct (i - length (submitted st)) as [|k] eqn:Hk; [|by destruct k].
      injection Hi as <- <-.
      replace i with (length (submitted st)) by lia.
      by rewrite take_app_length. }
  destruct result as [e|id]; split; simpl; try exact Hsent'.
  - intros source id Hid. rewrite created_field_ids_app. apply in_or_app. left. by eapply Hmap.
  - intros source id' Hid. by eapply Hlearn.
Qed.

Lemma run_entry_resolved (st : Run Remote) entry :
  dependencies_resolved st -> dependencies_resolved (run_entry executor st entry).
Proof.
  intros Hst. destruct entry as [field|form]; simpl.
  - apply submit_resolved; [exact Hst|constructor|].
    intros id source id' Hid. rewrite created_field_ids_app. apply in_or_app.
    destruct (decide (source = field_source_id field)) as [->|Hne].
    + rewrite lookup_insert_eq in Hid. injection Hid as <-. right. simpl. auto.
    + rewrite lookup_insert_ne in Hid by congruence. left. by eapply (proj1 Hst).
  - destruct (form_payload (id_map st) form) as [request|] eqn:Hpayload.
    + apply submit_resolved; [exact Hst| |].
      * eapply Forall_impl; [by eapply form_payload_in_range|].
        intros id (source & Hid). by eapply (proj1 Hst).
      * intros id source id' Hid. rewrite created_field_ids_app. apply in_or_app. left.
        by eapply (proj1 Hst).
    + destruct Hst as [Hmap Hsent]. split; simpl; assumption.
Qed.

Lemma foldl_run_entry_resolved plan (st : Run Remote) :
  dependencies_resolved st -> dependencies_resolved (foldl (run_entry executor) st plan).
Proof.
  revert st. induction plan as [|entry plan IH]; intros st Hst; simpl; [exact Hst|].
  by apply IH, run_entry_resolved.
Qed.

Lemma run_resolved plan remote : dependencies_resolved (run executor plan remote).
Proof.
  apply foldl_run_entry_resolved. split; simpl.
  - intros source id Hid. by rewrite lookup_empty in Hid.
  - intros i request result Hi. by rewrite lookup_nil in Hi.
Qed.

(** A form whose dependency is unresolved is skipped without any request. *)
Lemma run_entry_unresolved (st : Run Remote) form ref :
  In ref (form_refs form) -> id_map st !! ref = None ->
  submitted (run_entry executor st (FormEntry form)) = submitted st
  /\ target (run_entry executor st (FormEntry form)) = target st
  /\ skipped (run_entry executor st (FormEntry form))
     = skipped st ++ [(FormEntry form, UnresolvedDependencyError)].
Proof.
  intros Hin Hnone. simpl. by rewrite (form_payload_unresolved _ _ _ Hin Hnone).
Qed.

(** C3.  In the plan the resolver builds, every field entry comes before
    every form entry, whatever the categories, hence every form comes after
    every field it refers to.  And in every run, of any plan, every field
    identifier in a submitted form payload is an identifier the target
    assigned to a field created earlier in the same run: no form is
    submitted with an unresolved or source-scoped reference.  A form that
    refers to a field without a mapping is skipped and nothing is
    submitted for it. *)
Theorem forms_follow_their_fields :
  (forall missingFields missingForms i j field form,
      order missingFields missingForms !! i = Some (FieldEntry field) ->
      order missingFields missingForms !! j = Some (FormEntry form) ->
      i < j)
  /\ (forall plan remote i name field_ids conditions result id,
        submitted (run executor plan remote) !! i
        = Some (CreateForm name field_ids conditions, result) ->
        In id (request_refs (CreateForm name field_ids conditions)) ->
        exists j field,
          j < i /\ submitted (run executor plan remote) !! j = Some (CreateField field, inr id))
  /\ (forall (st : Run Remote) form ref,
        In ref (form_refs form) -> id_map st !! ref = None ->
        submitted (run_entry executor st (FormEntry form)) = submitted st
        /\ target (run_entry executor st (FormEntry form)) = target st).
Proof.
  split; [apply order_fields_first|]. split.
  - intros plan remote i name field_ids conditions result id Hi Hid.
    destruct (run_resolved plan remote) as [_ Hsent].
    specialize (Hsent _ _ _ Hi). rewrite Forall_forall in Hsent.
    specialize (Hsent id (proj2 (list_elem_of_In _ _) Hid)).
    unfold created_field_ids in Hsent. apply in_flat_map in Hsent as ([request' result'] & Hin & Hcreated).
    apply list_elem_of_In, list_elem_of_lookup in Hin as (j & Hj).
    destruct request' as [field| |]; try destruct Hcreated.
    destruct result' as [e|id']; [destruct Hcreated|].
    destruct Hcreated as [->|[]].
    exists j, field. split.
    + apply lookup_lt_Some in Hj. rewrite length_take in Hj. lia.
    + rewrite lookup_take_Some in Hj. by destruct Hj.
  - intros st form ref Hin Hnone.
    destruct (run_entry_unresolved st form ref Hin Hnone) as (? & ? & _). auto.
Qed.

End EngineProofs.

(** ** Rollback engine *)

Section RollbackProofs.
Context {Remote : Type}.
Variable executor : Request -> Remote -> (Error + Z) * Remote.

Lemma newest_first_total : Total newest_first.
Proof. intros a b. unfold newest_first. lia. Qed.

Lemma newest_first_transitive : Transitive newest_first.
Proof. intros a b c. unfold newest_first. lia. Qed.

Lemma descending_antisymm : AntiSymm eq (fun x y : nat => y <= x).
Proof. intros x y ? ?. lia. Qed.

Lemma countdown_sorted N : StronglySorted (fun x y : nat => y <= x) (rev (seq 1 N)).
Proof.
  induction N as [|N IH]; [constructor|].
  rewrite seq_S, rev_unit. constructor; [exact IH|].
  apply Forall_forall. intros y Hy.
  apply list_elem_of_In, in_rev, in_seq in Hy. lia.
Qed.

(** Sorting a log whose sequence numbers are 1..N puts them in the order
    N, N-1, ..., 1. *)
Lemma sorted_log_counts_down (log : list RollbackLogEntry) N :
  map sequence_no log ≡ₚ seq 1 N ->
  map sequence_no (merge_sort newest_first log) = rev (seq 1 N).
Proof.
  intros Hperm.
  apply (@StronglySorted_unique nat (fun x y => y <= x) descending_antisymm).
  - apply (StronglySorted_fmap sequence_no newest_first); [auto|].
    apply (@StronglySorted_merge_sort _ newest_first _
             newest_first_transitive newest_first_total).
  - apply countdown_sorted.
  - change (map sequence_no (merge_sort newest_first log))
      with (sequence_no <$> merge_sort newest_first log).
    rewrite merge_sort_Permutation. etrans; [exact Hperm|]. apply Permutation_rev.
Qed.

Lemma foldl_delete_entry_sent (entries : list RollbackLogEntry) failed sent remote :
  map fst (snd (fst (foldl (delete_entry executor) (failed, sent, remote) entries)))
  = map fst sent ++ map delete_request entries.
Proof.
  revert failed sent remote.
  induction entries as [|entry entries IH]; intros failed sent remote; simpl.
  - by rewrite app_nil_r.
  - destruct (executor (delete_request entry) remote) as [result remote'].
    replace (map fst sent ++ delete_request entry :: map delete_request entries)
      with (map fst (sent ++ [(delete_request entry, result)]) ++ map delete_request entries)
      by (rewrite map_app, <- app_assoc; reflexivity).
    destruct result as [e|id]; [destruct (not_found e)|]; apply IH.
Qed.

(** With the confirmation token, the delete requests are those of the
    sorted log, in that order. *)
Lemma rollback_deletions (log : list RollbackLogEntry) remote :
  map fst (deletions (rollback executor confirmation_token log remote))
  = map delete_request (merge_sort newest_first log).
Proof.
  unfold rollback. rewrite decide_True by reflexivity.
  pose proof (foldl_delete_entry_sent (merge_sort newest_first log) [] [] remote) as Hsent.
  destruct (foldl (delete_entry executor) ([], [], remote) (merge_sort newest_first log))
    as [[failed sent] remote'].
  simpl in Hsent. by destruct failed.
Qed.

(** Without the token nothing is deleted and the engine stays [Idle]. *)
Lemma rollback_unconfirmed typed (log : list RollbackLogEntry) remote :
  typed <> confirmation_token ->
  rollback executor typed log remote = mkRollback [Idle] [] log remote.
Proof. intros H. unfold rollback. by rewrite decide_False. Qed.

(** What the loop over the sorted log leaves: the entries that could not
    be removed, the exchanges, and the instance after the last of them. *)
Lemma foldl_delete_entry_spec (entries : list RollbackLogEntry) :
  forall failed sent remote,
  exists results remote',
    length results = length entries
    /\ foldl (delete_entry executor) (failed, sent, remote) entries
       = (failed ++ not_removed entries results,
          sent ++ zip (map delete_request entries) results, remote')
    /\ executed executor remote (zip (map delete_request entries) results) remote'.
Proof.
  induction entries as [|entry entries IH]; intros failed sent remote.
  - exists [], remote. simpl. rewrite !app_nil_r. split_and!; [reflexivity..|constructor].
  - simpl. destruct (executor (delete_request entry) remote) as [result remote1] eqn:Hexec.
    set (failed1 := if removed result then failed else failed ++ [entry]).
    destruct (IH failed1 (sent ++ [(delete_request entry, result)]) remote1)
      as (results & remote' & Hlen & Hloop & Hrest).
    exists (result :: results), remote'. split; [simpl; by rewrite Hlen|]. split.
    + replace (match result with
               | inl e => if not_found e
                          then (failed, sent ++ [(delete_request entry, result)], remote1)
                          else (failed ++ [entry], sent ++ [(delete_request entry, result)],
                                remote1)
               | inr _ => (failed, sent ++ [(delete_request entry, result)], remote1)
               end)
        with (failed1, sent ++ [(delete_request entry, result)], remote1)
        by (subst failed1; destruct result as [e|id]; simpl; [by destruct (not_found e)|done]).
      rewrite Hloop. subst failed1. simpl. rewrite <- !app_assoc. simpl.
      destruct (removed result); [reflexivity|]. by rewrite <- app_assoc.
    + simpl. econstructor; [exact Hexec | exact Hrest].
Qed.

(** C4.  For a log whose entries carry the sequence numbers 1..N (in any
    order), the confirmed rollback takes the entries in the order N, N-1,
    ..., 1 and deletes the object of each through the Request Executor: it
    hands the executor one delete request per entry, in that order, each on
    the instance as the delete before it left it, and the instance it ends
    with is the one the last delete left.  It passes through [Confirming]
    and [RollingBack] and ends in [Done] with the log emptied when every
    object is gone (deleted, or found absent), and in [Failed], naming the
    entries whose delete failed and keeping the log, otherwise. *)
Theorem rollback_deletes_newest_first (log : list RollbackLogEntry) N remote :
  map sequence_no log ≡ₚ seq 1 N ->
  exists ordered results remote',
    ordered ≡ₚ log
    /\ map sequence_no ordered = rev (seq 1 N)
    /\ length results = length ordered
    /\ rollback executor confirmation_token log remote
       = mkRollback
           [Idle; Confirming; RollingBack; final_state (not_removed ordered results)]
           (zip (map delete_request ordered) results)
           (log_after (not_removed ordered results) log)
           remote'
    /\ map fst (deletions (rollback executor confirmation_token log remote))
       = map delete_request ordered
    /\ executed executor remote (zip (map delete_request ordered) results) remote'.
Proof.
  intros Hperm.
  destruct (foldl_delete_entry_spec (merge_sort newest_first log) [] [] remote)
    as (results & remote' & Hlen & Hloop & Hexec).
  exists (merge_sort newest_first log), results, remote'.
  split; [apply merge_sort_Permutation|].
  split; [by apply sorted_log_counts_down|].
  split; [exact Hlen|].
  split; [|split; [apply rollback_deletions | exact Hexec]].
  unfold rollback. rewrite decide_True by reflexivity. rewrite Hloop. simpl.
  by destruct (not_removed (merge_sort newest_first log) results).
Qed.

(** The log a run writes carries the sequence numbers 1..N in creation
    order. *)
Lemma submit_log_sequence (st : Run Remote) entry request kind learn :
  map sequence_no (rollback_log st) = seq 1 (length (rollback_log st)) ->
  map sequence_no (rollback_log (submit executor st entry request kind learn))
  = seq 1 (length (rollback_log (submit executor st entry request kind learn))).
Proof.
  intros Hst. unfold submit. destruct (executor request (target st)) as [[e|id] remote']; simpl;
    [exact Hst|].
  rewrite map_app, length_app, Hst. simpl.
  replace (length (rollback_log st) + 1) with (S (length (rollback_log st))) by lia.
  by rewrite seq_S.
Qed.

Lemma run_log_sequence plan remote :
  map sequence_no (rollback_log (run executor plan remote))
  = seq 1 (length (rollback_log (run executor plan remote))).
Proof.
  unfold run.
  assert (H : forall st : Run Remote,
             map sequence_no (rollback_log st) = seq 1 (length (rollback_log st)) ->
             map sequence_no (rollback_log (foldl (run_entry executor) st plan))
             = seq 1 (length (rollback_log (foldl (run_entry executor) st plan)))).
  { induction plan as [|entry plan IH]; intros st Hst; simpl; [exact Hst|].
    apply IH. destruct entry as [field|form]; simpl.
    - by apply submit_log_sequence.
    - destruct (form_payload (id_map st) form); [by apply submit_log_sequence|exact Hst]. }
  by apply H.
Qed.

(** Two arrangements of the same entries that list the same distinct
    sequence numbers are the same arrangement. *)
Lemma same_keys_same_order (l1 l2 : list RollbackLogEntry) :
  l1 ≡ₚ l2 ->
  map sequence_no l1 = map sequence_no l2 ->
  NoDup (map sequence_no l1) ->
  l1 = l2.
Proof.
  revert l2. induction l1 as [|a l1 IH]; intros l2 Hperm Hkeys Hnodup.
  - apply Permutation_nil in Hperm. by subst.
  - destruct l2 as [|b l2]; [discriminate|].
    simpl in Hkeys, Hnodup. injection Hkeys as Hab Hkeys.
    apply NoDup_cons in Hnodup as [Hnotin Hnodup].
    assert (a = b) as <-.
    { assert (Hin : a ∈ b :: l2) by (rewrite <- Hperm; left).
      apply elem_of_cons in Hin as [Heq|Hin]; [exact Heq|].
      exfalso. apply Hnotin. rewrite Hkeys.
      by apply (list_elem_of_fmap_2 sequence_no l2 a). }
    f_equal. apply IH; [by eapply Permutation_cons_inv|exact Hkeys|exact Hnodup].
Qed.

(** A confirmed rollback of the log a run wrote deletes what the run
    created in exactly the reverse order of creation. *)
Lemma rollback_reverses_run plan remote remote' :
  map fst (deletions (rollback executor confirmation_token
                        (rollback_log (run executor plan remote)) remote'))
  = map delete_request (rev (rollback_log (run executor plan remote))).
Proof.
  rewrite rollback_deletions. f_equal.
  pose proof (run_log_sequence plan remote) as Hseq.
  set (log := rollback_log (run executor plan remote)) in *.
  apply same_keys_same_order.
  - rewrite merge_sort_Permutation. apply Permutation_rev.
  - rewrite (sorted_log_counts_down log (length log)) by (by rewrite Hseq).
    by rewrite map_rev, Hseq.
  - rewrite (sorted_log_counts_down log (length log)) by (by rewrite Hseq).
    apply NoDup_ListNoDup, NoDup_rev, seq_NoDup.
Qed.

End RollbackProofs.

(** Witness for C4, on the scenario of the design: the run creates
    [priority_lvl] (sequence 1, id 501) and then "Main Form" (sequence 2,
    id 502); the rollback deletes the form and then the field, and leaves
    the instance without either. *)
Lemma rollback_deletes_newest_first_witness :
  let done := run instance_executor (order [priority_lvl] [main_form]) empty_instance in
  target done = (503%Z, [502%Z; 501%Z])
  /\ rollback instance_executor confirmation_token (rollback_log done) (target done)
     = mkRollback [Idle; Confirming; RollingBack; Done]
         [(DeleteEntity FormKind 502, inr 502%Z);
          (DeleteEntity (FieldKind TicketField) 501, inr 501%Z)]
         [] (503%Z, [])
  /\ exists ordered results remote',
       ordered ≡ₚ rollback_log done
       /\ map sequence_no ordered = [2; 1]
       /\ length results = length ordered
       /\ rollback instance_executor confirmation_token (rollback_log done) (target done)
          = mkRollback
              [Idle; Confirming; RollingBack; final_state (not_removed ordered results)]
              (zip (map delete_request ordered) results)
              (log_after (not_removed ordered results) (rollback_log done))
              remote'
       /\ map fst (deletions (rollback instance_executor confirmation_token
                                (rollback_log done) (target done)))
          = map delete_request ordered
       /\ executed instance_executor (target done)
            (zip (map delete_request ordered) results) remote'.
Proof.
  intros done. split; [vm_compute; reflexivity|]. split; [vm_compute; reflexivity|].
  apply (rollback_deletes_newest_first instance_executor (rollback_log done) 2 (target done)).
  vm_compute. reflexivity.
Defined.

(** Witness for C3, on the same scenario: the form is submitted with the
    identifier 501 the target gave to [priority_lvl], created just before. *)
Lemma forms_follow_their_fields_witness :
  submitted (run instance_executor (order [priority_lvl] [main_form]) empty_instance)
  = [(CreateField priority_lvl, inr 501%Z); (CreateForm "Main Form" [501%Z] [], inr 502%Z)]
  /\ exists j field,
       j < 1
       /\ submitted (run instance_executor (order [priority_lvl] [main_form]) empty_instance) !! j
          = Some (CreateField field, inr 501%Z).
Proof.
  split; [vm_compute; reflexivity|].
  apply (proj1 (proj2 (forms_follow_their_fields instance_executor))
           (order [priority_lvl] [main_form]) empty_instance 1 "Main Form" [501%Z] []
           (inr 502%Z) 501%Z).
  - vm_compute. reflexivity.
  - left. reflexivity.
Defined.

(** ** Plan serializer *)





(** In the other direction: a document that [read] accepts is exactly what
    [write] produces from the plan read. *)
Lemma read_rows_then_write rows done current plan :
  read_rows rows done current = inr plan ->
  write plan = write (close_field done current) ++ rows.
Proof.
  revert done current.
  induction rows as [|row rows IH]; intros done current; simpl.
  - intros [= <-]. by rewrite app_nil_r.
  - destruct row as [category key title type required source_id target_id
                    |value name position].
    + destruct (decide _) as [|_]; [discriminate|].
      intros Hread. rewrite (IH _ _ Hread).
      unfold close_field at 1, write. rewrite flat_map_app. simpl.
      by rewrite <- app_assoc.
    + destruct current as [field|]; [|discriminate].
      intros Hread. rewrite (IH _ _ Hread).
      unfold close_field, write. rewrite !flat_map_app. simpl.
      rewrite !app_nil_r, map_app. simpl.
      rewrite <- !app_assoc. simpl. by rewrite <- !app_assoc.
Qed.

Lemma write_read_round_trip rows plan : read rows = inr plan -> write plan = rows.
Proof. intros H. by rewrite (read_rows_then_write _ _ _ _ H). Qed.

(** A document whose first row is an option row is rejected. *)
Lemma read_rejects_dangling_option rows : dangling rows = true -> read rows = inl DanglingOptionError.
Proof. by destruct rows as [|[] rows]. Qed.

Lemma row_keys_write plan : row_keys (write plan) = map plan_key plan.
Proof.
  induction plan as [|field plan IH]; [reflexivity|].
  unfold write. cbn [flat_map]. fold (write plan).
  unfold row_keys. rewrite flat_map_app. fold (row_keys (write plan)). rewrite IH.
  unfold write_field. cbn [flat_map map]. 
  replace (flat_map _ (map _ (plan_options field))) with (@nil (Category * string));
    [reflexivity|].
  by induction (plan_options field).
Qed.

Lemma read_rows_accepts rows :
  forall done current,
  (current = None -> dangling rows = false) ->
  NoDup (map plan_key (close_field done current) ++ row_keys rows) ->
  exists plan, read_rows rows done current = inr plan.
Proof.
  induction rows as [|row rows IH]; intros done current Hfirst Hnodup; [by eexists|].
  destruct row as [category key title type required source_id target_id|value name position].
  - cbn [read_rows]. change (row_keys (FieldRow category key title type required source_id
                                         target_id :: rows))
      with ((category, key) :: row_keys rows) in Hnodup.
    destruct (decide _) as [Hin|_].
    { apply NoDup_app in Hnodup as (_ & Hfresh & _). destruct (Hfresh _ Hin). left. }
    apply IH; [discriminate|].
    unfold close_field at 1. cbn [option_list]. rewrite map_app, <- app_assoc. exact Hnodup.
  - cbn [read_rows]. destruct current as [field|]; [|by specialize (Hfirst eq_refl)].
    apply IH; [discriminate|].
    unfold close_field in *. rewrite map_app in *. exact Hnodup.
Qed.

(** A document with no dangling option row and no duplicate key is
    accepted, and writing the plan read from it gives the document back. *)
Lemma read_accepts rows :
  dangling rows = false ->
  NoDup (row_keys rows) ->
  exists plan, read rows = inr plan /\ write plan = rows.
Proof.
  intros Hfirst Hnodup.
  destruct (read_rows_accepts rows [] None (fun _ => Hfirst) Hnodup) as (plan & Hread).
  exists plan. split; [exact Hread | by apply write_read_round_trip].
Qed.

(* ===================================================================== *)
(** * Further properties of the dashboard *)
(* ===================================================================== *)

Import Views.

Section PaginationMore.
Context {Srv : Type}.
Variable serve : value -> Srv -> (value + value) * Srv.

(** X1.  The loop has no limit of its own: against a service whose every
    response names a further page, no number of passes is enough for
    [fetchAllPages] to return. *)
Theorem fetchAllPages_endless_pagination fuel ep dataKey cb (st : State Srv) :
  (forall req srv, exists response srv' next,
      serve req srv = (inl response, srv')
      /\ next_link response = Val next /\ truthy next = true) ->
  truthy ep = true ->
  exists st', fetchAllPages serve fuel ep dataKey cb st = (Diverges, st').
Proof.
  intros Hendless. unfold fetchAllPages. generalize (@nil value) as acc.
  revert ep st. induction fuel as [|fuel IH]; intros ep st acc Hep; simpl; rewrite Hep.
  - eauto.
  - unfold fetchAllPages_iteration, client_request.
    destruct (Hendless ep (remote st)) as (response & srv' & next & Hserve & Hnext & Htruthy).
    rewrite Hserve.
    destruct (next_link_get _ _ dataKey Hnext) as (items & Hitems). rewrite Hitems, Hnext.
    destruct (truthy items); by apply IH.
Qed.

End PaginationMore.

Lemma fetchAllPages_endless_pagination_witness :
  fst (fetchAllPages endless_server 50 (VStr "/records") "custom_object_records" None
         (initial_state tt)) = Diverges.
Proof.
  destruct (fetchAllPages_endless_pagination endless_server 50 (VStr "/records")
              "custom_object_records" None (initial_state tt)) as (st' & Hrun).
  - intros req []. exists (VObj [("custom_object_records", VArr [VNum 1]);
                                 ("next_page", VStr "/again")]), tt, (VStr "/again").
    repeat split.
  - reflexivity.
  - by rewrite Hrun.
Defined.

Section HandlersMore.
Context {Srv : Type}.
Variable serve : value -> Srv -> (value + value) * Srv.
Variable operator : string -> bool.

(** ** Frames *)

(** A component of the state that neither a request, nor a console message,
    nor the progress callback touches is left alone by the whole read. *)
Lemma fetchAllPages_loop_frame {A} (proj : State Srv -> A) fuel dataKey cb acc ep
  (st : State Srv) out st' :
  (forall req st, proj (snd (client_request serve req st)) = proj st) ->
  (forall level msg st, proj (console_log level msg st) = proj st) ->
  (forall n st, proj (run_callback cb n st) = proj st) ->
  fetchAllPages_loop serve fuel dataKey cb acc ep st = (out, st') ->
  proj st' = proj st.
Proof.
  intros Hreq Hlog Hcb. revert acc ep st.
  induction fuel as [|fuel IH]; intros acc ep st; simpl.
  - destruct (truthy ep); by intros [= <- <-].
  - destruct (truthy ep); [|by intros [= <- <-]].
    destruct (fetchAllPages_iteration serve dataKey cb acc ep st) as [[acc' next] st1] eqn:Hit.
    intros Hloop. rewrite (IH _ _ _ Hloop).
    unfold fetchAllPages_iteration in Hit. specialize (Hreq ep st).
    destruct (client_request serve ep st) as [[response|reason] st0]; simpl in Hreq.
    + destruct (get response dataKey) as [items|].
      * destruct (truthy items), (next_link response); injection Hit as <- <- <-;
          by rewrite ?Hlog, ?Hcb.
      * injection Hit as <- <- <-. by rewrite Hlog.
    + injection Hit as <- <- <-. by rewrite Hlog.
Qed.

Lemma client_request_frame {A} (proj : State Srv -> A) :
  (forall k t s c v l d cols con al net net' srv srv',
      proj (mkState k t s c v l d cols con al net srv)
      = proj (mkState k t s c v l d cols con al net' srv')) ->
  forall req st, proj (snd (client_request serve req st)) = proj st.
Proof.
  intros Hproj req st. unfold client_request.
  destruct (serve req (remote st)) as [reply srv']. simpl.
  destruct st. apply eq_sym, Hproj.
Qed.

(** ** [loadTable] *)

Lemma try_catch_never_throws {A} (body : M Srv A) (handler : exn -> M Srv A)
  (st : State Srv) e :
  (forall e st, exists a st', handler e st = (Returns a, st')) ->
  fst (try_catch body handler st) <> Throws e.
Proof.
  intros Hhandler. unfold try_catch. destruct (body st) as [[a|e'|] st1]; simpl; try discriminate.
  destruct (Hhandler e' st1) as (a & st' & ->). discriminate.
Qed.

Lemma loadTable_catches_all fuel coKey (st : State Srv) e :
  fst (loadTable serve fuel coKey st) <> Throws e.
Proof.
  unfold loadTable, bind at 1 2, modify at 1 2.
  apply try_catch_never_throws. intros e' st1. eexists _, _. reflexivity.
Qed.

(** X2.  [loadTable] never throws: everything after the first two writes to the
    loader runs inside [try], and the handler only logs and writes the
    error text.  Its callers ([deleteRecord], [handleFormSubmit], the click
    handler) therefore never reach their own [catch] because of it. *)
Theorem loadTable_never_throws fuel coKey (st : State Srv) e :
  fst (loadTable serve fuel coKey st) <> Throws e.
Proof. apply loadTable_catches_all. Qed.

(** X3.  When the request for the schema is rejected, [loadTable] asks for
    nothing else, writes the error text into the loader, which stays on
    screen, logs the error, and leaves the table and the stored schema as
    they were. *)
Theorem loadTable_schema_failure fuel coKey (st : State Srv) reason srv' :
  serve (VStr ("/api/v2/custom_objects/" +:+ to_string coKey +:+ "/fields")) (remote st)
  = (inr reason, srv') ->
  exists st',
    loadTable serve fuel coKey st = (Returns tt, st')
    /\ new_exchanges st st'
       = [(VStr ("/api/v2/custom_objects/" +:+ to_string coKey +:+ "/fields"), inr reason)]
    /\ activeView st' = "loader"
    /\ loaderText st' = "Error loading table data."
    /\ console st' = console st ++ [("error", "Error loading table data:")]
    /\ tableData st' = tableData st
    /\ currentSchema st' = currentSchema st.
Proof.
  intros Hserve.
  unfold loadTable, bind at 1 2, modify at 1 2, try_catch, bind at 1, request, client_request.
  simpl. rewrite Hserve. eexists. split; [reflexivity|].
  split; [|by simpl]. apply new_exchanges_app. reflexivity.
Qed.

(** X4.  A failure in the middle of the read of the records does not show: when
    the schema is read, a chain of pages is resolved and the request for the
    next page is rejected, [loadTable] renders the table with the records
    read so far and shows no error text; only the console has the error of
    the read. *)
Theorem loadTable_hides_page_failure fuel coKey (st : State Srv) schemaResponse srv0 schema
  columns exchanges failing reason srv1 srv' rows :
  serve (VStr ("/api/v2/custom_objects/" +:+ to_string coKey +:+ "/fields")) (remote st)
  = (inl schemaResponse, srv0) ->
  get schemaResponse "custom_object_fields" = Val schema ->
  schema_columns schema = Val columns ->
  page_chain serve
    (VStr ("/api/v2/custom_objects/" +:+ to_string coKey +:+ "/records?page[size]=100"))
    srv0 exchanges failing srv1 ->
  truthy failing = true ->
  serve failing srv1 = (inr reason, srv') ->
  map_records table_row
    (flat_map (fun x => page_items "custom_object_records" (snd x)) exchanges) = Val rows ->
  length exchanges < fuel ->
  exists st',
    loadTable serve fuel coKey st = (Returns tt, st')
    /\ activeView st' = "table"
    /\ tableData st' = rows
    /\ loaderText st' = "Rendering table..."
    /\ alerts st' = alerts st
    /\ console st'
       = console st
         ++ [("error", "Error fetching paginated data from " +:+ to_string failing +:+ ":")].
Proof.
  intros Hschema Hfields Hcolumns Hchain Hfailing Hreject Hrows Hfuel.
  unfold loadTable, bind at 1 2, modify at 1 2, try_catch, bind at 1, request, client_request.
  simpl. rewrite Hschema. unfold bind at 1, lift at 1. rewrite Hfields.
  unfold bind at 1, modify at 1.
  set (st1 := set_currentSchema schema _).
  set (cb := Some _).
  assert (Hcb : display_only (Srv:=Srv) cb) by apply display_only_loader.
  unfold bind at 1, fetchAllPages.
  replace fuel with (length exchanges + S (fuel - S (length exchanges))) by lia.
  destruct (loop_follows_chain serve "custom_object_records" cb _ _ _ _ _ Hcb Hchain
              (S (fuel - S (length exchanges))) [] st1 eq_refl)
    as (st2 & Hloop & Hn & Hr & Hc & _).
  pose proof Hloop as Hloop'.
  rewrite Hloop. simpl. rewrite Hfailing.
  rewrite <- Hr in Hreject.
  destruct (iteration_rejected serve "custom_object_records" cb
              (flat_map (fun x => page_items "custom_object_records" (snd x)) exchanges)
              failing st2 _ _ Hreject) as (st3 & Hit & Hn3 & Hr3 & Hc3).
  rewrite Hit, loop_finished by reflexivity.
  assert (Hframe : forall {A} (proj : State Srv -> A),
             (forall k t s c v l d cols con al net net' srv srv',
                 proj (mkState k t s c v l d cols con al net srv)
                 = proj (mkState k t s c v l d cols con al net' srv')) ->
             (forall level msg st, proj (console_log level msg st) = proj st) ->
             (forall n st, proj (run_callback cb n st) = proj st) ->
             proj st3 = proj st1).
  { intros A proj Hnet Hlog Hrun.
    assert (Hwhole : fetchAllPages_loop serve
                       (length exchanges + S (fuel - S (length exchanges)))
                       "custom_object_records" cb [] 
                       (VStr ("/api/v2/custom_objects/" +:+ to_string coKey
                              +:+ "/records?page[size]=100")) st1
                     = (Returns (flat_map (fun x => page_items "custom_object_records" (snd x))
                                   exchanges), st3)).
    { rewrite Hloop'. simpl. rewrite Hfailing, Hit. by apply loop_finished. }
    eapply fetchAllPages_loop_frame; [|exact Hlog|exact Hrun|exact Hwhole].
    by apply client_request_frame. }
  unfold bind at 1, modify at 1. unfold bind at 1, lift at 1. rewrite Hrows.
  unfold bind at 1, gets at 1.
  assert (Hs : currentSchema (updateLoaderText "Rendering table..." st3) = schema).
  { simpl. rewrite (Hframe _ currentSchema); done. }
  rewrite Hs. unfold bind at 1, lift at 1. rewrite Hcolumns.
  unfold bind, modify. eexists. split; [reflexivity|]. simpl.
  split; [reflexivity|]. split; [reflexivity|]. split; [reflexivity|].
  split.
  - rewrite (Hframe _ alerts); done.
  - rewrite Hc3, Hc. reflexivity.
Qed.

(** ** [deleteRecord] *)

(** X6.  When the operator confirms and the DELETE request is rejected, nothing
    else is sent: the table is not reloaded, an alert is shown, the error is
    logged and the table view comes back with the rows it had. *)
Theorem deleteRecord_rejected fuel recordId (st : State Srv) reason srv' :
  operator (confirm_delete_message recordId) = true ->
  serve (Dashboard.delete_request (currentCoKey st) recordId) (remote st) = (inr reason, srv') ->
  exists st',
    deleteRecord serve operator fuel recordId st = (Returns tt, st')
    /\ new_exchanges st st' = [(Dashboard.delete_request (currentCoKey st) recordId, inr reason)]
    /\ remote st' = srv'
    /\ alerts st' = alerts st ++ ["Failed to delete record."]
    /\ console st' = console st ++ [("error", "Error deleting record:")]
    /\ activeView st' = "table"
    /\ tableData st' = tableData st.
Proof.
  intros Hyes Hserve. unfold deleteRecord. rewrite Hyes.
  unfold bind at 1 2, modify at 1 2, try_catch, bind at 1, gets at 1, bind at 1,
    request, client_request.
  simpl. rewrite Hserve. eexists. split; [reflexivity|].
  split; [|by simpl]. apply new_exchanges_app. reflexivity.
Qed.

End HandlersMore.

Section DiscoveryMore.
Context {Srv : Type}.
Variable serve : value -> Srv -> (value + value) * Srv.

(** ** [searchLookupData] *)

Lemma filter_records_throws keep (records : list value) record e :
  In record records -> keep record = Exn e ->
  exists e', filter_records keep records = Exn e'.
Proof.
  intros Hin Hthrows. induction records as [|r records IH]; [destruct Hin|].
  simpl. unfold rbind. destruct Hin as [->|Hin].
  - rewrite Hthrows. eauto.
  - destruct (keep r) as [b|e0]; [|eauto].
    destruct (IH Hin) as (e' & ->). eauto.
Qed.

(** X7.  One malformed record spoils the whole search: when the array of records
    in the response holds a [null] (or [undefined]) entry, the filter
    callback throws on it, the exception is caught, and the result is the
    empty list, whatever the other records are. *)
Theorem searchLookupData_null_record targetType query (st : State Srv)
  endpoint dataKey labelField response srv' records record :
  lookup_search_route targetType query = Some (endpoint, dataKey, labelField) ->
  serve (VStr endpoint) (remote st) = (inl response, srv') ->
  get response dataKey = Val (VArr records) ->
  In record records ->
  record = VNull \/ record = VUndefined ->
  exists st',
    searchLookupData serve targetType query st = (Returns [], st')
    /\ console st' = console st ++ [("error", "Lookup Search Error:")].
Proof.
  intros Hroute Hserve Hget Hin Hnull.
  assert (Hthrows : exists e, lookup_visible record = Exn e).
  { destruct Hnull as [-> | ->]; eexists; reflexivity. }
  destruct Hthrows as (e & Hthrows).
  destruct (filter_records_throws lookup_visible records record e Hin Hthrows) as (e' & Hfilter).
  unfold searchLookupData. rewrite Hroute.
  unfold try_catch, bind at 1, request, client_request. rewrite Hserve.
  unfold lift, lookup_results, rbind. rewrite Hget. simpl. rewrite Hfilter.
  eexists. split; reflexivity.
Qed.

(** ** [getLookupFieldsForCurrentCo] *)

Lemma listed_mono dataKey (l l' : list (value * (value + value))) x :
  (forall p, In p l -> In p l') -> listed dataKey l x -> listed dataKey l' x.
Proof. intros Hincl (req & response & Hin & Hx). exists req, response. auto. Qed.

Lemma built_from_mono target entry dataKey (l l' : list (value * (value + value))) x :
  (forall p, In p l -> In p l') ->
  built_from target entry dataKey l x -> built_from target entry dataKey l' x.
Proof.
  intros Hincl (f & Hf & Hpoints & Hentry). exists f.
  split; [by eapply listed_mono|]. auto.
Qed.

(** What a pass of the loop adds to the records is what the response it
    received lists under the data key. *)
Lemma iteration_listed dataKey acc ep (st : State Srv) acc' next st1 :
  fetchAllPages_iteration serve dataKey None acc ep st = ((acc', next), st1) ->
  exists reply new,
    network st1 = network st ++ [(ep, reply)]
    /\ acc' = acc ++ new
    /\ Forall (listed dataKey [(ep, reply)]) new.
Proof.
  unfold fetchAllPages_iteration, client_request.
  destruct (serve ep (remote st)) as [reply srv']. intros H. exists reply.
  assert (Hnone : exists new,
             network (console_log "error"
                        ("Error fetching paginated data from " +:+ to_string ep +:+ ":")
                        (mkState (currentCoKey st) (currentCoTitle st) (currentSchema st)
                           (cachedLookupFields st) (activeView st) (loaderText st)
                           (tableData st) (tableColumns st) (console st) (alerts st)
                           (network st ++ [(ep, reply)]) srv'))
             = network st ++ [(ep, reply)]
             /\ acc = acc ++ new /\ Forall (listed dataKey [(ep, reply)]) new).
  { exists []. rewrite app_nil_r. split; [reflexivity|]. split; [reflexivity|constructor]. }
  destruct reply as [response|reason]; [|by injection H as <- _ <-].
  destruct (get response dataKey) as [items|] eqn:Hget; [|by injection H as <- _ <-].
  destruct (truthy items) eqn:Hitems.
  - assert (Hnew : Forall (listed dataKey [(ep, inl response)]) (concat [] items)).
    { apply Forall_forall. intros x Hx. exists ep, response. split; [by left|].
      unfold page_items. rewrite Hget, Hitems. by apply list_elem_of_In. }
    exists (concat [] items). rewrite <- concat_app.
    destruct (next_link response); injection H as <- _ <-; simpl; auto.
  - exists []. rewrite app_nil_r.
    destruct (next_link response); injection H as <- _ <-; simpl; auto.
Qed.

Lemma loop_listed fuel dataKey :
  forall acc ep (st : State Srv) records st',
  fetchAllPages_loop serve fuel dataKey None acc ep st = (Returns records, st') ->
  exists more new,
    network st' = network st ++ more
    /\ records = acc ++ new
    /\ Forall (listed dataKey more) new.
Proof.
  assert (Hnone : forall acc (st : State Srv),
             exists more new,
               network st = network st ++ more /\ acc = acc ++ new
               /\ Forall (listed dataKey more) new).
  { intros acc st. exists [], []. rewrite !app_nil_r. auto. }
  induction fuel as [|fuel IH]; intros acc ep st records st'; simpl.
  - destruct (truthy ep); [discriminate|]. intros [= <- <-]. apply Hnone.
  - destruct (truthy ep); [|intros [= <- <-]; apply Hnone].
    destruct (fetchAllPages_iteration serve dataKey None acc ep st) as [[acc' next] st1] eqn:Hit.
    destruct (iteration_listed _ _ _ _ _ _ _ Hit) as (reply & new1 & Hn1 & -> & Hnew1).
    intros Hloop. destruct (IH _ _ _ _ _ Hloop) as (more & new & Hn & -> & Hnew).
    exists ((ep, reply) :: more), (new1 ++ new).
    split; [by rewrite Hn, Hn1, <- app_assoc|]. split; [by rewrite app_assoc|].
    apply Forall_app. split.
    + eapply Forall_impl; [exact Hnew1|]. intros x. apply listed_mono.
      intros p [<-|[]]. by left.
    + eapply Forall_impl; [exact Hnew|]. intros x. apply listed_mono.
      intros p Hp. by right.
Qed.

Lemma fetchAllPages_listed fuel ep dataKey (st : State Srv) records st' :
  fetchAllPages serve fuel ep dataKey None st = (Returns records, st') ->
  exists more, network st' = network st ++ more /\ Forall (listed dataKey more) records.
Proof.
  intros Hrun. destruct (loop_listed _ _ _ _ _ _ _ Hrun) as (more & new & Hn & -> & Hnew).
  eauto.
Qed.

(** What the callback of [forEach] pushes: entries built from items of the
    list that pass the test. *)
Lemma collect_lookups_built target entry dataKey exchanges (l fields : list value) :
  Forall (listed dataKey exchanges) l ->
  exists new,
    fst (collect_lookups target entry l fields) = fields ++ new
    /\ Forall (built_from target entry dataKey exchanges) new.
Proof.
  assert (Hnone : forall fields : list value,
             exists new, fields = fields ++ new
                         /\ Forall (built_from target entry dataKey exchanges) new).
  { intros fields0. exists []. by rewrite app_nil_r. }
  intros Hl. revert fields. induction Hl as [|f l Hf _ IH]; intros fields; simpl.
  - apply Hnone.
  - destruct (points_to target f) as [[|]|e] eqn:Hpoints; simpl; [|apply IH|apply Hnone].
    destruct (entry f) as [x|e] eqn:Hx; simpl; [|apply Hnone].
    destruct (IH (fields ++ [x])) as (new & -> & Hnew).
    exists (x :: new). split; [by rewrite <- app_assoc|].
    constructor; [|exact Hnew]. by exists f.
Qed.

Lemma scan_block_built fuel endpoint dataKey target entry warning fields
  (st : State Srv) fields' st' :
  scan_block serve fuel endpoint dataKey target entry warning fields st = (Returns fields', st') ->
  exists more new,
    network st' = network st ++ more
    /\ fields' = fields ++ new
    /\ Forall (built_from target entry dataKey more) new.
Proof.
  unfold scan_block.
  destruct (fetchAllPages serve fuel (VStr endpoint) dataKey None st) as [[records|e|] st1]
    eqn:Hrun; [| |discriminate].
  - destruct (fetchAllPages_listed _ _ _ _ _ _ Hrun) as (more & Hn & Hrecords).
    destruct (collect_lookups_built target entry dataKey more records fields Hrecords)
      as (new & Hfields & Hnew).
    destruct (collect_lookups target entry records fields) as [fields'' [e|]];
      intros [= <- <-]; exists more, new; simpl in *; auto.
  - destruct (quiet_fetchAllPages _ _ _ _ _ display_only_none _ _ _ Hrun) as ((more & Hn) & _).
    intros [= <- <-]. exists more, []. rewrite app_nil_r. simpl. auto.
Qed.

Lemma scan_custom_object_built fuel target obj fields (st : State Srv) fields' err st' :
  scan_custom_object serve fuel target obj fields st = (Returns (fields', err), st') ->
  exists more new,
    network st' = network st ++ more
    /\ fields' = fields ++ new
    /\ Forall (built_from target (co_field_entry obj) "custom_object_fields" more) new.
Proof.
  unfold scan_custom_object.
  destruct (get obj "key") as [key|e].
  2:{ intros [= <- <- <-]. exists [], []. by rewrite !app_nil_r. }
  destruct (fetchAllPages serve fuel _ "custom_object_fields" None st) as [[coFields|e|] st1]
    eqn:Hrun; [| |discriminate].
  - destruct (fetchAllPages_listed _ _ _ _ _ _ Hrun) as (more & Hn & Hrecords).
    destruct (collect_lookups_built target (co_field_entry obj) "custom_object_fields" more
                coFields fields Hrecords) as (new & Hfields & Hnew).
    destruct (collect_lookups target (co_field_entry obj) coFields fields)
      as [fields'' [e|]]; intros [= <- <- <-]; exists more, new; simpl in *; auto.
  - destruct (quiet_fetchAllPages _ _ _ _ _ display_only_none _ _ _ Hrun) as ((more & Hn) & _).
    intros [= <- <- <-]. exists more, []. rewrite app_nil_r. simpl. auto.
Qed.

Lemma scan_custom_objects_built fuel target objs :
  forall fields (st : State Srv) fields' err st',
  scan_custom_objects serve fuel target objs fields st = (Returns (fields', err), st') ->
  exists more new,
    network st' = network st ++ more
    /\ fields' = fields ++ new
    /\ Forall (fun x => exists obj,
                 In obj objs
                 /\ built_from target (co_field_entry obj) "custom_object_fields" more x) new.
Proof.
  induction objs as [|obj objs IH]; intros fields st fields' err st'; simpl.
  - intros [= <- <- <-]. exists [], []. by rewrite !app_nil_r.
  - destruct (scan_custom_object serve fuel target obj fields st) as [[[fields1 err1]|e|] st1]
      eqn:Hobj; [|discriminate|discriminate].
    destruct (scan_custom_object_built _ _ _ _ _ _ _ _ Hobj) as (more1 & new1 & Hn1 & -> & Hnew1).
    assert (Hhere : Forall (fun x => exists obj0,
                              In obj0 (obj :: objs)
                              /\ built_from target (co_field_entry obj0)
                                   "custom_object_fields" more1 x) new1).
    { eapply Forall_impl; [exact Hnew1|]. intros x Hx. exists obj. split; [by left|exact Hx]. }
    destruct err1 as [e|].
    + intros [= <- <- <-]. exists more1, new1. auto.
    + intros Hrest. destruct (IH _ _ _ _ _ Hrest) as (more & new & Hn & -> & Hnew).
      exists (more1 ++ more), (new1 ++ new).
      split; [by rewrite Hn, Hn1, <- app_assoc|]. split; [by rewrite app_assoc|].
      apply Forall_app. split.
      * eapply Forall_impl; [exact Hhere|]. intros x (obj0 & Hin & Hx). exists obj0.
        split; [exact Hin|]. eapply built_from_mono; [|exact Hx].
        intros p Hp. apply in_or_app. by left.
      * eapply Forall_impl; [exact Hnew|]. intros x (obj0 & Hin & Hx). exists obj0.
        split; [by right|]. eapply built_from_mono; [|exact Hx].
        intros p Hp. apply in_or_app. by right.
Qed.

Lemma scan_all_custom_objects_built fuel target fields (st : State Srv) fields' st' :
  scan_all_custom_objects serve fuel target fields st = (Returns fields', st') ->
  exists more new,
    network st' = network st ++ more
    /\ fields' = fields ++ new
    /\ Forall (built_from_object target more) new.
Proof.
  unfold scan_all_custom_objects.
  destruct (fetchAllPages serve fuel _ "custom_objects" None st) as [[customObjects|e|] st1]
    eqn:Hrun; [| |discriminate].
  - destruct (fetchAllPages_listed _ _ _ _ _ _ Hrun) as (more0 & Hn0 & Hobjs).
    destruct (scan_custom_objects serve fuel target customObjects fields st1)
      as [[[fields1 err]|e|] st2] eqn:Hscan; [| |discriminate].
    + destruct (scan_custom_objects_built _ _ _ _ _ _ _ _ Hscan)
        as (more & new & Hn & Hfields & Hnew).
      assert (Hbuilt : Forall (built_from_object target (more0 ++ more)) new).
      { eapply Forall_impl; [exact Hnew|]. intros x (obj & Hin & Hx). exists obj. split.
        - rewrite Forall_forall in Hobjs.
          eapply listed_mono; [|apply Hobjs; by apply list_elem_of_In].
          intros p Hp. apply in_or_app. by left.
        - eapply built_from_mono; [|exact Hx]. intros p Hp. apply in_or_app. by right. }
      destruct err as [e|]; intros [= <- <-]; exists (more0 ++ more), new; simpl;
        rewrite Hn, Hn0, <- app_assoc; auto.
    + destruct (quiet_scan_custom_objects _ _ _ _ _ _ _ _ Hscan) as ((more & Hn) & _).
      intros [= <- <-]. exists (more0 ++ more), []. simpl.
      rewrite Hn, Hn0, <- app_assoc, app_nil_r. auto.
  - destruct (quiet_fetchAllPages _ _ _ _ _ display_only_none _ _ _ Hrun) as ((more & Hn) & _).
    intros [= <- <-]. exists more, []. rewrite app_nil_r. simpl. auto.
Qed.

(** X8.  What a scan returns is sound.  It is an array, stored in the cache,
    of four runs of entries in this order: for ticket fields, for user
    fields, for organization fields, for fields of custom objects.  The
    exchanges of the scan fall into four stretches accordingly, and each
    entry was built, with the type and the label of its run, from a field
    definition that a response of its stretch lists under the data key of
    its run, whose type is [lookup] and whose [relationship_target_type]
    is the relation type of the selected object; for a field of a custom
    object, the object is one that a response of the stretch lists under
    [custom_objects].  No entry comes from anything else. *)
Theorem getLookupFields_sound fuel (st : State Srv) fields st' :
  truthy (cachedLookupFields st) = false ->
  getLookupFieldsForCurrentCo serve fuel st = (Returns fields, st') ->
  exists tickets users organizations objects asked1 asked2 asked3 asked4,
    fields = VArr (tickets ++ users ++ organizations ++ objects)
    /\ cachedLookupFields st' = fields
    /\ new_exchanges st st' = asked1 ++ asked2 ++ asked3 ++ asked4
    /\ Forall (built_from (current_target st) (field_entry "zen:ticket" "Tickets")
                 "ticket_fields" asked1) tickets
    /\ Forall (built_from (current_target st) (field_entry "zen:user" "Users")
                 "user_fields" asked2) users
    /\ Forall (built_from (current_target st)
                 (field_entry "zen:organization" "Organizations")
                 "organization_fields" asked3) organizations
    /\ Forall (built_from_object (current_target st) asked4) objects.
Proof.
  intros Hcache. unfold getLookupFieldsForCurrentCo.
  unfold bind at 1, gets at 1. rewrite Hcache.
  unfold bind at 1, gets at 1.
  fold (current_target st). set (target := current_target st).
  unfold bind at 1.
  destruct (scan_block serve fuel "/api/v2/ticket_fields.json" _ _ _ _ _ st) as [o1 st1] eqn:H1.
  destruct o1 as [f1|e|]; [|discriminate|discriminate].
  unfold bind at 1.
  destruct (scan_block serve fuel "/api/v2/user_fields.json" _ _ _ _ _ st1) as [o2 st2] eqn:H2.
  destruct o2 as [f2|e|]; [|discriminate|discriminate].
  unfold bind at 1.
  destruct (scan_block serve fuel "/api/v2/organization_fields.json" _ _ _ _ _ st2)
    as [o3 st3] eqn:H3.
  destruct o3 as [f3|e|]; [|discriminate|discriminate].
  unfold bind at 1.
  destruct (scan_all_custom_objects serve fuel _ f3 st3) as [o4 st4] eqn:H4.
  destruct o4 as [f4|e|]; [|discriminate|discriminate].
  unfold bind, modify, ret. intros [= <- <-].
  destruct (scan_block_built _ _ _ _ _ _ _ _ _ _ H1) as (asked1 & tickets & Hn1 & -> & Hb1).
  destruct (scan_block_built _ _ _ _ _ _ _ _ _ _ H2) as (asked2 & users & Hn2 & -> & Hb2).
  destruct (scan_block_built _ _ _ _ _ _ _ _ _ _ H3) as (asked3 & organizations & Hn3 & -> & Hb3).
  destruct (scan_all_custom_objects_built _ _ _ _ _ _ H4) as (asked4 & objects & Hn4 & -> & Hb4).
  exists tickets, users, organizations, objects, asked1, asked2, asked3, asked4.
  split; [by rewrite <- !app_assoc|]. split; [reflexivity|].
  split; [|auto]. apply new_exchanges_app. simpl.
  by rewrite Hn4, Hn3, Hn2, Hn1, <- !app_assoc.
Qed.

Lemma getLookupFields_outage fuel (st : State Srv) :
  (forall req srv, exists reason srv', serve req srv = (inr reason, srv')) ->
  truthy (cachedLookupFields st) = false ->
  exists st',
    getLookupFieldsForCurrentCo serve (S fuel) st = (Returns (VArr []), st')
    /\ cachedLookupFields st' = VArr []
    /\ map fst (new_exchanges st st')
       = [VStr "/api/v2/ticket_fields.json"; VStr "/api/v2/user_fields.json";
          VStr "/api/v2/organization_fields.json"; VStr "/api/v2/custom_objects.json"]
    /\ forall fuel',
         getLookupFieldsForCurrentCo serve fuel' st' = (Returns (VArr []), st').
Proof.
  intros Hdown Hcache.
  assert (Hread : forall endpoint dataKey (st0 : State Srv),
             truthy (VStr endpoint) = true ->
             exists st1 reason,
               fetchAllPages serve (S fuel) (VStr endpoint) dataKey None st0
               = (Returns [], st1)
               /\ network st1 = network st0 ++ [(VStr endpoint, inr reason)]
               /\ cachedLookupFields st1 = cachedLookupFields st0
               /\ currentCoKey st1 = currentCoKey st0).
  { intros endpoint dataKey st0 Hurl.
    destruct (Hdown (VStr endpoint) (remote st0)) as (reason & srv' & Hserve).
    unfold fetchAllPages. cbn [fetchAllPages_loop]. rewrite Hurl.
    unfold fetchAllPages_iteration, client_request. rewrite Hserve.
    rewrite loop_finished by reflexivity. eexists _, reason. split; [reflexivity|]. by simpl. }
  unfold getLookupFieldsForCurrentCo.
  unfold bind at 1, gets at 1. rewrite Hcache.
  unfold bind at 1, gets at 1.
  unfold bind at 1, scan_block at 1.
  destruct (Hread "/api/v2/ticket_fields.json" "ticket_fields" st eq_refl) as (st1 & r1 & -> & Hn1 & Hc1 & Hk1).
  simpl collect_lookups. cbv iota beta.
  unfold bind at 1, scan_block at 1.
  destruct (Hread "/api/v2/user_fields.json" "user_fields" st1 eq_refl) as (st2 & r2 & -> & Hn2 & Hc2 & Hk2).
  simpl collect_lookups. cbv iota beta.
  unfold bind at 1, scan_block at 1.
  destruct (Hread "/api/v2/organization_fields.json" "organization_fields" st2 eq_refl)
    as (st3 & r3 & -> & Hn3 & Hc3 & Hk3).
  simpl collect_lookups. cbv iota beta.
  unfold bind at 1, scan_all_custom_objects at 1.
  destruct (Hread "/api/v2/custom_objects.json" "custom_objects" st3 eq_refl) as (st4 & r4 & -> & Hn4 & Hc4 & Hk4).
  simpl scan_custom_objects. unfold ret at 1. cbv iota beta.
  unfold bind, modify, ret. eexists. split; [reflexivity|]. simpl.
  split; [reflexivity|]. split.
  - erewrite new_exchanges_app; [|simpl; rewrite Hn4, Hn3, Hn2, Hn1, <- !app_assoc; reflexivity].
    reflexivity.
  - intros fuel'.
    exact (getLookupFields_cached serve fuel' (set_cachedLookupFields (VArr []) st4) eq_refl).
Qed.

(** X9.  A failed discovery is remembered: when the service rejects every
    request, the scan makes its four top-level requests, returns the empty
    array and stores it, so that later calls answer that there are no
    lookup fields without asking again. *)
Theorem getLookupFields_outage_is_cached fuel (st : State Srv) :
  (forall req srv, exists reason srv', serve req srv = (inr reason, srv')) ->
  truthy (cachedLookupFields st) = false ->
  exists st',
    getLookupFieldsForCurrentCo serve (S fuel) st = (Returns (VArr []), st')
    /\ cachedLookupFields st' = VArr []
    /\ map fst (new_exchanges st st')
       = [VStr "/api/v2/ticket_fields.json"; VStr "/api/v2/user_fields.json";
          VStr "/api/v2/organization_fields.json"; VStr "/api/v2/custom_objects.json"]
    /\ forall fuel',
         getLookupFieldsForCurrentCo serve fuel' st' = (Returns (VArr []), st').
Proof. apply getLookupFields_outage. Qed.

End DiscoveryMore.

(** ** The properties above on concrete accounts *)

Lemma loadTable_schema_failure_witness :
  exists st',
    loadTable outage_server 1 (VStr "car") (car_selected tt) = (Returns tt, st')
    /\ activeView st' = "loader"
    /\ loaderText st' = "Error loading table data.".
Proof.
  destruct (loadTable_schema_failure outage_server 1 (VStr "car") (car_selected tt)
              (VStr "503") tt eq_refl) as (st' & Hrun & _ & Hview & Htext & _).
  exists st'. split; [exact Hrun|]. split; [exact Hview | exact Htext].
Defined.

Lemma loadTable_hides_page_failure_witness :
  exists st',
    loadTable (table_server car_account) 2 (VStr "car") (initial_state tt) = (Returns tt, st')
    /\ activeView st' = "table"
    /\ tableData st' = [VObj [("plate", VStr "AB-1"); ("id", VStr "r1"); ("name", VStr "Beetle")]]
    /\ loaderText st' = "Rendering table...".
Proof.
  destruct (loadTable_hides_page_failure (table_server car_account) 2 (VStr "car")
              (initial_state tt) (VObj [("custom_object_fields", car_schema)]) tt car_schema
              [VObj [("title", VStr "Plate"); ("field", VStr "plate"); ("minWidth", VNum 150)];
               VObj [("title", VStr "Sold"); ("field", VStr "sold"); ("width", VNum 100);
                     ("hozAlign", VStr "center"); ("formatter", VStr "tickCross")]]
              [(VStr car_records_url, car_first_page)]
              (VStr "/api/v2/custom_objects/car/records?cursor=x") (VStr "404") tt tt
              [VObj [("plate", VStr "AB-1"); ("id", VStr "r1"); ("name", VStr "Beetle")]])
    as (st' & Hrun & Hview & Hdata & Htext & _).
  - vm_compute; reflexivity.
  - reflexivity.
  - vm_compute; reflexivity.
  - eapply chain_page; [reflexivity | vm_compute; reflexivity | reflexivity | apply chain_done].
  - reflexivity.
  - vm_compute; reflexivity.
  - vm_compute; reflexivity.
  - simpl. lia.
  - exists st'. repeat split; assumption.
Defined.

Lemma deleteRecord_rejected_witness :
  exists st',
    deleteRecord outage_server (fun _ => true) 1 (VStr "r1") (car_selected tt) = (Returns tt, st')
    /\ alerts st' = ["Failed to delete record."]
    /\ activeView st' = "table".
Proof.
  destruct (deleteRecord_rejected outage_server (fun _ => true) 1 (VStr "r1") (car_selected tt)
              (VStr "503") tt eq_refl eq_refl)
    as (st' & Hrun & _ & _ & Halerts & _ & Hview & _).
  exists st'. split; [exact Hrun|]. split; [exact Halerts | exact Hview].
Defined.

Lemma searchLookupData_null_record_witness :
  exists st',
    searchLookupData (table_server holed_directory) "zen:user" "a" (initial_state tt)
    = (Returns [], st')
    /\ console st' = [("error", "Lookup Search Error:")].
Proof.
  destruct (searchLookupData_null_record (table_server holed_directory) "zen:user" "a"
              (initial_state tt) "/api/v2/users/autocomplete.json?name=a" "users" "name"
              (VObj [("users", VArr [VObj [("id", VNum 7); ("name", VStr "Ada")]; VNull])]) tt
              [VObj [("id", VNum 7); ("name", VStr "Ada")]; VNull] VNull)
    as (st' & Hrun & Hconsole).
  - vm_compute; reflexivity.
  - vm_compute; reflexivity.
  - reflexivity.
  - right. left. reflexivity.
  - left. reflexivity.
  - exists st'. split; [exact Hrun | exact Hconsole].
Defined.

Lemma getLookupFields_sound_witness :
  fst (getLookupFieldsForCurrentCo (table_server relations) 3 (car_selected tt))
  = Returns (VArr car_related)
  /\ exists tickets users organizations objects asked1 asked2 asked3 asked4,
       VArr car_related = VArr (tickets ++ users ++ organizations ++ objects)
       /\ new_exchanges (car_selected tt)
            (snd (getLookupFieldsForCurrentCo (table_server relations) 3 (car_selected tt)))
          = asked1 ++ asked2 ++ asked3 ++ asked4
       /\ Forall (built_from "zen:custom_object:car" (field_entry "zen:ticket" "Tickets")
                    "ticket_fields" asked1) tickets
       /\ Forall (built_from "zen:custom_object:car" (field_entry "zen:user" "Users")
                    "user_fields" asked2) users
       /\ Forall (built_from "zen:custom_object:car"
                    (field_entry "zen:organization" "Organizations")
                    "organization_fields" asked3) organizations
       /\ Forall (built_from_object "zen:custom_object:car" asked4) objects.
Proof.
  pose (st' := snd (getLookupFieldsForCurrentCo (table_server relations) 3 (car_selected tt))).
  assert (Hrun : getLookupFieldsForCurrentCo (table_server relations) 3 (car_selected tt)
                 = (Returns (VArr car_related), st')) by (vm_compute; reflexivity).
  split; [by rewrite Hrun|].
  destruct (getLookupFields_sound (table_server relations) 3 (car_selected tt)
              (VArr car_related) st' eq_refl Hrun)
    as (tickets & users & organizations & objects & asked1 & asked2 & asked3 & asked4
        & Hfields & _ & Hasked & Hb1 & Hb2 & Hb3 & Hb4).
  exists tickets, users, organizations, objects, asked1, asked2, asked3, asked4.
  split; [exact Hfields|]. split; [exact Hasked|]. auto.
Defined.

Lemma getLookupFields_outage_is_cached_witness :
  exists st',
    getLookupFieldsForCurrentCo outage_server 1 (car_selected tt) = (Returns (VArr []), st')
    /\ length (network st') = 4
    /\ getLookupFieldsForCurrentCo outage_server 0 st' = (Returns (VArr []), st').
Proof.
  destruct (getLookupFields_outage_is_cached outage_server 0 (car_selected tt))
    as (st' & Hrun & _ & Hnet & Hagain).
  - intros req srv. exists (VStr "503"), tt. reflexivity.
  - reflexivity.
  - exists st'. split; [exact Hrun|]. split; [|apply Hagain].
    unfold new_exchanges in Hnet. simpl in Hnet. rewrite drop_0 in Hnet.
    rewrite <- (length_map fst), Hnet. reflexivity.
Defined.

Section TableProofs.
Context {Srv : Type}.
Variable serve : value -> Srv -> (value + value) * Srv.

(** X5.  When the schema and every page of records are read, [loadTable] shows
    the table with one row per record of every page, in the order of the
    pages, and with the three leading columns, one column per schema field
    and the actions column; the schema read is stored, nothing is logged,
    and the requests sent are the one for the schema and one per page. *)
Theorem loadTable_renders_all_pages fuel coKey (st : State Srv) schemaResponse srv0 schema
  columns exchanges last srv' rows :
  serve (VStr ("/api/v2/custom_objects/" +:+ to_string coKey +:+ "/fields")) (remote st)
  = (inl schemaResponse, srv0) ->
  get schemaResponse "custom_object_fields" = Val schema ->
  schema_columns schema = Val columns ->
  page_chain serve
    (VStr ("/api/v2/custom_objects/" +:+ to_string coKey +:+ "/records?page[size]=100"))
    srv0 exchanges last srv' ->
  truthy last = false ->
  map_records table_row
    (flat_map (fun x => page_items "custom_object_records" (snd x)) exchanges) = Val rows ->
  length exchanges <= fuel ->
  exists st',
    loadTable serve fuel coKey st = (Returns tt, st')
    /\ activeView st' = "table"
    /\ tableData st' = rows
    /\ tableColumns st' = table_columns columns
    /\ currentSchema st' = schema
    /\ console st' = console st
    /\ new_exchanges st st'
       = (VStr ("/api/v2/custom_objects/" +:+ to_string coKey +:+ "/fields"),
          inl schemaResponse)
         :: map (fun x => (fst x, inl (snd x))) exchanges
    /\ remote st' = srv'.
Proof.
  intros Hschema Hfields Hcolumns Hchain Hlast Hrows Hfuel.
  unfold loadTable, bind at 1 2, modify at 1 2, try_catch, bind at 1, request, client_request.
  simpl. rewrite Hschema. unfold bind at 1, lift at 1. rewrite Hfields.
  unfold bind at 1, modify at 1.
  set (st1 := set_currentSchema schema _).
  set (cb := Some _).
  assert (Hcb : display_only (Srv:=Srv) cb) by apply display_only_loader.
  unfold bind at 1, fetchAllPages.
  replace fuel with (length exchanges + (fuel - length exchanges)) by lia.
  destruct (loop_follows_chain serve "custom_object_records" cb _ _ _ _ _ Hcb Hchain
              (fuel - length exchanges) [] st1 eq_refl)
    as (st2 & Hloop & Hn & Hr & Hc & _).
  pose proof Hloop as Hloop'.
  rewrite Hloop. rewrite loop_finished by exact Hlast. simpl app.
  assert (Hframe : forall {A} (proj : State Srv -> A),
             (forall k t s c v l d cols con al net net' srv srv',
                 proj (mkState k t s c v l d cols con al net srv)
                 = proj (mkState k t s c v l d cols con al net' srv')) ->
             (forall level msg st, proj (console_log level msg st) = proj st) ->
             (forall n st, proj (run_callback cb n st) = proj st) ->
             proj st2 = proj st1).
  { intros A proj Hnet Hlog Hrun.
    rewrite (loop_finished serve (fuel - length exchanges) _ _ _ last st2 Hlast) in Hloop'.
    eapply fetchAllPages_loop_frame; [|exact Hlog|exact Hrun|exact Hloop'].
    by apply client_request_frame. }
  unfold bind at 1, modify at 1. unfold bind at 1, lift at 1. rewrite Hrows.
  unfold bind at 1, gets at 1.
  assert (Hs : currentSchema (updateLoaderText "Rendering table..." st2) = schema).
  { simpl. rewrite (Hframe _ currentSchema); done. }
  rewrite Hs. unfold bind at 1, lift at 1. rewrite Hcolumns.
  unfold bind, modify. eexists. split; [reflexivity|]. simpl.
  split; [reflexivity|]. split; [reflexivity|]. split; [reflexivity|].
  split; [rewrite (Hframe _ currentSchema); done|].
  split; [by rewrite Hc|].
  split; [|exact Hr].
  apply new_exchanges_app. simpl. rewrite Hn. simpl. by rewrite <- app_assoc.
Qed.

End TableProofs.

Lemma loadTable_renders_all_pages_witness :
  exists st',
    loadTable (table_server car_pages) 2 (VStr "car") (initial_state tt) = (Returns tt, st')
    /\ tableData st'
       = [VObj [("plate", VStr "AB-1"); ("id", VStr "r1"); ("name", VStr "Beetle")];
          VObj [("id", VStr "r2"); ("name", VStr "Mini")]]
    /\ length (tableColumns st') = 6.
Proof.
  destruct (loadTable_renders_all_pages (table_server car_pages) 2 (VStr "car")
              (initial_state tt) (VObj [("custom_object_fields", car_schema)]) tt car_schema
              car_columns
              [(VStr car_records_url, car_first_page);
               (VStr "/api/v2/custom_objects/car/records?cursor=x", car_second_page)]
              VNull tt
              [VObj [("plate", VStr "AB-1"); ("id", VStr "r1"); ("name", VStr "Beetle")];
               VObj [("id", VStr "r2"); ("name", VStr "Mini")]])
    as (st' & Hrun & _ & Hdata & Hcolumns & _).
  - vm_compute; reflexivity.
  - reflexivity.
  - vm_compute; reflexivity.
  - eapply chain_page; [reflexivity | vm_compute; reflexivity | reflexivity |].
    eapply chain_page; [reflexivity | vm_compute; reflexivity | reflexivity | apply chain_done].
  - reflexivity.
  - vm_compute; reflexivity.
  - simpl. lia.
  - exists st'. split; [exact Hrun|]. split; [exact Hdata|]. by rewrite Hcolumns.
Defined.

(** ** Column layout *)

Lemma column_def_layout field col : column_def field = Val col -> layout_column col.
Proof.
  unfold column_def, rbind.
  destruct (get field "title") as [title|]; [|discriminate].
  destruct (get field "key") as [key|]; [|discriminate].
  destruct (get field "type") as [type|]; [|discriminate].
  intros [= <-]. exists key.
  destruct (is_str type "checkbox"); [exists 100%Z; by vm_compute|].
  destruct (is_str type "date"); [exists 120%Z; by vm_compute|].
  destruct (is_str type "integer" || is_str type "decimal"); [exists 110%Z|exists 150%Z];
    by vm_compute.
Qed.

Lemma schema_columns_layout schema columns :
  schema_columns schema = Val columns -> Forall layout_column columns.
Proof.
  destruct schema as [| | | | |fields|]; try discriminate. simpl.
  revert columns. induction fields as [|field fields IH]; intros columns; simpl.
  - intros [= <-]. constructor.
  - unfold rbind. destruct (column_def field) as [col|] eqn:Hcol; [|discriminate].
    destruct (map_records column_def fields) as [cols|]; [|discriminate].
    intros [= <-]. constructor; [by eapply column_def_layout | by apply IH].
Qed.

Lemma restore_defaults_assign availableWidth usedWidth defaults columns :
  restore_defaults availableWidth usedWidth defaults columns
  = snd <$> assign_visibility availableWidth usedWidth defaults columns.
Proof.
  revert usedWidth defaults. induction columns as [|col columns IH]; intros usedWidth defaults;
    [reflexivity|]. simpl.
  destruct (column_field col) as [field|]; [|reflexivity]. simpl.
  destruct (is_fixed_column field).
  { rewrite IH. by destruct (assign_visibility _ _ _ columns) as [[??]|]. }
  destruct (column_width col) as [colW|]; [|reflexivity]. simpl.
  destruct ((usedWidth + colW <=? availableWidth)%Z || (length defaults <? 2)%nat);
    rewrite IH; by destruct (assign_visibility _ _ _ columns) as [[??]|].
Qed.

Lemma column_field_title col field :
  column_field col = Some field ->
  get col "field" = Val field /\ exists title, get col "title" = Val title.
Proof.
  unfold column_field. destruct col; simpl; try discriminate; intros [= <-]; eauto.
Qed.

Lemma assign_visibility_options availableWidth usedWidth defaults columns visible defaults' :
  assign_visibility availableWidth usedWidth defaults columns = Some (visible, defaults') ->
  defaults'
  = defaults ++ map (fun o => fst (fst o)) (List.filter snd (column_options columns visible)).
Proof.
  revert usedWidth defaults visible. induction columns as [|col columns IH];
    intros usedWidth defaults visible; simpl.
  { intros [= <- <-]. by rewrite app_nil_r. }
  destruct (column_field col) as [field|] eqn:Hfield; [|discriminate]. simpl.
  destruct (column_field_title col field Hfield) as (Hget & title & Htitle).
  destruct (is_fixed_column field) eqn:Hfixed.
  { destruct (assign_visibility _ _ _ columns) as [[vis d]|] eqn:Hrest; [|discriminate].
    intros [= <- <-]. simpl. rewrite Hget, Htitle, Hfixed. by eapply IH. }
  destruct (column_width col) as [colW|]; [|discriminate]. simpl.
  destruct ((usedWidth + colW <=? availableWidth)%Z || (length defaults <? 2)%nat).
  - destruct (assign_visibility _ _ _ columns) as [[vis d]|] eqn:Hrest; [|discriminate].
    intros [= <- <-]. simpl. rewrite Hget, Htitle, Hfixed. simpl.
    apply IH in Hrest. by rewrite Hrest, <- app_assoc.
  - destruct (assign_visibility _ _ _ columns) as [[vis d]|] eqn:Hrest; [|discriminate].
    intros [= <- <-]. simpl. rewrite Hget, Htitle, Hfixed. simpl. by eapply IH.
Qed.

(** X10.  The restore button brings back the initial selection: in a container
    of the same width, the list it hands to the column selector is
    [defaultVisibleCols] of the load, which is also the list of the options
    the load wrote as selected. *)
Theorem restore_returns_initial_selection clientWidth innerWidth columns visible defaults :
  initial_layout clientWidth innerWidth columns = Some (visible, defaults) ->
  restore_columns_click clientWidth innerWidth columns = Some defaults
  /\ defaults = map (fun o => fst (fst o)) (List.filter snd (column_options columns visible)).
Proof.
  unfold initial_layout, restore_columns_click. intros Hlayout. split.
  - rewrite restore_defaults_assign, Hlayout. reflexivity.
  - by apply assign_visibility_options in Hlayout.
Qed.

Lemma assign_visibility_fixed availableWidth usedWidth defaults col field rest :
  column_field col = Some field -> is_fixed_column field = true ->
  assign_visibility availableWidth usedWidth defaults (col :: rest)
  = '(visible, defaults') ← assign_visibility availableWidth usedWidth defaults rest;
    Some (true :: visible, defaults').
Proof. intros Hfield Hfixed. simpl. rewrite Hfield. simpl. by rewrite Hfixed. Qed.

Lemma assign_visibility_forced availableWidth usedWidth defaults col field colW rest :
  column_field col = Some field -> is_fixed_column field = false ->
  column_width col = Some colW -> length defaults < 2 ->
  assign_visibility availableWidth usedWidth defaults (col :: rest)
  = '(visible, defaults') ←
      assign_visibility availableWidth (usedWidth + colW) (defaults ++ [field]) rest;
    Some (true :: visible, defaults').
Proof.
  intros Hfield Hfixed Hwidth Hfew. simpl. rewrite Hfield. simpl. rewrite Hfixed, Hwidth. simpl.
  destruct (Nat.ltb_spec (length defaults) 2) as [_|Hmany]; [|lia]. by rewrite orb_true_r.
Qed.

Lemma assign_visibility_schema availableWidth columns :
  Forall layout_column columns ->
  forall usedWidth defaults,
  exists visible defaults',
    assign_visibility availableWidth usedWidth defaults (columns ++ fixed_columns_after)
    = Some (visible ++ [true], defaults ++ defaults')
    /\ length visible = length columns.
Proof.
  induction 1 as [|col columns (field & colW & Hfield & Hwidth & _) _ IH];
    intros usedWidth defaults.
  - exists [], []. by rewrite app_nil_r.
  - simpl. rewrite Hfield. simpl. destruct (is_fixed_column field).
    { destruct (IH usedWidth defaults) as (vis & d & -> & Hlen).
      exists (true :: vis), d. simpl. by rewrite Hlen. }
    rewrite Hwidth. simpl.
    destruct ((usedWidth + colW <=? availableWidth)%Z || (length defaults <? 2)%nat).
    + destruct (IH (usedWidth + colW)%Z (defaults ++ [field])) as (vis & d & -> & Hlen).
      exists (true :: vis), (field :: d). simpl. by rewrite Hlen, <- app_assoc.
    + destruct (IH usedWidth defaults) as (vis & d & -> & Hlen).
      exists (false :: vis), d. simpl. by rewrite Hlen.
Qed.

Lemma initial_layout_schema clientWidth innerWidth columns :
  Forall layout_column columns ->
  exists visible defaults,
    initial_layout clientWidth innerWidth (table_columns columns)
    = Some ([true; true; true] ++ visible ++ [true], VStr "id" :: VStr "name" :: defaults)
    /\ length visible = length columns.
Proof.
  intros Hschema.
  unfold initial_layout, table_columns, fixed_columns_before.
  set (availableWidth := available_width clientWidth innerWidth).
  destruct (assign_visibility_schema availableWidth columns Hschema (190 + 80 + 150)%Z
              [VStr "id"; VStr "name"]) as (vis & d & Hrest & Hlen).
  exists vis, d. split; [|exact Hlen].
  cbn [app].
  rewrite (assign_visibility_fixed availableWidth 190 [] _ (VStr "custom_rownum"))
    by reflexivity.
  rewrite (assign_visibility_forced availableWidth 190 [] _ (VStr "id") 80)
    by (reflexivity || (simpl; lia)).
  rewrite (assign_visibility_forced availableWidth (190 + 80) [VStr "id"] _ (VStr "name") 150)
    by (reflexivity || (simpl; lia)).
  cbn [app]. rewrite Hrest. reflexivity.
Qed.

(** X11.  Whatever the width of the container, even none at all, the load shows
    the row number, the ID, the record name and the actions: the first two
    columns that can be hidden are always taken. *)
Theorem layout_keeps_id_and_name clientWidth innerWidth schema columns :
  schema_columns schema = Val columns ->
  exists visible defaults,
    initial_layout clientWidth innerWidth (table_columns columns)
    = Some ([true; true; true] ++ visible ++ [true], VStr "id" :: VStr "name" :: defaults)
    /\ length visible = length columns.
Proof.
  intros Hschema. apply initial_layout_schema. by eapply schema_columns_layout.
Qed.

Lemma assign_visibility_bound availableWidth columns :
  forall usedWidth defaults visible defaults',
  assign_visibility availableWidth usedWidth defaults columns = Some (visible, defaults') ->
  2 <= length defaults ->
  (usedWidth + shown_width columns visible <= Z.max availableWidth usedWidth)%Z.
Proof.
  induction columns as [|col columns IH]; intros usedWidth defaults visible defaults'; simpl.
  { intros [= <- <-] _. lia. }
  destruct (column_field col) as [field|]; [|discriminate]. simpl.
  destruct (is_fixed_column field).
  { destruct (assign_visibility _ _ _ columns) as [[vis d]|] eqn:Hrest; [|discriminate].
    intros [= <- <-] Hlen. simpl. destruct (column_width col); by eapply IH. }
  destruct (column_width col) as [colW|]; [|discriminate]. simpl.
  destruct (Z.leb_spec (usedWidth + colW) availableWidth) as [Hfits|Hnot]; simpl.
  - destruct (assign_visibility _ _ _ columns) as [[vis d]|] eqn:Hrest; [|discriminate].
    intros [= <- <-] Hlen. simpl. apply IH in Hrest; [lia|]. rewrite length_app. simpl. lia.
  - destruct (Nat.ltb_spec (length defaults) 2) as [Hfew|Hmany]; [lia|].
    destruct (assign_visibility _ _ _ columns) as [[vis d]|] eqn:Hrest; [|discriminate].
    intros [= <- <-] Hlen. simpl. by eapply IH.
Qed.

(** X12.  The columns shown never take more room than the container offers,
    except for the 420 pixels of the four columns that are always shown:
    the width the pass has counted at its end is at most the larger of the
    two. *)
Theorem layout_respects_width clientWidth innerWidth schema columns :
  schema_columns schema = Val columns ->
  exists visible defaults,
    initial_layout clientWidth innerWidth (table_columns columns) = Some (visible, defaults)
    /\ (190 + shown_width (table_columns columns) visible
        <= Z.max (available_width clientWidth innerWidth) 420)%Z.
Proof.
  intros Hschema.
  destruct (initial_layout_schema clientWidth innerWidth columns
              (schema_columns_layout schema columns Hschema)) as (vis & d & Hlayout & _).
  eexists _, _. split; [exact Hlayout|].
  revert Hlayout. unfold initial_layout, table_columns, fixed_columns_before.
  set (availableWidth := available_width clientWidth innerWidth).
  cbn [app].
  rewrite (assign_visibility_fixed availableWidth 190 [] _ (VStr "custom_rownum"))
    by reflexivity.
  rewrite (assign_visibility_forced availableWidth 190 [] _ (VStr "id") 80)
    by (reflexivity || (simpl; lia)).
  rewrite (assign_visibility_forced availableWidth (190 + 80) [VStr "id"] _ (VStr "name") 150)
    by (reflexivity || (simpl; lia)).
  cbn [app].
  destruct (assign_visibility availableWidth (190 + 80 + 150) [VStr "id"; VStr "name"]
              (columns ++ fixed_columns_after)) as [[vis' d']|] eqn:Hrest; [|discriminate].
  simpl. intros [= Hvis _].
  apply assign_visibility_bound in Hrest; [|simpl; lia].
  rewrite <- Hvis. lia.
Qed.

Lemma shown_width_nonneg columns visible :
  Forall layout_column columns -> (0 <= shown_width columns visible)%Z.
Proof.
  intros Hcols. revert visible.
  induction Hcols as [|col columns (field & colW & Hfield & Hwidth & Hpos) _ IH];
    intros [|shown visible]; simpl; try lia.
  rewrite Hfield, Hwidth. specialize (IH visible).
  destruct (is_fixed_column field || negb shown); lia.
Qed.

Lemma assign_visibility_fits availableWidth columns :
  Forall layout_column columns ->
  forall usedWidth defaults,
  (usedWidth + full_width columns <= availableWidth)%Z ->
  exists defaults',
    assign_visibility availableWidth usedWidth defaults columns
    = Some (repeat true (length columns), defaults').
Proof.
  unfold full_width.
  induction 1 as [|col columns (field & colW & Hfield & Hwidth & Hpos) Hcols IH];
    intros usedWidth defaults Hfits; simpl in *.
  - eauto.
  - rewrite Hfield, Hwidth in Hfits. rewrite Hfield. simpl.
    pose proof (shown_width_nonneg columns (repeat true (length columns)) Hcols) as Hrest.
    destruct (is_fixed_column field); simpl in Hfits.
    + destruct (IH usedWidth defaults Hfits) as (d & ->). eauto.
    + rewrite Hwidth. simpl.
      destruct (Z.leb_spec (usedWidth + colW) availableWidth) as [_|Hnot]; [|lia]. simpl.
      destruct (IH (usedWidth + colW)%Z (defaults ++ [field])) as (d & ->); [lia|]. eauto.
Qed.

(** X13.  In a container wide enough for all the columns, none is hidden. *)
Theorem layout_shows_all_when_fits clientWidth innerWidth schema columns :
  schema_columns schema = Val columns ->
  (190 + full_width (table_columns columns) <= available_width clientWidth innerWidth)%Z ->
  exists defaults,
    initial_layout clientWidth innerWidth (table_columns columns)
    = Some (repeat true (length (table_columns columns)), defaults).
Proof.
  intros Hschema Hfits. apply assign_visibility_fits; [|exact Hfits].
  unfold table_columns. rewrite !Forall_app. split_and!.
  - repeat constructor; eexists _, _; by vm_compute.
  - by eapply schema_columns_layout.
  - repeat constructor; eexists _, _; by vm_compute.
Qed.

Lemma restore_returns_initial_selection_witness :
  restore_columns_click 0 700 (table_columns car_columns)
  = Some [VStr "id"; VStr "name"; VStr "plate"].
Proof.
  exact (proj1 (restore_returns_initial_selection 0 700 (table_columns car_columns)
                  [true; true; true; true; false; true]
                  [VStr "id"; VStr "name"; VStr "plate"] eq_refl)).
Defined.

Lemma layout_keeps_id_and_name_witness :
  exists visible defaults,
    initial_layout 0 0 (table_columns car_columns)
    = Some ([true; true; true] ++ visible ++ [true], VStr "id" :: VStr "name" :: defaults)
    /\ length visible = 2.
Proof.
  exact (layout_keeps_id_and_name 0 0 car_schema car_columns eq_refl).
Defined.

Lemma layout_respects_width_witness :
  exists visible defaults,
    initial_layout 0 700 (table_columns car_columns) = Some (visible, defaults)
    /\ (190 + shown_width (table_columns car_columns) visible <= 660)%Z.
Proof.
  exact (layout_respects_width 0 700 car_schema car_columns eq_refl).
Defined.

Lemma layout_shows_all_when_fits_witness :
  exists defaults,
    initial_layout 1000 0 (table_columns car_columns)
    = Some ([true; true; true; true; true; true], defaults).
Proof.
  apply (layout_shows_all_when_fits 1000 0 car_schema car_columns eq_refl).
  vm_compute. discriminate.
Defined.

Section SelectorAndFormProofs.
Context {Srv : Type}.
Variable serve : value -> Srv -> (value + value) * Srv.

(** ** [startApp] *)


(** X14.  Whatever goes wrong while the selector is prepared is shown as a
    permissions problem: when the request for the custom objects is
    rejected, or its response holds no array of objects to list, [startApp]
    leaves the loader on screen with the permissions text, renders nothing
    and logs one error; it has asked once. *)
Theorem startApp_failure (st : State Srv) reply srv' :
  serve (VStr "/api/v2/custom_objects") (remote st) = (reply, srv') ->
  (forall response, reply = inl response -> exists e, selector_of_response response = Exn e) ->
  exists st',
    startApp serve st = (Returns None, st')
    /\ activeView st' = "loader"
    /\ loaderText st' = "Error loading Custom Objects. Check your permissions."
    /\ new_exchanges st st' = [(VStr "/api/v2/custom_objects", reply)]
    /\ length (console st') = S (length (console st)).
Proof.
  intros Hserve Hbad.
  unfold startApp, bind at 1 2, modify at 1 2, try_catch, bind at 1, request, client_request.
  simpl. rewrite Hserve. destruct reply as [response|reason].
  - destruct (Hbad response eq_refl) as (e & He). unfold bind at 1, lift. rewrite He.
    eexists. split; [reflexivity|]. simpl. split_and!; try reflexivity.
    + apply new_exchanges_app. reflexivity.
    + rewrite length_app. simpl. lia.
  - eexists. split; [reflexivity|]. simpl. split_and!; try reflexivity.
    + apply new_exchanges_app. reflexivity.
    + rewrite length_app. simpl. lia.
Qed.


(** ** [handleFormSubmit] *)

(** X16.  When the service rejects the save, the handler reports the failure in
    the form and enables the button again; it has sent the one request,
    logged the error, and touched neither the view nor the table. *)
Theorem handleFormSubmit_rejected fuel form (st : State Srv) fields reason srv' :
  let request :=
    save_request (currentCoKey st) (formData_get "record_id" form)
      (record_payload (js_or (formData_get "name" form) (VStr "New Record")) fields) in
  collect_fields form (currentSchema st) = Val fields ->
  serve request (remote st) = (inr reason, srv') ->
  exists st',
    handleFormSubmit serve fuel form st = (Returns save_failed, st')
    /\ new_exchanges st st' = [(request, inr reason)]
    /\ console st' = console st ++ [("error", "Save Error:")]
    /\ activeView st' = activeView st
    /\ loaderText st' = loaderText st
    /\ tableData st' = tableData st.
Proof.
  intros req Hfields Hserve.
  unfold handleFormSubmit, bind at 1, gets at 1, bind at 1, lift at 1. rewrite Hfields.
  unfold try_catch, bind at 1, gets at 1, bind at 1, request, client_request.
  fold req. rewrite Hserve.
  eexists. split; [reflexivity|]. simpl. split_and!; try reflexivity.
  apply new_exchanges_app. reflexivity.
Qed.

Lemma handleFormSubmit_resolved fuel form (st : State Srv) fields response srv' :
  let request :=
    save_request (currentCoKey st) (formData_get "record_id" form)
      (record_payload (js_or (formData_get "name" form) (VStr "New Record")) fields) in
  collect_fields form (currentSchema st) = Val fields ->
  serve request (remote st) = (inl response, srv') ->
  exists st1,
    client_request serve request st = (inl response, st1)
    /\ handleFormSubmit serve fuel form st
       = match loadTable serve fuel (currentCoKey st) st1 with
         | (Returns _, st') => (Returns saving, st')
         | (Throws _, st') => (Returns save_failed, console_log "error" "Save Error:" st')
         | (Diverges, st') => (Diverges, st')
         end.
Proof.
  intros req Hfields Hserve.
  unfold handleFormSubmit, bind at 1, gets at 1, bind at 1, lift at 1. rewrite Hfields.
  unfold try_catch, bind at 1, gets at 1, bind at 1, request.
  fold req. unfold client_request. rewrite Hserve.
  eexists. split; [reflexivity|]. simpl. unfold bind at 1 2, gets at 1. simpl.
  match goal with |- context [loadTable serve fuel ?k ?s] =>
    destruct (loadTable serve fuel k s) as [[[]|e|] st'] end; reflexivity.
Qed.

(** X17.  A save that the service accepted is never reported as failed: the
    handler goes on with [loadTable] for the selected object, and ends as
    that reload ends, with the form still saying that it is saving. *)
Theorem handleFormSubmit_saved fuel form (st : State Srv) fields response srv' :
  let request :=
    save_request (currentCoKey st) (formData_get "record_id" form)
      (record_payload (js_or (formData_get "name" form) (VStr "New Record")) fields) in
  collect_fields form (currentSchema st) = Val fields ->
  serve request (remote st) = (inl response, srv') ->
  exists st1,
    client_request serve request st = (inl response, st1)
    /\ match loadTable serve fuel (currentCoKey st) st1 with
       | (Returns _, st') => handleFormSubmit serve fuel form st = (Returns saving, st')
       | (Diverges, st') => handleFormSubmit serve fuel form st = (Diverges, st')
       | (Throws _, _) => False
       end.
Proof.
  intros req Hfields Hserve.
  destruct (handleFormSubmit_resolved fuel form st fields response srv' Hfields Hserve)
    as (st1 & Hrequest & Hrun).
  exists st1. split; [exact Hrequest|]. fold req in Hrun. rewrite Hrun.
  pose proof (loadTable_catches_all serve fuel (currentCoKey st) st1) as Hnothrow.
  destruct (loadTable serve fuel (currentCoKey st) st1) as [[[]|e|] st'].
  - reflexivity.
  - by destruct (Hnothrow e).
  - reflexivity.
Qed.

End SelectorAndFormProofs.

(** ** The payload of a save *)

Lemma assoc_own_set k v props : assoc k (own_set k v props) = Some v.
Proof.
  induction props as [|[k' v'] props IH]; simpl.
  - by rewrite String.eqb_refl.
  - destruct (String.eqb k k') eqn:Hk; simpl; [by rewrite String.eqb_refl | by rewrite Hk].
Qed.

Lemma assoc_own_set_other k k' v props :
  k <> k' -> assoc k' (own_set k v props) = assoc k' props.
Proof.
  intros Hne. induction props as [|[k0 v0] props IH]; simpl.
  - destruct (String.eqb_spec k' k) as [->|_]; [done | reflexivity].
  - destruct (String.eqb_spec k k0) as [<-|Hk]; simpl.
    + destruct (String.eqb_spec k' k) as [->|_]; [done | reflexivity].
    + destruct (String.eqb k' k0); [reflexivity | exact IH].
Qed.

Lemma assoc_obj_set k v props :
  k <> "__proto__" -> assoc k (obj_set k v props) = Some v.
Proof.
  intros Hk. unfold obj_set. destruct (String.eqb_spec k "__proto__") as [->|_]; [done|].
  apply assoc_own_set.
Qed.

Lemma assoc_obj_set_other k k' v props :
  k <> k' -> assoc k' (obj_set k v props) = assoc k' props.
Proof.
  intros Hne. unfold obj_set. destruct (String.eqb k "__proto__"); [reflexivity|].
  by apply assoc_own_set_other.
Qed.

Lemma assoc_obj_set_proto v props : obj_set "__proto__" v props = props.
Proof. reflexivity. Qed.

(** What one step of the loop leaves under the name of its field, and that
    it leaves the other names alone. *)
Lemma collect_field_spec form acc field acc' :
  collect_field form acc field = Val acc' ->
  (forall k, k <> field_name field -> assoc k acc' = assoc k acc)
  /\ assoc "__proto__" acc' = assoc "__proto__" acc
  /\ (field_name field <> "__proto__" ->
      assoc (field_name field) acc'
      = if is_checkbox field then Some (VBool (checkbox_checked (field_name field) form))
        else match formData_get (field_name field) form with
             | VNull => assoc (field_name field) acc
             | val => Some val
             end).
Proof.
  assert (Hproto : forall k v, assoc "__proto__" (obj_set k v acc) = assoc "__proto__" acc).
  { intros k v. destruct (String.eqb_spec k "__proto__") as [->|Hk].
    - by rewrite assoc_obj_set_proto.
    - by apply assoc_obj_set_other. }
  unfold collect_field, field_name, is_checkbox, rbind.
  destruct (get field "type") as [type|]; [|discriminate].
  destruct (get field "key") as [key|]; [|discriminate].
  destruct (is_str type "checkbox").
  - intros [= <-]. split; [|split; [apply Hproto | apply assoc_obj_set]].
    intros k Hk. by apply assoc_obj_set_other.
  - unfold formData_get.
    destruct (List.find _ (form_data form)) as [[name v]|].
    + intros [= <-]. split; [|split; [apply Hproto | apply assoc_obj_set]].
      intros k Hk. by apply assoc_obj_set_other.
    + intros [= <-]. split; [|split]; reflexivity.
Qed.

Lemma collect_fields_from_other form fields :
  forall acc out k,
  collect_fields_from form acc fields = Val out ->
  ~ In k (map field_name fields) ->
  assoc k out = assoc k acc.
Proof.
  induction fields as [|field fields IH]; intros acc out k; simpl.
  - by intros [= <-] _.
  - unfold rbind. destruct (collect_field form acc field) as [acc'|] eqn:Hstep; [|discriminate].
    intros Hrest Hk. apply collect_field_spec in Hstep as [Hother _].
    rewrite (IH acc' out k Hrest) by tauto. apply Hother. intros ->. tauto.
Qed.

Lemma collect_fields_from_proto form fields :
  forall acc out,
  collect_fields_from form acc fields = Val out ->
  assoc "__proto__" out = assoc "__proto__" acc.
Proof.
  induction fields as [|field fields IH]; intros acc out; simpl.
  - by intros [= <-].
  - unfold rbind. destruct (collect_field form acc field) as [acc'|] eqn:Hstep; [|discriminate].
    intros Hrest. apply collect_field_spec in Hstep as (_ & Hproto & _).
    by rewrite (IH acc' out Hrest).
Qed.

Lemma collect_fields_from_lookup form fields :
  forall acc out,
  collect_fields_from form acc fields = Val out ->
  NoDup (map field_name fields) ->
  (forall field, In field fields -> assoc (field_name field) acc = None) ->
  forall field, In field fields -> field_name field <> "__proto__" ->
  assoc (field_name field) out
  = if is_checkbox field then Some (VBool (checkbox_checked (field_name field) form))
    else match formData_get (field_name field) form with
         | VNull => None
         | val => Some val
         end.
Proof.
  induction fields as [|field0 fields IH]; intros acc out; simpl; [by intros _ _ _ ? []|].
  unfold rbind. destruct (collect_field form acc field0) as [acc'|] eqn:Hstep; [|discriminate].
  intros Hrest Hnodup Hfresh field Hin Hname.
  apply NoDup_cons in Hnodup as [Hnotin Hnodup].
  apply collect_field_spec in Hstep as (Hother & _ & Hhere).
  destruct Hin as [<-|Hin].
  - rewrite (collect_fields_from_other form fields acc' out _ Hrest)
      by (by rewrite <- list_elem_of_In).
    rewrite (Hhere Hname), (Hfresh field0) by (by left). reflexivity.
  - eapply (IH acc' out Hrest Hnodup); [|exact Hin|exact Hname].
    intros field' Hin'. rewrite Hother; [apply Hfresh; by right|].
    intros Heq. apply Hnotin. rewrite <- Heq. apply list_elem_of_In. by apply in_map.
Qed.

(** X18.  The properties of [customObjectFields], which are what the
    payload carries, follow the schema.  With field keys that are pairwise
    distinct: a checkbox field whose key is not [__proto__] is always sent,
    as [true] or [false] according to the box; any other field whose key is
    not [__proto__] is sent with the text the form carries for it, and left
    out when the form carries none; nothing is sent under a name that is
    not the key of a schema field, whatever else the form carries; and
    nothing is sent under [__proto__], also when a schema field has that
    key, because the assignment of line 659 or 663 then reaches the
    accessor of the prototype and adds no property. *)
Theorem payload_follows_schema form fields customObjectFields :
  collect_fields form (VArr fields) = Val customObjectFields ->
  NoDup (map field_name fields) ->
  (forall field, In field fields -> field_name field <> "__proto__" ->
     assoc (field_name field) customObjectFields
     = if is_checkbox field then Some (VBool (checkbox_checked (field_name field) form))
       else match formData_get (field_name field) form with
            | VNull => None
            | val => Some val
            end)
  /\ (forall name, ~ In name (map field_name fields) -> assoc name customObjectFields = None)
  /\ assoc "__proto__" customObjectFields = None.
Proof.
  simpl. intros Hcollect Hnodup. split; [|split].
  - intros field Hin Hname.
    exact (collect_fields_from_lookup form fields [] customObjectFields Hcollect Hnodup
             (fun _ _ => eq_refl) field Hin Hname).
  - intros name Hname.
    by rewrite (collect_fields_from_other form fields [] customObjectFields name Hcollect Hname).
  - by rewrite (collect_fields_from_proto form fields [] customObjectFields Hcollect).
Qed.

(** ** The properties of the selector and of the form on concrete accounts *)

Lemma startApp_failure_witness :
  exists st',
    startApp (table_server empty_answer_account) (initial_state tt) = (Returns None, st')
    /\ loaderText st' = "Error loading Custom Objects. Check your permissions.".
Proof.
  destruct (startApp_failure (table_server empty_answer_account) (initial_state tt)
              (inl (VObj [])) tt eq_refl) as (st' & Hrun & _ & Htext & _).
  - intros response [= <-]. eexists. reflexivity.
  - exists st'. split; [exact Hrun | exact Htext].
Defined.


Lemma handleFormSubmit_rejected_witness :
  exists st',
    handleFormSubmit outage_server 1 new_car_form (car_form_open tt) = (Returns save_failed, st')
    /\ map fst (new_exchanges (car_form_open tt) st')
       = [VObj [("url", VStr "/api/v2/custom_objects/car/records");
                ("type", VStr "POST");
                ("contentType", VStr "application/json");
                ("data",
                 VObj [("custom_object_record",
                        VObj [("name", VStr "Mini");
                              ("custom_object_fields",
                               VObj [("plate", VStr "XY-9"); ("sold", VBool false)])])])]]
    /\ activeView st' = "form".
Proof.
  destruct (handleFormSubmit_rejected outage_server 1 new_car_form (car_form_open tt)
              [("plate", VStr "XY-9"); ("sold", VBool false)] (VStr "503") tt eq_refl eq_refl)
    as (st' & Hrun & Hnet & _ & Hview & _).
  exists st'. split; [exact Hrun|]. split; [by rewrite Hnet | exact Hview].
Defined.

Lemma handleFormSubmit_saved_witness :
  exists st',
    handleFormSubmit counting_server 2 edit_car_form (car_form_open 0%nat) = (Returns saving, st')
    /\ map fst (take 1 (network st'))
       = [VObj [("url", VStr "/api/v2/custom_objects/car/records/r1");
                ("type", VStr "PATCH");
                ("contentType", VStr "application/json");
                ("data",
                 VObj [("custom_object_record",
                        VObj [("name", VStr "Beetle");
                              ("custom_object_fields",
                               VObj [("plate", VStr "AB-1"); ("sold", VBool true)])])])]].
Proof.
  destruct (handleFormSubmit_saved counting_server 2 edit_car_form (car_form_open 0%nat)
              [("plate", VStr "AB-1"); ("sold", VBool true)] (VObj []) 0%nat eq_refl eq_refl)
    as (st1 & Hrequest & Hrun).
  injection Hrequest as <-.
  destruct (loadTable counting_server 2 _ _) as [[[]|e|] st'] eqn:Hload.
  - exists st'. split; [exact Hrun|].
    vm_compute in Hload. injection Hload as <-. reflexivity.
  - destruct Hrun.
  - vm_compute in Hload. discriminate Hload.
Defined.

Lemma payload_follows_schema_witness :
  collect_fields edit_car_form (VArr inherited_schema)
  = Val [("plate", VStr "AB-1"); ("sold", VBool true)]
  /\ assoc "sold" [("plate", VStr "AB-1"); ("sold", VBool true)] = Some (VBool true)
  /\ assoc "name" [("plate", VStr "AB-1"); ("sold", VBool true)] = None
  /\ assoc "__proto__" [("plate", VStr "AB-1"); ("sold", VBool true)] = None.
Proof.
  split; [reflexivity|].
  destruct (payload_follows_schema edit_car_form inherited_schema
              [("plate", VStr "AB-1"); ("sold", VBool true)] eq_refl)
    as (Hfields & Hothers & Hproto).
  - apply (bool_decide_unpack _). vm_compute. exact I.
  - split; [|split; [|exact Hproto]].
    + apply (Hfields (VObj [("key", VStr "sold"); ("title", VStr "Sold");
                            ("type", VStr "checkbox")])).
      * right. right. left. reflexivity.
      * discriminate.
    + apply (Hothers "name"). vm_compute. intros [H|[H|[H|[]]]]; discriminate H.
Defined.

Section RelatedProofs.
Context {Srv : Type}.
Variable serve : value -> Srv -> (value + value) * Srv.
Variable trim : string -> string.

(** ** [loadRelatedRecords] *)

(** X19.  An outage is reported as an account without lookup fields: when the
    service rejects every request and nothing is cached, the tab ends with
    the text for "no lookup fields", after the four requests of the
    discovery and none for the record. *)
Theorem loadRelatedRecords_outage fuel recordId (st : State Srv) :
  (forall req srv, exists reason srv', serve req srv = (inr reason, srv')) ->
  truthy (cachedLookupFields st) = false ->
  exists st',
    loadRelatedRecords serve trim (S fuel) recordId st = (Returns NoLookupFields, st')
    /\ length (new_exchanges st st') = 4
    /\ cachedLookupFields st' = VArr [].
Proof.
  intros Hdown Hcache.
  destruct (getLookupFields_outage serve fuel st Hdown Hcache) as (st' & Hrun & Hstored & Hnet & _).
  exists st'. unfold loadRelatedRecords, bind at 1. rewrite Hrun. simpl.
  split; [reflexivity|]. split; [|exact Hstored].
  by rewrite <- (length_map fst), Hnet.
Qed.

Lemma related_step_exchange recordId field html foundAny (st : State Srv) endpoint :
  related_endpoint (currentCoKey st) recordId field = Val endpoint ->
  exists acc reply st',
    related_step serve trim recordId field html foundAny st = (Returns acc, st')
    /\ network st' = network st ++ [(VStr endpoint, reply)]
    /\ reply = fst (serve (VStr endpoint) (remote st))
    /\ currentCoKey st' = currentCoKey st
    /\ cachedLookupFields st' = cachedLookupFields st
    /\ (forall reason, reply = inr reason ->
          acc = (html, foundAny) /\ length (console st') = S (length (console st))).
Proof.
  intros Hendpoint. unfold related_step, bind at 1, gets at 1, bind at 1, lift at 1.
  rewrite Hendpoint. unfold client_request.
  assert (Hid : exists id, get field "id" = Val id).
  { unfold related_endpoint, rbind in Hendpoint.
    destruct (get field "id") as [id|]; [eauto | discriminate]. }
  destruct Hid as (id & Hid). rewrite Hid.
  destruct (serve (VStr endpoint) (remote st)) as [[response|reason] srv'].
  - destruct (related_section trim field response html foundAny) as [acc [e|]];
      eexists acc, (inl response), _; (split; [reflexivity|]); simpl;
      split_and!; try reflexivity; intros reason; discriminate.
  - eexists (html, foundAny), (inr reason), _. split; [reflexivity|]. simpl.
    split_and!; try reflexivity. intros _ _. split; [reflexivity|].
    rewrite length_app. simpl. lia.
Qed.

Lemma related_endpoint_readable coKey recordId field :
  field <> VNull -> field <> VUndefined ->
  exists endpoint, related_endpoint coKey recordId field = Val endpoint.
Proof.
  intros Hnull Hundefined. unfold related_endpoint, rbind.
  destruct field; try done; simpl; eauto.
Qed.

Lemma related_loop_requests recordId fields :
  Forall (fun field => field <> VNull /\ field <> VUndefined) fields ->
  forall html foundAny (st : State Srv),
  exists acc exchanges st',
    related_loop serve trim recordId fields html foundAny st = (Returns acc, st')
    /\ network st' = network st ++ exchanges
    /\ currentCoKey st' = currentCoKey st
    /\ cachedLookupFields st' = cachedLookupFields st
    /\ Forall2 (fun field exchange =>
                  exists endpoint,
                    related_endpoint (currentCoKey st) recordId field = Val endpoint
                    /\ fst exchange = VStr endpoint) fields exchanges
    /\ Forall (fun exchange => exists srv, snd exchange = fst (serve (fst exchange) srv))
         exchanges
    /\ (Forall (fun exchange => exists reason, snd exchange = inr reason) exchanges ->
        acc = (html, foundAny)
        /\ length (console st') = length (console st) + length fields).
Proof.
  induction 1 as [|field fields [Hnull Hundefined] _ IH]; intros html foundAny st.
  - exists (html, foundAny), [], st. simpl. rewrite app_nil_r.
    split_and!; try reflexivity; [constructor|constructor|].
    intros _. split; [reflexivity | lia].
  - destruct (related_endpoint_readable (currentCoKey st) recordId field Hnull Hundefined)
      as (endpoint & Hendpoint).
    destruct (related_step_exchange recordId field html foundAny st endpoint Hendpoint)
      as (acc1 & reply & st1 & Hstep & Hnet1 & Hreply & Hkey1 & Hcache1 & Hrejected).
    destruct (IH (fst acc1) (snd acc1) st1)
      as (acc & exchanges & st' & Hloop & Hnet & Hkey & Hcache & Hasked & Hserved & Hall).
    exists acc, ((VStr endpoint, reply) :: exchanges), st'.
    simpl. unfold bind at 1. rewrite Hstep, Hloop.
    split; [reflexivity|]. split; [by rewrite Hnet, Hnet1, <- app_assoc|].
    split; [congruence|]. split; [congruence|]. split; [|split].
    + constructor; [eauto|]. by rewrite <- Hkey1.
    + constructor; [simpl; eauto | exact Hserved].
    + intros Hrej. apply Forall_cons in Hrej as [(reason & Hreason) Hrej]. simpl in Hreason.
      destruct (Hrejected reason Hreason) as [-> Hconsole].
      destruct (Hall Hrej) as [-> Hconsole']. split; [reflexivity|]. simpl in *. lia.
Qed.

Lemma loadRelatedRecords_cached fuel recordId (st : State Srv) fields :
  cachedLookupFields st = VArr fields ->
  fields <> [] ->
  loadRelatedRecords serve trim fuel recordId st
  = match related_loop serve trim recordId fields [] false st with
    | (Returns acc, st') => (Returns (if snd acc then Sections (fst acc) else NothingLinked), st')
    | (Throws e, st') => (Throws e, st')
    | (Diverges, st') => (Diverges, st')
    end.
Proof.
  intros Hcache Hfields. unfold loadRelatedRecords, bind at 1.
  rewrite getLookupFields_cached by (by rewrite Hcache). rewrite Hcache.
  unfold bind at 1, lift at 1. simpl js_length. cbv iota beta.
  destruct fields as [|field fields]; [done|].
  change (is_zero _) with false. cbv iota.
  unfold bind at 1, lift at 1. simpl iterate. cbv iota beta.
  unfold bind at 1.
  destruct (related_loop serve trim recordId (field :: fields) [] false st) as [[acc|e|] st'];
    reflexivity.
Qed.

(** X20.  With the lookup fields known, the tab asks once for each of them, in
    their order and whatever the answers are: the requests sent are the
    relationship endpoints of the fields for the selected object and the
    record.  The function returns; the cache and the selected object are
    left as they were. *)
Theorem loadRelatedRecords_asks_each_field fuel recordId (st : State Srv) fields :
  cachedLookupFields st = VArr fields ->
  fields <> [] ->
  Forall (fun field => field <> VNull /\ field <> VUndefined) fields ->
  exists tab st',
    loadRelatedRecords serve trim fuel recordId st = (Returns tab, st')
    /\ Forall2 (fun field exchange =>
                  exists endpoint,
                    related_endpoint (currentCoKey st) recordId field = Val endpoint
                    /\ fst exchange = VStr endpoint) fields (new_exchanges st st')
    /\ cachedLookupFields st' = cachedLookupFields st
    /\ currentCoKey st' = currentCoKey st.
Proof.
  intros Hcache Hfields Hobjects.
  rewrite (loadRelatedRecords_cached fuel recordId st fields Hcache Hfields).
  destruct (related_loop_requests recordId fields Hobjects [] false st)
    as (acc & exchanges & st' & -> & Hnet & Hkey & Hcache' & Hasked & _ & _).
  eexists _, st'. split; [reflexivity|].
  rewrite (new_exchanges_app st st' exchanges Hnet). by split_and!.
Qed.

(** X21.  Failures are reported as the absence of links: when every request for
    the related records is rejected, the tab ends with the text for "no
    records linked", and the console has one warning per lookup field. *)
Theorem loadRelatedRecords_all_rejected fuel recordId (st : State Srv) fields :
  cachedLookupFields st = VArr fields ->
  fields <> [] ->
  Forall (fun field => field <> VNull /\ field <> VUndefined) fields ->
  (forall req srv, exists reason srv', serve req srv = (inr reason, srv')) ->
  exists st',
    loadRelatedRecords serve trim fuel recordId st = (Returns NothingLinked, st')
    /\ length (new_exchanges st st') = length fields
    /\ length (console st') = length (console st) + length fields.
Proof.
  intros Hcache Hfields Hobjects Hdown.
  rewrite (loadRelatedRecords_cached fuel recordId st fields Hcache Hfields).
  destruct (related_loop_requests recordId fields Hobjects [] false st)
    as (acc & exchanges & st' & Hloop & Hnet & _ & _ & Hasked & Hserved & Hall).
  rewrite Hloop. exists st'.
  assert (Hrejected : Forall (fun exchange => exists reason, snd exchange = inr reason) exchanges).
  { eapply Forall_impl; [exact Hserved|]. intros [req reply] (srv & Hreply). simpl in *.
    destruct (Hdown req srv) as (reason & srv' & Hserve). rewrite Hserve in Hreply. eauto. }
  destruct (Hall Hrejected) as [-> Hconsole]. split; [reflexivity|].
  rewrite (new_exchanges_app st st' exchanges Hnet).
  split; [symmetry; by eapply Forall2_length | exact Hconsole].
Qed.

End RelatedProofs.

Lemma loadRelatedRecords_outage_witness :
  exists st',
    loadRelatedRecords outage_server no_blanks 1 (VStr "r1") (car_selected tt)
    = (Returns NoLookupFields, st')
    /\ length (network st') = 4.
Proof.
  destruct (loadRelatedRecords_outage outage_server no_blanks 0 (VStr "r1") (car_selected tt))
    as (st' & Hrun & Hnet & _).
  - intros req srv. exists (VStr "503"), tt. reflexivity.
  - reflexivity.
  - exists st'. split; [exact Hrun|].
    unfold new_exchanges in Hnet. simpl in Hnet. by rewrite drop_0 in Hnet.
Defined.

Lemma loadRelatedRecords_asks_each_field_witness :
  exists tab st',
    loadRelatedRecords (table_server car_links) no_blanks 0 (VStr "r1") (car_discovered tt)
    = (Returns tab, st')
    /\ length (network st') = 2.
Proof.
  destruct (loadRelatedRecords_asks_each_field (table_server car_links) no_blanks 0 (VStr "r1")
              (car_discovered tt) car_related eq_refl)
    as (tab & st' & Hrun & Hasked & _).
  - discriminate.
  - repeat constructor; discriminate.
  - exists tab, st'. split; [exact Hrun|].
    apply Forall2_length in Hasked.
    unfold new_exchanges in Hasked. simpl in Hasked. by rewrite drop_0 in Hasked.
Defined.

Lemma loadRelatedRecords_all_rejected_witness :
  exists st',
    loadRelatedRecords outage_server no_blanks 0 (VStr "r1") (car_discovered tt)
    = (Returns NothingLinked, st')
    /\ length (console st') = 2.
Proof.
  destruct (loadRelatedRecords_all_rejected outage_server no_blanks 0 (VStr "r1")
              (car_discovered tt) car_related eq_refl)
    as (st' & Hrun & _ & Hconsole).
  - discriminate.
  - repeat constructor; discriminate.
  - intros req srv. exists (VStr "503"), tt. reflexivity.
  - exists st'. split; [exact Hrun | exact Hconsole].
Defined.

Section FormProofs.
Context {Srv : Type}.
Variable serve : value -> Srv -> (value + value) * Srv.

(** ** [showForm] *)

Lemma calm_refl n (st : State Srv) : calm n st st.
Proof. split; [exists []; rewrite app_nil_r; simpl; split; [done|lia] | done]. Qed.

Lemma calm_trans n m (st1 st2 st3 : State Srv) :
  calm n st1 st2 -> calm m st2 st3 -> calm (n + m) st1 st3.
Proof.
  intros [(l1 & Hn1 & Hl1) (? & ? & ? & ?)] [(l2 & Hn2 & Hl2) (? & ? & ? & ?)].
  split; [|split_and!; congruence].
  exists (l1 ++ l2). rewrite Hn2, Hn1, <- app_assoc, length_app. split; [done|lia].
Qed.

Lemma fetchSingleRecordName_calm targetType id (st : State Srv) :
  exists label st',
    fetchSingleRecordName serve targetType id st = (Returns label, st') /\ calm 1 st st'.
Proof.
  unfold fetchSingleRecordName.
  destruct (single_record_route targetType id) as [[[endpoint dataKey] labelField]|].
  - unfold try_catch, bind, request, client_request.
    destruct (serve (VStr endpoint) (remote st)) as [[response|reason] srv'].
    + unfold lift. destruct (record_name dataKey labelField response) as [label|e];
        eexists _, _; (split; [reflexivity|]);
        (split; [eexists [_]; split; [reflexivity | simpl; lia] | done]).
    + eexists _, _. split; [reflexivity|].
      split; [eexists [_]; split; [reflexivity | simpl; lia] | done].
  - eexists _, _. split; [reflexivity | apply calm_refl].
Qed.

Lemma form_widget_calm isEdit existingRecord field (st : State Srv) :
  exists out st',
    form_widget serve isEdit existingRecord field st = (out, st')
    /\ out <> Diverges
    /\ calm (if is_lookup_field field then 1 else 0) st st'
    /\ (isEdit = false -> st' = st).
Proof.
  assert (Hhere : forall out : outcome (Widget * option (string * value)),
             out <> Diverges ->
             exists st', (out, st) = (out, st') /\ out <> Diverges
                         /\ calm (if is_lookup_field field then 1 else 0) st st'
                         /\ (isEdit = false -> st' = st)).
  { intros out Hout. exists st. split; [reflexivity|]. split; [exact Hout|].
    split; [apply calm_refl | done]. }
  unfold form_widget.
  assert (Hvalue : isEdit = false ->
                   form_field_value isEdit existingRecord field = Val (VStr "")).
  { by intros ->. }
  destruct (form_field_value isEdit existingRecord field) as [fieldValue|e];
    [|eexists; by apply Hhere].
  unfold bind at 1, lift at 1.
  destruct (get field "type") as [type|e] eqn:Htype; [|eexists; by apply Hhere].
  unfold bind at 1, lift at 1.
  destruct (get field "title") as [title|e]; [|eexists; by apply Hhere].
  unfold bind at 1, lift at 1.
  destruct (get field "key") as [key|e]; [|eexists; by apply Hhere].
  unfold bind at 1, lift at 1.
  destruct (get field "required") as [required|e]; [|eexists; by apply Hhere].
  destruct (is_str type "text"); [eexists; by apply Hhere|].
  destruct (is_str type "textarea"); [eexists; by apply Hhere|].
  destruct (is_str type "integer"); [eexists; by apply Hhere|].
  destruct (is_str type "decimal"); [eexists; by apply Hhere|].
  destruct (is_str type "date"); [eexists; by apply Hhere|].
  destruct (is_str type "checkbox"); [eexists; by apply Hhere|].
  destruct (is_str type "dropdown").
  { unfold bind at 1, lift at 1.
    destruct (get field "custom_field_options") as [options|e]; [|eexists; by apply Hhere].
    unfold bind at 1, lift at 1.
    destruct (dropdown_options fieldValue options) as [offered|e]; eexists; by apply Hhere. }
  destruct (is_str type "lookup") eqn:Hlookup; [|eexists; by apply Hhere].
  unfold bind at 1, lift at 1.
  destruct (get field "relationship_target_type") as [target|e]; [|eexists; by apply Hhere].
  destruct (truthy fieldValue) eqn:Htruthy; [|eexists; by apply Hhere].
  assert (Hedit : isEdit = false -> False).
  { intros Hnew. specialize (Hvalue Hnew). injection Hvalue as ->. discriminate Htruthy. }
  unfold fetchSingleRecordName_call.
  destruct target as [| | | |targetType| |]; try (eexists; by apply Hhere).
  destruct (fetchSingleRecordName_calm targetType fieldValue st)
    as (label & st' & Hname & Hcalm).
  cbv [bind lift ret]. rewrite Hname.
  eexists _, st'. split; [reflexivity|]. split; [done|].
  split; [|intros H; destruct (Hedit H)].
  unfold is_lookup_field. rewrite Htype, Hlookup. exact Hcalm.
Qed.

Lemma form_widgets_from_calm isEdit existingRecord fields :
  forall st : State Srv,
  exists out st',
    form_widgets_from serve isEdit existingRecord fields st = (out, st')
    /\ out <> Diverges
    /\ calm (length (List.filter is_lookup_field fields)) st st'
    /\ (isEdit = false -> st' = st).
Proof.
  induction fields as [|field fields IH]; intros st.
  - eexists _, st. split; [reflexivity|]. split; [done|]. split; [apply calm_refl | done].
  - simpl. unfold bind at 1.
    destruct (form_widget_calm isEdit existingRecord field st)
      as (out1 & st1 & -> & Hout1 & Hcalm1 & Hsame1).
    destruct out1 as [built|e|]; [| |done].
    + unfold bind at 1.
      destruct (IH st1) as (out2 & st2 & -> & Hout2 & Hcalm2 & Hsame2).
      destruct out2 as [built'|e|]; [| |done];
        eexists _, st2; (split; [reflexivity|]); (split; [done|]);
        (split; [|intros Hnew; rewrite (Hsame2 Hnew); exact (Hsame1 Hnew)]);
        pose proof (calm_trans _ _ _ _ _ Hcalm1 Hcalm2) as Hcalm;
        destruct (is_lookup_field field); exact Hcalm.
    + eexists _, st1. split; [reflexivity|]. split; [done|].
      split; [|exact Hsame1].
      destruct Hcalm1 as [(l & Hl & Hlen) Hrest]. split; [|exact Hrest].
      exists l. split; [exact Hl|]. destruct (is_lookup_field field); simpl; lia.
Qed.

Lemma record_id_readable existingRecord :
  present existingRecord = true -> exists id, get existingRecord "id" = Val id.
Proof. destruct existingRecord; try discriminate; simpl; eauto. Qed.

Lemma showForm_runs existingRecord (st : State Srv) :
  exists view st',
    showForm serve existingRecord st = (Returns view, st')
    /\ (exists exchanges,
          network st' = network st ++ exchanges
          /\ forall fields,
               iterate (currentSchema st) = Val fields ->
               length exchanges <= length (List.filter is_lookup_field fields))
    /\ (present existingRecord = false -> network st' = network st /\ remote st' = remote st)
    /\ (view = FormError ->
        activeView st' = "loader"
        /\ loaderText st' = "Building form..."
        /\ length (console st') = S (length (console st)))
    /\ (forall form, view = FormBuilt form ->
          activeView st' = "form" /\ console st' = console st)
    /\ (forall e, iterate (currentSchema st) = Exn e -> view = FormError).
Proof.
  unfold showForm.
  set (record := match existingRecord with VUndefined => VNull | r => r end).
  set (isEdit := match record with VNull => false | _ => true end).
  assert (Hedit : isEdit = present existingRecord) by (by destruct existingRecord).
  unfold bind at 1 2 3, modify at 1 2, gets at 1.
  set (st0 := switchView "loader" (updateLoaderText "Building form..." st)).
  assert (Htitle : exists formTitle,
             (if isEdit
              then let! id := get record "id" in Val ("Edit Record " +:+ to_string id)
              else Val ("Create new " +:+ to_string (currentCoKey st0) +:+ " record"))
             = Val formTitle).
  { destruct isEdit eqn:HisEdit; [|eauto].
    destruct (record_id_readable record) as (id & Hid); [by destruct existingRecord|].
    unfold rbind. rewrite Hid. eauto. }
  destruct Htitle as (formTitle & ->).
  unfold bind at 1, lift at 1, try_catch.
  assert (Hname : exists existingName,
             (if isEdit
              then let! name := get record "name" in
                   Val (if present name then name else VStr "")
              else Val (VStr "")) = Val existingName).
  { destruct isEdit eqn:HisEdit; [|eauto].
    destruct existingRecord; try discriminate; simpl; eauto. }
  destruct Hname as (existingName & ->).
  assert (Hid : exists record_id,
             (if isEdit then let! id := get record "id" in Val (to_string id) else Val "")
             = Val record_id).
  { destruct isEdit eqn:HisEdit; [|eauto].
    destruct existingRecord; try discriminate; simpl; eauto. }
  destruct Hid as (record_id & ->).
  unfold bind at 1, lift at 1, bind at 1, lift at 1, bind at 1, gets at 1.
  change (currentSchema st0) with (currentSchema st).
  destruct (iterate (currentSchema st)) as [fields|e] eqn:Hschema.
  - unfold bind at 1, lift at 1, bind at 1.
    destruct (form_widgets_from_calm isEdit record fields st0)
      as (out & st1 & -> & Hout & [(exchanges & Hnet & Hlen) (Hview & Htext & Hconsole & _)]
          & Hsame).
    destruct out as [built|e|]; [| |done].
    + eexists _, _. split; [reflexivity|]. simpl. split_and!.
      * exists exchanges. split; [exact Hnet|]. by intros ? [= <-].
      * rewrite <- Hedit. intros Hnew. by rewrite (Hsame Hnew).
      * discriminate.
      * intros form _. split; [reflexivity | exact Hconsole].
      * discriminate.
    + eexists _, _. split; [reflexivity|]. simpl. split_and!.
      * exists exchanges. split; [exact Hnet|]. by intros ? [= <-].
      * rewrite <- Hedit. intros Hnew. by rewrite (Hsame Hnew).
      * intros _. rewrite Hview, Htext, Hconsole, length_app. simpl. split_and!; [done..|lia].
      * discriminate.
      * discriminate.
  - eexists _, _. split; [reflexivity|]. simpl. split_and!.
    + exists []. rewrite app_nil_r. split; [reflexivity|]. discriminate.
    + done.
    + intros _. rewrite length_app. simpl. split_and!; [done..|lia].
    + discriminate.
    + reflexivity.
Qed.

(** X22.  A form for a new record is built without the network: called without
    a record, [showForm] returns after no request at all, whatever the
    schema holds. *)
Theorem showForm_new_record_is_offline existingRecord (st : State Srv) :
  present existingRecord = false ->
  exists view st',
    showForm serve existingRecord st = (Returns view, st')
    /\ network st' = network st
    /\ remote st' = remote st.
Proof.
  intros Hnew.
  destruct (showForm_runs existingRecord st) as (view & st' & Hrun & _ & Hoffline & _).
  exists view, st'. split; [exact Hrun | exact (Hoffline Hnew)].
Qed.

(** X23.  A form that cannot be built is not shown, and neither is the error:
    [showForm] always returns; when it could build the form the form view
    is on screen and nothing was logged; when it could not, as with a
    schema that is not a list, the error text goes into the form view
    while the loader stays on screen, still saying that the form is being
    built, and the console has the error. *)
Theorem showForm_failure_is_hidden existingRecord (st : State Srv) :
  exists view st',
    showForm serve existingRecord st = (Returns view, st')
    /\ (view = FormError ->
        activeView st' = "loader"
        /\ loaderText st' = "Building form..."
        /\ length (console st') = S (length (console st)))
    /\ (forall form, view = FormBuilt form ->
          activeView st' = "form" /\ console st' = console st)
    /\ (forall e, iterate (currentSchema st) = Exn e -> view = FormError).
Proof.
  destruct (showForm_runs existingRecord st)
    as (view & st' & Hrun & _ & _ & Herror & Hbuilt & Hschema).
  exists view, st'. by split_and!.
Qed.

(** X24.  Opening a record costs at most one request per lookup field of the
    schema: the requests [showForm] sends are no more than the fields of
    type [lookup]. *)
Theorem showForm_asks_per_lookup existingRecord (st : State Srv) fields :
  iterate (currentSchema st) = Val fields ->
  exists view st',
    showForm serve existingRecord st = (Returns view, st')
    /\ length (new_exchanges st st') <= length (List.filter is_lookup_field fields).
Proof.
  intros Hschema.
  destruct (showForm_runs existingRecord st)
    as (view & st' & Hrun & (exchanges & Hnet & Hlen) & _).
  exists view, st'. split; [exact Hrun|].
  rewrite (new_exchanges_app st st' exchanges Hnet). by apply Hlen.
Qed.

End FormProofs.

(** ** The options of a dropdown *)

Lemma dropdown_options_from_spec fieldValue opts offered :
  dropdown_options_from fieldValue opts = Val offered ->
  (forall o, In o offered ->
     exists opt, In opt opts /\ dropdown_option fieldValue opt = Val (Some o))
  /\ (forall opt o, In opt opts -> dropdown_option fieldValue opt = Val (Some o) ->
        In o offered).
Proof.
  revert offered. induction opts as [|opt opts IH]; intros offered; simpl.
  - intros [= <-]. split; [intros ? [] | intros ? ? []].
  - unfold rbind. destruct (dropdown_option fieldValue opt) as [first|] eqn:Hfirst;
      [|discriminate].
    destruct (dropdown_options_from fieldValue opts) as [rest|]; [|discriminate].
    destruct (IH rest eq_refl) as [Hsound Hcomplete].
    intros [= <-]. split.
    + intros o Ho. destruct first as [o'|].
      * destruct Ho as [<-|Ho]; [eauto|].
        destruct (Hsound o Ho) as (opt' & Hin & Hopt). eauto.
      * destruct (Hsound o Ho) as (opt' & Hin & Hopt). eauto.
    + intros opt' o [<-|Hin] Hopt.
      * rewrite Hfirst in Hopt. injection Hopt as ->. by left.
      * specialize (Hcomplete opt' o Hin Hopt). destruct first; [by right | exact Hcomplete].
Qed.

(** X25.  Retired options are hidden, except the one the record holds: every
    option offered by a dropdown comes from an option of the field that is
    not marked inactive or whose value is the stored one, and it is
    selected exactly when its value is the stored one; and the option
    whose value is the stored one is offered, and selected, even when it is
    marked inactive. *)
Theorem dropdown_hides_retired_options fieldValue opts offered :
  dropdown_options fieldValue (VArr opts) = Val offered ->
  (forall value name selected, In (value, name, selected) offered ->
     exists opt stored,
       In opt opts
       /\ get opt "value" = Val stored /\ value = to_string stored
       /\ selected = strict_eq fieldValue stored
       /\ (get opt "active" <> Val (VBool false) \/ selected = true))
  /\ (forall opt stored, In opt opts ->
        get opt "value" = Val stored -> strict_eq fieldValue stored = true ->
        exists name, In (to_string stored, name, true) offered).
Proof.
  simpl. intros Hoffered. apply dropdown_options_from_spec in Hoffered as [Hsound Hcomplete].
  split.
  - intros value name selected Hin. destruct (Hsound _ Hin) as (opt & Hopt & Hrender).
    unfold dropdown_option, rbind in Hrender.
    destruct (get opt "active") as [active|] eqn:Hactive; [|discriminate].
    destruct (get opt "value") as [stored|] eqn:Hvalue; [|discriminate].
    destruct (negb (is_false active) || strict_eq fieldValue stored) eqn:Hshown;
      [|discriminate].
    destruct (get opt "name") as [label|]; [|discriminate].
    injection Hrender as <- <- <-. exists opt, stored. split_and!; try done.
    apply orb_true_iff in Hshown as [Hshown|Hshown]; [left | by right].
    rewrite Hactive. intros [= ->]. discriminate Hshown.
  - intros opt stored Hin Hvalue Hsame.
    assert (Hname : exists label, get opt "name" = Val label).
    { destruct opt; try discriminate; simpl; eauto. }
    destruct Hname as (label & Hname).
    assert (Hactive : exists active, get opt "active" = Val active).
    { destruct opt; try discriminate; simpl; eauto. }
    destruct Hactive as (active & Hactive).
    exists (to_string label). apply (Hcomplete opt); [exact Hin|].
    unfold dropdown_option, rbind. rewrite Hactive, Hvalue, Hsame, orb_true_r, Hname.
    reflexivity.
Qed.

Lemma showForm_new_record_is_offline_witness :
  exists view st',
    showForm (table_server directory) VUndefined (owner_schema_loaded tt) = (Returns view, st')
    /\ network st' = [].
Proof.
  destruct (showForm_new_record_is_offline (table_server directory) VUndefined
              (owner_schema_loaded tt) eq_refl) as (view & st' & Hrun & Hnet & _).
  exists view, st'. split; [exact Hrun | exact Hnet].
Defined.

Lemma showForm_asks_per_lookup_witness :
  exists view st',
    showForm (table_server directory) teal_car (owner_schema_loaded tt) = (Returns view, st')
    /\ length (network st') <= 1.
Proof.
  destruct (showForm_asks_per_lookup (table_server directory) teal_car (owner_schema_loaded tt)
              [VObj [("key", VStr "colour"); ("title", VStr "Colour"); ("type", VStr "dropdown");
                     ("custom_field_options", VArr colour_options)];
               VObj [("key", VStr "owner"); ("title", VStr "Owner"); ("type", VStr "lookup");
                     ("relationship_target_type", VStr "zen:user")]] eq_refl)
    as (view & st' & Hrun & Hasked).
  exists view, st'. split; [exact Hrun|].
  unfold new_exchanges in Hasked. simpl in Hasked. by rewrite drop_0 in Hasked.
Defined.

Lemma dropdown_hides_retired_options_witness :
  exists name, In ("teal", name, true) [("red", "Red", false); ("teal", "Teal", true);
                                        ("blue", "Blue", false)].
Proof.
  apply (proj2 (dropdown_hides_retired_options (VStr "teal") colour_options
                  [("red", "Red", false); ("teal", "Teal", true); ("blue", "Blue", false)]
                  eq_refl)
           (VObj [("value", VStr "teal"); ("name", VStr "Teal"); ("active", VBool false)])
           (VStr "teal")).
  - right. left. reflexivity.
  - reflexivity.
  - reflexivity.
Defined.

(** ** [customFilter] *)

Lemma append_cons c (a b : string) : String c a +:+ b = String c (a +:+ b).
Proof. reflexivity. Qed.

Lemma append_nil (b : string) : "" +:+ b = b.
Proof. reflexivity. Qed.

Lemma append_assoc (a b c : string) : (a +:+ b) +:+ c = a +:+ (b +:+ c).
Proof.
  induction a as [|x a IH]; [reflexivity|]. rewrite !append_cons. by rewrite IH.
Qed.

Lemma prefix_append needle haystack :
  String.prefix needle haystack = true <-> exists post, haystack = needle +:+ post.
Proof.
  revert haystack. induction needle as [|c needle IH]; intros haystack.
  - split; [intros _; by exists haystack | by destruct haystack].
  - destruct haystack as [|c' haystack]; cbn [String.prefix].
    + split; [discriminate | intros (post & Hpost); discriminate Hpost].
    + destruct (ascii_dec c c') as [<-|Hne].
      * rewrite IH. split; intros (post & Hpost); exists post.
        -- rewrite append_cons. by rewrite Hpost.
        -- rewrite append_cons in Hpost. by injection Hpost.
      * split; [discriminate|]. intros (post & Hpost). rewrite append_cons in Hpost.
        injection Hpost as Hc _. by destruct Hne.
Qed.

Lemma includes_spec needle haystack :
  includes needle haystack = true <-> exists pre post, haystack = pre +:+ needle +:+ post.
Proof.
  induction haystack as [|c haystack IH]; cbn [includes].
  - rewrite orb_false_r, prefix_append. split.
    + intros (post & Hpost). by exists "", post.
    + intros (pre & post & Heq). destruct pre as [|c pre].
      * rewrite append_nil in Heq. by exists post.
      * rewrite append_cons in Heq. discriminate Heq.
  - rewrite orb_true_iff, IH, (prefix_append needle (String c haystack)). split.
    + intros [(post & Hpost)|(pre & post & Heq)].
      * by exists "", post.
      * exists (String c pre), post. rewrite append_cons. by rewrite Heq.
    + intros (pre & post & Heq). destruct pre as [|c' pre].
      * rewrite append_nil in Heq. left. by exists post.
      * rewrite append_cons in Heq. right. injection Heq as _ Heq. by exists pre, post.
Qed.

Lemma includes_trans a b c :
  includes a b = true -> includes b c = true -> includes a c = true.
Proof.
  rewrite !includes_spec. intros (pre1 & post1 & ->) (pre2 & post2 & ->).
  exists (pre2 +:+ pre1), (post1 +:+ post2). by rewrite !append_assoc.
Qed.

Section SearchProofs.
Variable toLowerCase : string -> string.

(** X26.  Shortening the search term never loses a row: a row that matches a
    term matches every term whose lower-case form occurs in the lower-case
    form of the first. *)
Theorem customFilter_shorter_term data term shorter :
  includes (toLowerCase shorter) (toLowerCase term) = true ->
  customFilter toLowerCase data term = true ->
  customFilter toLowerCase data shorter = true.
Proof.
  intros Hshorter.
  assert (Hcell : forall v, cell_matches toLowerCase term v = true ->
                            cell_matches toLowerCase shorter v = true).
  { intros v. unfold cell_matches. by apply includes_trans. }
  destruct data as [| | | | |items|props]; simpl; try done.
  - rewrite !existsb_exists. intros (v & Hin & Hv). eauto.
  - rewrite !existsb_exists. intros (prop & Hin & Hv). eauto.
Qed.

(** X27.  An empty cell is searched as the word [null]: a row one of whose
    properties is [null] matches every term that occurs in that word, with
    any [toLowerCase] that leaves the word as it is. *)
Theorem customFilter_matches_null props key term :
  toLowerCase "null" = "null" ->
  get (VObj props) key = Val VNull ->
  includes (toLowerCase term) "null" = true ->
  customFilter toLowerCase (VObj props) term = true.
Proof.
  intros Hlower Hnull Hterm. simpl in *.
  destruct (assoc key props) as [v|] eqn:Hassoc; [|discriminate].
  injection Hnull as ->.
  assert (Hin : exists v, In (key, v) props).
  { clear Hterm. induction props as [|[k v] props IH]; [discriminate|]. simpl in Hassoc.
    destruct (String.eqb_spec key k) as [->|_]; [exists v; by left|].
    destruct (IH Hassoc) as (v' & Hv'). exists v'. by right. }
  destruct Hin as (v & Hin). apply existsb_exists. exists (key, v). split; [exact Hin|].
  simpl. rewrite Hassoc. unfold cell_matches. simpl. by rewrite Hlower.
Qed.

End SearchProofs.

Lemma customFilter_shorter_term_witness :
  customFilter ascii_toLowerCase beetle_row "beet" = true.
Proof.
  apply (customFilter_shorter_term ascii_toLowerCase beetle_row "Beetle" "beet");
    vm_compute; reflexivity.
Defined.

Lemma customFilter_matches_null_witness :
  customFilter ascii_toLowerCase beetle_row "NUL" = true.
Proof.
  apply (customFilter_matches_null ascii_toLowerCase
           [("plate", VStr "AB-1"); ("garage", VNull); ("id", VStr "r1"); ("name", VStr "Beetle")]
           "garage" "NUL"); vm_compute; reflexivity.
Defined.

(** ** Relation types *)

Lemma substring_full (s : string) : String.substring 0 (String.length s) s = s.
Proof. induction s as [|c s IH]; simpl; [reflexivity | by rewrite IH]. Qed.

Lemma custom_object_prefix key :
  String.prefix "zen:custom_object:" ("zen:custom_object:" +:+ key) = true.
Proof. apply prefix_append. by exists key. Qed.

Lemma custom_object_key key :
  replace "zen:custom_object:" "" ("zen:custom_object:" +:+ key) = key.
Proof.
  unfold replace. destruct key as [|c key]; cbn -[String.substring];
    rewrite ?custom_object_prefix; [reflexivity|].
  change (String.substring 0 (String.length (String c key)) (String c key) = String c key).
  apply substring_full.
Qed.

(** X28.  The relation type of a custom object is read back by every function
    that routes on it: for the type the discovery builds from the key of an
    object, whatever the key, the search, the single-record read and the
    related-records tab all take the branch of custom objects, and the two
    that need the key recover exactly it. *)
Theorem relation_type_round_trip key id query :
  single_record_route ("zen:custom_object:" +:+ key) id
  = Some ("/api/v2/custom_objects/" +:+ key +:+ "/records/" +:+ to_string id,
          "custom_object_record", "name")
  /\ lookup_search_route ("zen:custom_object:" +:+ key) query
     = Some ("/api/v2/custom_objects/" +:+ key +:+ "/records/autocomplete?name="
             +:+ encodeURIComponent query,
             "custom_object_records", "name")
  /\ related_route (VStr ("zen:custom_object:" +:+ key))
     = Val ("custom_object_records", "name").
Proof.
  unfold single_record_route, lookup_search_route, related_route.
  rewrite custom_object_prefix, custom_object_key. split_and!; reflexivity.
Qed.
